(** * Bio.SearchIO tabular parsers, indexer and writer (BLAST+ tab, HMMER domtab)

    A shallow embedding of [Bio/SearchIO/BlastIO/blasttab.py] and of the
    row decoder and assembler of [Bio/SearchIO/HmmerIO/hmmerdomtab.py],
    followed by the properties of the specification that are stated about
    them.

    Conventions of the embedding:
    - a Python [str] (a byte string in Python 2) is a [string];
    - a Python [int]/[long] is a [Z]; a Python [float] is a binary64 [float];
    - a Python [dict] with string keys is a [gmap string _];
    - a Python [set] of strings is a [gset string];
    - a function that may raise returns a [result];
    - a generator returns a [run]: the values yielded so far and how the
      generator stopped (exhausted, raised, or still looping when the fuel
      of the model ran out);
    - an open file handle is the list of the lines that remain to be read;
      byte offsets are sums of line lengths. *)

From Stdlib Require Import ZArith Floats Uint63 String Ascii Lia Bool.
From stdpp Require Import gmap strings list fin_maps.

Set Warnings "-inexact-float".
Local Open Scope Z_scope.

(** ** Exceptions and results *)

Inductive exn : Type :=
  | AssertionError
  | KeyError
  | IndexError
  | ValueError
  | AttributeError
  | TypeError
  | OverflowError
  | UnboundLocalError.

Inductive result (A : Type) : Type :=
  | Ok (a : A)
  | Raise (e : exn).
Arguments Ok {A} a.
Arguments Raise {A} e.

#[global] Instance result_ret : MRet result := fun A a => Ok a.
#[global] Instance result_bind : MBind result := fun A B f m =>
  match m with
  | Ok a => f a
  | Raise e => Raise e
  end.
#[global] Instance result_fmap : FMap result := fun A B f m =>
  match m with
  | Ok a => Ok (f a)
  | Raise e => Raise e
  end.

Definition is_Ok {A} (r : result A) : bool :=
  match r with Ok _ => true | Raise _ => false end.

Definition assert (b : bool) : result unit :=
  if b then Ok tt else Raise AssertionError.

(** [for a in l: b = f(b, a)], stopping at the first exception. *)
Fixpoint foldlM {A B} (f : B -> A -> result B) (b : B) (l : list A) : result B :=
  match l with
  | [] => Ok b
  | a :: l' => b' ← f b a; foldlM f b' l'
  end.

(** What a call that may loop for ever does. *)
Inductive answer (A : Type) : Type :=
  | Returned (a : A)
  | Threw (e : exn)
  | Diverged.
Arguments Returned {A} a.
Arguments Threw {A} e.
Arguments Diverged {A}.

(** How a generator stopped. *)
Inductive outcome : Type :=
  | Exhausted
  | Raised (e : exn)
  | Running.

(** The values a generator yielded, in order, and how it stopped. *)
Record run (A : Type) : Type := Run { yielded : list A; stopped : outcome }.
Arguments Run {A} yielded stopped.
Arguments yielded {A} r.
Arguments stopped {A} r.

Definition yield_first {A} (a : A) (r : run A) : run A :=
  Run (a :: yielded r) (stopped r).

Definition yield_all {A} (l : list A) (r : run A) : run A :=
  Run (l ++ yielded r) (stopped r).

(** ** Python strings *)

Module Str.

Definition nl : ascii := "010"%char.
Definition tab : ascii := "009"%char.
Definition space : ascii := " "%char.

(** [str.isspace] for one byte in the C locale. *)
Definition isspace (c : ascii) : bool :=
  let n := nat_of_ascii c in
  (Nat.eqb n 32 || (Nat.leb 9 n && Nat.leb n 13))%bool.

Definition len (s : string) : nat := String.length s.

Definition nonempty (s : string) : bool :=
  match s with EmptyString => false | String _ _ => true end.

Fixpoint lstrip (s : string) : string :=
  match s with
  | EmptyString => EmptyString
  | String c s' => if isspace c then lstrip s' else s
  end.

(** Drops trailing white space: [None] stands for "everything from here
    on is white space". *)
Fixpoint rstrip_aux (s : string) : option string :=
  match s with
  | EmptyString => None
  | String c s' =>
      match rstrip_aux s' with
      | Some t => Some (String c t)
      | None => if isspace c then None else Some (String c EmptyString)
      end
  end.

Definition rstrip (s : string) : string := default EmptyString (rstrip_aux s).

Definition strip (s : string) : string := rstrip (lstrip s).

(** [s[n:]] for [0 <= n]. *)
Fixpoint drop (n : nat) (s : string) : string :=
  match n, s with
  | O, _ => s
  | S _, EmptyString => EmptyString
  | S n', String _ s' => drop n' s'
  end.

Definition startswith (p s : string) : bool := String.prefix p s.

Definition endswith (p s : string) : bool :=
  String.prefix (String.rev p) (String.rev s).

(** [sub in s] *)
Fixpoint contains (sub s : string) : bool :=
  (String.prefix sub s ||
   match s with
   | EmptyString => false
   | String _ s' => contains sub s'
   end)%bool.

Definition rev_string (acc : list ascii) : string := string_of_list_ascii (rev acc).

(** [s.split(sep, max)] for a non-empty [sep]; [max = None] is no limit.
    [skip] counts the bytes of a separator just matched that are still
    to be passed over, [acc] is the current piece, reversed. *)
Fixpoint split_go (sep : string) (max : option nat) (skip : nat)
    (acc : list ascii) (s : string) : list string :=
  match s with
  | EmptyString => [rev_string acc]
  | String c s' =>
      match skip with
      | S k => split_go sep max k acc s'
      | O =>
          match max with
          | Some O => split_go sep max O (c :: acc) s'
          | _ =>
              if String.prefix sep s
              then rev_string acc ::
                   split_go sep (pred <$> max) (Nat.pred (len sep)) [] s'
              else split_go sep max O (c :: acc) s'
          end
      end
  end.

Definition split (sep s : string) : list string := split_go sep None O [] s.
Definition splitn (sep : string) (max : nat) (s : string) : list string :=
  split_go sep (Some max) O [] s.

(** [s.split()]: the maximal runs of non-space bytes. *)
Fixpoint words_go (acc : list ascii) (s : string) : list string :=
  match s with
  | EmptyString => match acc with [] => [] | _ => [rev_string acc] end
  | String c s' =>
      if isspace c
      then match acc with
           | [] => words_go [] s'
           | _ => rev_string acc :: words_go [] s'
           end
      else words_go (c :: acc) s'
  end.

Definition words (s : string) : list string := words_go [] s.

Definition join (sep : string) (l : list string) : string := String.concat sep l.

Definition lower_char (c : ascii) : ascii :=
  let n := nat_of_ascii c in
  if (Nat.leb 65 n && Nat.leb n 90)%bool then ascii_of_nat (n + 32) else c.
Definition upper_char (c : ascii) : ascii :=
  let n := nat_of_ascii c in
  if (Nat.leb 97 n && Nat.leb n 122)%bool then ascii_of_nat (n - 32) else c.

Fixpoint map (f : ascii -> ascii) (s : string) : string :=
  match s with
  | EmptyString => EmptyString
  | String c s' => String (f c) (map f s')
  end.

Definition lower : string -> string := map lower_char.
Definition upper : string -> string := map upper_char.

(** [s.rjust(width)]: pads with spaces on the left, never truncates. *)
Definition rjust (width : nat) (s : string) : string :=
  string_of_list_ascii (repeat space (width - len s)) +:+ s.
Definition ljust (width : nat) (s : string) : string :=
  s +:+ string_of_list_ascii (repeat space (width - len s)).

(** [s.find(sub)]: where [sub] first starts in [s]. *)
Fixpoint find (sub s : string) : option nat :=
  if String.prefix sub s then Some O
  else match s with
       | EmptyString => None
       | String _ s' => S <$> find sub s'
       end.

Definition backslash : ascii := ascii_of_nat 92.
Definition dquote : ascii := ascii_of_nat 34.
Definition squote : ascii := ascii_of_nat 39.

Definition hex_digit (n : nat) : ascii :=
  ascii_of_nat (if Nat.ltb n 10 then 48 + n else 87 + n).

Definition escaped (c : ascii) : string := String backslash (String c "").

(** One byte inside [repr(s)] with the given quote. *)
Definition repr_char (quote c : ascii) : string :=
  let n := nat_of_ascii c in
  if (Ascii.eqb c quote || Ascii.eqb c backslash)%bool then escaped c
  else if Nat.eqb n 9 then escaped "t"
  else if Nat.eqb n 10 then escaped "n"
  else if Nat.eqb n 13 then escaped "r"
  else if (Nat.ltb n 32 || Nat.leb 127 n)%bool
  then String backslash
         (String "x" (String (hex_digit (n / 16)) (String (hex_digit (n mod 16)) "")))
  else String c "".

Fixpoint flat_map (f : ascii -> string) (s : string) : string :=
  match s with
  | EmptyString => EmptyString
  | String c s' => f c +:+ flat_map f s'
  end.

(** [repr(s)] *)
Definition repr (s : string) : string :=
  let quote : ascii :=
    if (contains (String squote "") s && negb (contains (String dquote "") s))%bool
    then dquote else squote in
  String quote (flat_map (repr_char quote) s) +:+ String quote "".

(** [l[i]] on a list, raising [IndexError] out of range. *)
Definition item {A} (l : list A) (i : nat) : result A :=
  match l !! i with
  | Some a => Ok a
  | None => Raise IndexError
  end.

End Str.

(** ** File handles *)

(** The bytes of a file as the lines [readline] returns one after the
    other: each line keeps its newline, the last one may lack it. *)
Fixpoint lines_go (acc : list ascii) (s : string) : list string :=
  match s with
  | EmptyString => match acc with [] => [] | _ => [Str.rev_string acc] end
  | String c s' =>
      if Ascii.eqb c Str.nl then Str.rev_string (c :: acc) :: lines_go [] s'
      else lines_go (c :: acc) s'
  end.

Definition lines_of (content : string) : list string := lines_go [] content.

(** An open handle: the lines not read yet. *)
Abbreviation handle := (list string).

(** [handle.readline()]: the next line, or the empty string at end of
    file; and the handle after the call. *)
Definition readline (h : handle) : string * handle :=
  match h with
  | [] => (EmptyString, [])
  | l :: h' => (l, h')
  end.

(** ** Python numbers: [int()], [float()], and [%]-formatting *)

Module Num.

Definition digit_char (d : Z) : ascii := ascii_of_nat (48 + Z.to_nat d).

Definition digit_of (c : ascii) : option Z :=
  let n := nat_of_ascii c in
  if (Nat.leb 48 n && Nat.leb n 57)%bool then Some (Z.of_nat n - 48) else None.

Fixpoint digits_go (fuel : nat) (n : Z) (acc : string) : string :=
  match fuel with
  | O => acc
  | S f =>
      let acc' := String (digit_char (n mod 10)) acc in
      if n <? 10 then acc' else digits_go f (n / 10) acc'
  end.

(** The decimal digits of [n], for [0 <= n]. *)
Definition digits (n : Z) : string :=
  digits_go (S (Z.to_nat (Z.log2 n))) n EmptyString.

(** [str(n)] and ['%i' % n] for an integer. *)
Definition str_int (n : Z) : string :=
  if n <? 0 then String "-" (digits (- n)) else digits n.

(** Reads a maximal run of decimal digits: the number read on top of
    [acc], how many digits there were, and what follows them. *)
Fixpoint take_digits (s : string) (acc : Z) (n : nat) : Z * nat * string :=
  match s with
  | EmptyString => (acc, n, s)
  | String c s' =>
      match digit_of c with
      | Some d => take_digits s' (10 * acc + d) (S n)
      | None => (acc, n, s)
      end
  end.

(** An optional sign: [true] for a minus. *)
Definition take_sign (s : string) : bool * string :=
  match s with
  | String "-" s' => (true, s')
  | String "+" s' => (false, s')
  | _ => (false, s)
  end.

(** [int(s)] for a string, base 10. *)
Definition int_of_str (s : string) : result Z :=
  let '(neg, r) := take_sign (Str.strip s) in
  let '(v, n, rest) := take_digits r 0 O in
  if (Nat.eqb n 0 || Str.nonempty rest)%bool then Raise ValueError
  else Ok (if neg then - v else v).

(** *** Exact arithmetic on binary64 values *)

Definition round_half_even (N D : Z) : Z :=
  let q := N / D in
  let r := N mod D in
  if ((D <? 2 * r) || ((2 * r =? D) && Z.odd q))%bool then q + 1 else q.

(** [N / D * b ^ p] as a fraction. *)
Definition scale (b N D p : Z) : Z * Z :=
  if 0 <=? p then (N * b ^ p, D) else (N, D * b ^ (- p)).

(** [1 <= N / D * b ^ (- a)] *)
Definition reaches (b N D a : Z) : bool :=
  let '(n, d) := scale b N D (- a) in d <=? n.

Definition of_small_Z (q : Z) : float := PrimFloat.of_uint63 (Uint63.of_Z q).

(** The binary64 value nearest to [N / D] (ties to even), for positive
    [N] and [D]: infinity when out of range. *)
Definition of_ratio (N D : Z) : float :=
  let l := Z.log2 N - Z.log2 D in
  let k := if reaches 2 N D l then l else l - 1 in
  let e := Z.max (k - 52) (-1074) in
  let '(n, d) := scale 2 N D (- e) in
  Z.ldexp (of_small_Z (round_half_even n d)) e.

Definition with_sign (neg : bool) (f : float) : float :=
  if neg then PrimFloat.opp f else f.

(** The binary64 value nearest to [m * 10 ^ e], for [0 <= m]. *)
Definition of_decimal (neg : bool) (m e : Z) : float :=
  with_sign neg
    (if m =? 0 then PrimFloat.zero
     else let '(n, d) := scale 10 m 1 e in of_ratio n d).

(** [float(n)] for an integer. *)
Definition of_int (n : Z) : float := of_decimal (n <? 0) (Z.abs n) 0.

(** The text of a decimal number: digits with an optional point and an
    optional exponent, as mantissa and power of ten. *)
Definition parse_decimal (s : string) : option (Z * Z) :=
  let '(i, ni, r1) := take_digits s 0 O in
  let '(m, nf, r2) :=
    match r1 with
    | String "." r => take_digits r i O
    | _ => (i, O, r1)
    end in
  if Nat.eqb (ni + nf) 0 then None
  else match r2 with
       | EmptyString => Some (m, - Z.of_nat nf)
       | String c r3 =>
           if (Ascii.eqb c "e" || Ascii.eqb c "E")%bool then
             let '(xneg, r4) := take_sign r3 in
             let '(x, nx, r5) := take_digits r4 0 O in
             if (Nat.eqb nx 0 || Str.nonempty r5)%bool then None
             else Some (m, (if xneg then - x else x) - Z.of_nat nf)
           else None
       end.

(** [float(s)] for a string. *)
Definition float_of_str (s : string) : result float :=
  let '(neg, r) := take_sign (Str.strip s) in
  let w := Str.lower r in
  if (String.eqb w "inf" || String.eqb w "infinity")%bool
  then Ok (with_sign neg PrimFloat.infinity)
  else if String.eqb w "nan" then Ok PrimFloat.nan
  else match parse_decimal r with
       | Some (m, e) => Ok (of_decimal neg m e)
       | None => Raise ValueError
       end.

(** A binary64 value taken apart: a finite non-zero one is [N / D] in
    absolute value. *)
Inductive fclass : Type :=
  | FNan
  | FInf (neg : bool)
  | FZero (neg : bool)
  | FFin (neg : bool) (N D : Z).

Definition classify (f : float) : fclass :=
  match Prim2SF f with
  | S754_nan => FNan
  | S754_infinity s => FInf s
  | S754_zero s => FZero s
  | S754_finite s m e =>
      let '(n, d) := scale 2 (Zpos m) 1 e in FFin s n d
  end.

Definition ndigits (n : Z) : Z := Z.of_nat (Str.len (digits n)).

(** The decimal exponent of [N / D]: [10 ^ x <= N / D < 10 ^ (x + 1)]. *)
Definition exp10 (N D : Z) : Z :=
  let a := ndigits N - ndigits D in
  if reaches 10 N D a then a else a - 1.

(** [N / D] rounded to [prec + 1] significant digits: the digits as a
    number, and the decimal exponent of the rounded value. *)
Definition sci_digits (prec : nat) (N D : Z) : Z * Z :=
  let x := exp10 N D in
  let '(n, d) := scale 10 N D (Z.of_nat prec - x) in
  let m := round_half_even n d in
  if 10 ^ (Z.of_nat prec + 1) <=? m then (m / 10, x + 1) else (m, x).

Definition zeros (n : nat) : string := string_of_list_ascii (repeat "0"%char n).

(** [s] with zeros on the left up to [n] bytes. *)
Definition zfill (n : nat) (s : string) : string := zeros (n - Str.len s) +:+ s.

Definition sign_text (neg : bool) : string := if neg then "-" else "".

Definition exponent_text (x : Z) : string :=
  (if x <? 0 then "e-" else "e+") +:+ zfill 2 (digits (Z.abs x)).

(** The mantissa [d.ddd] of [prec + 1] digits. *)
Definition mantissa_text (prec : nat) (m : Z) : string :=
  match zfill (S prec) (digits m) with
  | String c rest =>
      String c (match prec with O => "" | S _ => String "." rest end)
  | EmptyString => ""
  end.

(** ['%.<prec>e' % f] *)
Definition fmt_e (prec : nat) (f : float) : string :=
  match classify f with
  | FNan => "nan"
  | FInf neg => sign_text neg +:+ "inf"
  | FZero neg => sign_text neg +:+ mantissa_text prec 0 +:+ exponent_text 0
  | FFin neg N D =>
      let '(m, x) := sci_digits prec N D in
      sign_text neg +:+ mantissa_text prec m +:+ exponent_text x
  end.

(** The text of [t / 10 ^ prec] with [prec] decimals. *)
Definition fixed_text (prec : nat) (t : Z) : string :=
  let p := 10 ^ Z.of_nat prec in
  digits (t / p) +:+
  match prec with
  | O => ""
  | S _ => String "." (zfill prec (digits (t mod p)))
  end.

(** ['%.<prec>f' % f] *)
Definition fmt_f (prec : nat) (f : float) : string :=
  match classify f with
  | FNan => "nan"
  | FInf neg => sign_text neg +:+ "inf"
  | FZero neg => sign_text neg +:+ fixed_text prec 0
  | FFin neg N D =>
      let '(n, d) := scale 10 N D (Z.of_nat prec) in
      sign_text neg +:+ fixed_text prec (round_half_even n d)
  end.

(** ['%<width>.<prec>e' % f] and ['%<width>.<prec>f' % f] *)
Definition fmt_we (width prec : nat) (f : float) : string :=
  Str.rjust width (fmt_e prec f).
Definition fmt_wf (width prec : nat) (f : float) : string :=
  Str.rjust width (fmt_f prec f).

(** [int(f)]: truncation towards zero. *)
Definition trunc (f : float) : result Z :=
  match classify f with
  | FNan => Raise ValueError
  | FInf _ => Raise OverflowError
  | FZero _ => Ok 0
  | FFin neg N D => Ok (if neg then - (N / D) else N / D)
  end.

(** ['%<width>.0d' % n] for an integer [n]. *)
Definition fmt_wd (width : nat) (n : Z) : string := Str.rjust width (str_int n).

(** Removes trailing zeros. *)
Definition rstrip_zeros (s : string) : string :=
  String.rev (Str.drop (Str.len (String.rev s) -
    Str.len ((fix go (t : string) : string :=
                match t with
                | String "0" t' => go t'
                | _ => t
                end) (String.rev s))) (String.rev s)).

(** [str(f)] for a float: twelve significant digits, in fixed notation
    when the decimal exponent is at least -4 and below 12, always with
    a point or an exponent. *)
Definition str_float (f : float) : string :=
  match classify f with
  | FNan => "nan"
  | FInf neg => sign_text neg +:+ "inf"
  | FZero neg => sign_text neg +:+ "0.0"
  | FFin neg N D =>
      let '(m, x) := sci_digits 11 N D in
      let ds := zfill 12 (digits m) in
      sign_text neg +:+
      if ((-4 <=? x) && (x <? 12))%bool then
        if x <? 0 then
          "0." +:+ zeros (Z.to_nat (- x - 1)) +:+ rstrip_zeros ds
        else
          let ip := String.substring 0 (Z.to_nat x + 1) ds in
          let fp := rstrip_zeros (Str.drop (Z.to_nat x + 1) ds) in
          ip +:+ "." +:+ (if Str.nonempty fp then fp else "0")
      else
        let ms := rstrip_zeros ds in
        match ms with
        | String c rest =>
            String c (if Str.nonempty rest then String "." rest else "")
            +:+ exponent_text x
        | EmptyString => ""
        end
  end.

End Num.

(** ** Python values and objects *)

Inductive pyval : Type :=
  | VNone
  | VInt (z : Z)
  | VFloat (f : float)
  | VStr (s : string)
  | VList (l : list string).

(** A dictionary with string keys, also the attributes of an object. *)
Abbreviation pydict := (gmap string pyval).

Module Py.

(** [z == f] for an integer and a float: Python compares the exact
    values. *)
Definition int_eq_float (z : Z) (f : float) : bool :=
  match Num.classify f with
  | Num.FZero _ => z =? 0
  | Num.FFin neg N D => (if neg then - z else z) * D =? N
  | _ => false
  end.

(** [a == b] *)
Definition eqb (a b : pyval) : bool :=
  match a, b with
  | VNone, VNone => true
  | VInt x, VInt y => x =? y
  | VFloat x, VFloat y => PrimFloat.eqb x y
  | VInt x, VFloat y => int_eq_float x y
  | VFloat x, VInt y => int_eq_float y x
  | VStr x, VStr y => String.eqb x y
  | VList x, VList y => bool_decide (x = y)
  | _, _ => false
  end.

(** [a != b] *)
Definition ne (a b : pyval) : bool := negb (eqb a b).

(** [v is None] *)
Definition is_none (v : pyval) : bool :=
  match v with VNone => true | _ => false end.

(** [d.get(k)] *)
Definition get (d : pydict) (k : string) : pyval := default VNone (d !! k).

(** [d[k]] *)
Definition getitem (d : pydict) (k : string) : result pyval :=
  match d !! k with
  | Some v => Ok v
  | None => Raise KeyError
  end.

(** [getattr(o, k)] on the attributes [d] of [o] *)
Definition getattr (d : pydict) (k : string) : result pyval :=
  match d !! k with
  | Some v => Ok v
  | None => Raise AttributeError
  end.

(** [for k, v in src.items(): setattr(o, k, v)] on the attributes [d]
    of [o]: the items of [src] win. *)
Definition setattrs (src d : pydict) : pydict := src ∪ d.

(** The integer held by a value.  The models below use it where the
    column tables guarantee an [int]; on anything else they stop with
    [TypeError]. *)
Definition as_int (v : pyval) : result Z :=
  match v with
  | VInt z => Ok z
  | _ => Raise TypeError
  end.

Definition as_str (v : pyval) : result string :=
  match v with
  | VStr s => Ok s
  | _ => Raise TypeError
  end.

(** [str(v)] for the values a column can hold. *)
Definition str (v : pyval) : result string :=
  match v with
  | VNone => Ok "None"
  | VInt z => Ok (Num.str_int z)
  | VFloat f => Ok (Num.str_float f)
  | VStr s => Ok s
  | VList l => Ok ("[" +:+ Str.join ", " (Str.repr <$> l) +:+ "]")
  end.

(** [v < c] for a float [c], in Python 2: [None] is below every
    number, a string or a list above. *)
Definition int_lt_float (z : Z) (c : float) : bool :=
  match Num.classify c with
  | Num.FNan => false
  | Num.FInf neg => negb neg
  | Num.FZero _ => z <? 0
  | Num.FFin neg N D => z * D <? (if neg then - N else N)
  end.
Definition float_lt_int (c : float) (z : Z) : bool :=
  match Num.classify c with
  | Num.FNan => false
  | Num.FInf neg => neg
  | Num.FZero _ => 0 <? z
  | Num.FFin neg N D => (if neg then - N else N) <? z * D
  end.

Definition lt_float (v : pyval) (c : float) : bool :=
  match v with
  | VNone => true
  | VInt z => int_lt_float z c
  | VFloat f => PrimFloat.ltb f c
  | VStr _ | VList _ => false
  end.

(** [v > c] for a float [c] *)
Definition gt_float (v : pyval) (c : float) : bool :=
  match v with
  | VNone => false
  | VInt z => float_lt_int c z
  | VFloat f => PrimFloat.ltb c f
  | VStr _ | VList _ => true
  end.

(** [v < n] and [v > n] for an integer [n] *)
Definition lt_int (v : pyval) (n : Z) : bool :=
  match v with
  | VNone => true
  | VInt z => z <? n
  | VFloat f => float_lt_int f n
  | VStr _ | VList _ => false
  end.
Definition gt_int (v : pyval) (n : Z) : bool :=
  match v with
  | VNone => false
  | VInt z => n <? z
  | VFloat f => int_lt_float n f
  | VStr _ | VList _ => true
  end.

(** The float that a [%e] or [%f] conversion formats. *)
Definition float_arg (v : pyval) : result float :=
  match v with
  | VFloat f => Ok f
  | VInt z =>
      let f := Num.of_int z in
      match Num.classify f with
      | Num.FInf _ => Raise OverflowError
      | _ => Ok f
      end
  | _ => Raise TypeError
  end.

(** The integer that a [%d] or [%i] conversion formats. *)
Definition int_arg (v : pyval) : result Z :=
  match v with
  | VInt z => Ok z
  | VFloat f => Num.trunc f
  | _ => Raise TypeError
  end.

(** [v + 1] *)
Definition succ (v : pyval) : result pyval :=
  match v with
  | VInt z => Ok (VInt (z + 1))
  | VFloat f => Ok (VFloat (f + 1)%float)
  | _ => Raise TypeError
  end.

End Py.

(** Modelled from the spec: the record types of [Bio.SearchIO._objects]
    (QueryResult, Hit, HSP, HSPFragment), which are not part of the
    sources at hand.  The specification takes the hierarchy as given:
    a Query owns an ordered sequence of Hits, a Hit an ordered sequence
    of HSPs, an HSP exactly one Fragment, and every record takes
    attributes assigned by name.  The identifiers passed to a
    constructor are attributes like the others. *)
Record HSPFragment : Type := mkFrag { frag_attrs : pydict }.
Record HSP : Type := mkHSP { hsp_frags : list HSPFragment; hsp_attrs : pydict }.
Record Hit : Type := mkHit { hit_hsps : list HSP; hit_attrs : pydict }.
Record QueryResult : Type := mkQuery { qr_hits : list Hit; qr_attrs : pydict }.

Module Obj.

(** [HSPFragment(hit_id, query_id)] *)
Definition new_frag (hit_id query_id : pyval) : HSPFragment :=
  mkFrag (<["hit_id" := hit_id]> (<["query_id" := query_id]> ∅)).

(** [HSP([frag])] *)
Definition new_hsp (frags : list HSPFragment) : HSP := mkHSP frags ∅.

(** [Hit(hit_id, query_id, hsps=hsps)] *)
Definition new_hit (hit_id query_id : pyval) (hsps : list HSP) : Hit :=
  mkHit hsps (<["id" := hit_id]> (<["query_id" := query_id]> ∅)).

(** [QueryResult(query_id, hits=hits)] *)
Definition new_query (query_id : pyval) (hits : list Hit) : QueryResult :=
  mkQuery hits (<["id" := query_id]> ∅).

Definition frag_set (k : string) (v : pyval) (f : HSPFragment) : HSPFragment :=
  mkFrag (<[k := v]> (frag_attrs f)).

(** [getattr(frag, k, None)] *)
Definition frag_get (f : HSPFragment) (k : string) : pyval :=
  Py.get (frag_attrs f) k.

(** [getattr(hsp, k)]: an attribute of the HSP itself, or of its one
    fragment. *)
Definition hsp_getattr (h : HSP) (k : string) : result pyval :=
  match hsp_attrs h !! k with
  | Some v => Ok v
  | None =>
      match hsp_frags h with
      | [f] => Py.getattr (frag_attrs f) k
      | _ => Raise AttributeError
      end
  end.

(** [getattr(hsp, k, None)] *)
Definition hsp_get (h : HSP) (k : string) : pyval :=
  match hsp_getattr h k with
  | Ok v => v
  | Raise _ => VNone
  end.

(** [bool(qresult)]: whether it has hits. *)
Definition truthy (q : QueryResult) : bool :=
  match qr_hits q with [] => false | _ :: _ => true end.

End Obj.

(** The four attribute maps decoded from one row. *)
Record parsed : Type := mkParsed {
  p_qresult : pydict;
  p_hit : pydict;
  p_hsp : pydict;
  p_frag : pydict
}.

(** ** The field catalog of the BLAST+ tabular format *)

Inductive caster : Type := to_str | to_int | to_float.

Module Catalog.

(** [caster(value)] *)
Definition cast (c : caster) (v : pyval) : result pyval :=
  match c, v with
  | to_str, _ => Ok v
  | to_int, VStr s => VInt <$> Num.int_of_str s
  | to_int, VInt z => Ok (VInt z)
  | to_int, VFloat f => VInt <$> Num.trunc f
  | to_float, VStr s => VFloat <$> Num.float_of_str s
  | to_float, VInt z => Ok (VFloat (Num.of_int z))
  | to_float, VFloat f => Ok (VFloat f)
  | _, _ => Raise TypeError
  end.

Definition _LONG_SHORT_MAP : gmap string string :=
  list_to_map [
    ("query id", "qseqid");
    ("query acc.", "qacc");
    ("query acc.ver", "qaccver");
    ("query length", "qlen");
    ("subject id", "sseqid");
    ("subject acc.", "sacc");
    ("subject acc.ver", "saccver");
    ("subject length", "slen");
    ("alignment length", "length");
    ("bit score", "bitscore");
    ("score", "score");
    ("evalue", "evalue");
    ("identical", "nident");
    ("% identity", "pident");
    ("positives", "positive");
    ("% positives", "ppos");
    ("mismatches", "mismatch");
    ("gaps", "gaps");
    ("q. start", "qstart");
    ("q. end", "qend");
    ("s. start", "sstart");
    ("s. end", "send");
    ("query frame", "qframe");
    ("sbjct frame", "sframe");
    ("query/sbjct frames", "frames");
    ("query seq", "qseq");
    ("subject seq", "sseq");
    ("gap opens", "gapopen");
    ("query gi", "qgi");
    ("subject ids", "sallseqid");
    ("subject gi", "sgi");
    ("subject gis", "sallgi");
    ("BTOP", "btop")
  ].

Definition _COLUMN_QRESULT : gmap string (string * caster) :=
  list_to_map [
    ("qseqid", ("id", to_str));
    ("qacc", ("acc", to_str));
    ("qaccver", ("acc_ver", to_str));
    ("qlen", ("seq_len", to_int));
    ("qgi", ("gi", to_str))
  ].

Definition _COLUMN_HIT : gmap string (string * caster) :=
  list_to_map [
    ("sseqid", ("id", to_str));
    ("sallseqid", ("id_all", to_str));
    ("sacc", ("acc", to_str));
    ("saccver", ("acc_ver", to_str));
    ("sgi", ("gi", to_str));
    ("sallgi", ("gi_all", to_str));
    ("slen", ("seq_len", to_int))
  ].

Definition _COLUMN_HSP : gmap string (string * caster) :=
  list_to_map [
    ("bitscore", ("bitscore", to_float));
    ("score", ("bitscore_raw", to_int));
    ("evalue", ("evalue", to_float));
    ("nident", ("ident_num", to_int));
    ("pident", ("ident_pct", to_float));
    ("positive", ("pos_num", to_int));
    ("ppos", ("pos_pct", to_float));
    ("mismatch", ("mismatch_num", to_int));
    ("gaps", ("gap_num", to_int));
    ("gapopen", ("gapopen_num", to_int));
    ("btop", ("btop", to_str))
  ].

Definition _COLUMN_FRAG : gmap string (string * caster) :=
  list_to_map [
    ("length", ("aln_span", to_int));
    ("qstart", ("query_start", to_int));
    ("qend", ("query_end", to_int));
    ("sstart", ("hit_start", to_int));
    ("send", ("hit_end", to_int));
    ("qframe", ("query_frame", to_int));
    ("sframe", ("hit_frame", to_int));
    ("frames", ("frames", to_str));
    ("qseq", ("query", to_str));
    ("sseq", ("hit", to_str))
  ].

Definition _SUPPORTED_FIELDS : gset string :=
  dom _COLUMN_QRESULT ∪ dom _COLUMN_HIT ∪ dom _COLUMN_HSP ∪ dom _COLUMN_FRAG.

Definition _DEFAULT_FIELDS : list string :=
  ["qseqid"; "sseqid"; "pident"; "length"; "mismatch"; "gapopen";
   "qstart"; "qend"; "sstart"; "send"; "evalue"; "bitscore"].

Definition _MIN_QUERY_FIELDS : gset string := list_to_set ["qseqid"; "qacc"; "qaccver"].
Definition _MIN_HIT_FIELDS : gset string := list_to_set ["sseqid"; "sacc"; "saccver"].

End Catalog.

(** ** The hierarchy assembler

    [BlastTabIterator._parse_qresult] and [HmmerDomtabIterator.parse_qresult]
    are the same loop over a one-row lookahead.  They differ in the test
    that tells a row from the end of the rows, in the row decoder, in how
    the two keys are read off a decoded row, in how the fragment is
    built, and in whether the next line is stripped: these are the
    variables of the section. *)

Module Assembler.

Record state : Type := mkState {
  cur : option parsed;
  cur_qid : pyval;
  cur_hid : pyval;
  prev : option parsed;
  prev_qid : pyval;
  prev_hid : pyval;
  at_eof : bool;                (* file_state == state_EOF *)
  hit_list : list Hit;
  hsp_list : list HSP
}.

(** The dummies before the loop.  [cur_qid] and [cur_hid] are not bound
    yet in the source; they are not read before they are set. *)
Definition init : state := mkState None VNone VNone None VNone VNone false [] [].

Section Loop.

Variable is_row : string -> bool.
Variable parse_row : string -> result parsed.
Variable row_qid row_hid : parsed -> result pyval.
Variable make_frag : pyval -> pyval -> parsed -> result HSPFragment.
Variable next_line : string -> string.

(** "store previous line's parsed values if we've past the first line" *)
Definition shift (st : state) : state :=
  match cur st with
  | Some _ =>
      mkState (cur st) (cur_qid st) (cur_hid st)
              (cur st) (cur_qid st) (cur_hid st)
              (at_eof st) (hit_list st) (hsp_list st)
  | None => st
  end.

(** "only parse the line if it's not EOF or not a comment line" *)
Definition advance (st : state) (line : string) : result state :=
  if is_row line then
    c ← parse_row line;
    q ← row_qid c;
    h ← row_hid c;
    Ok (mkState (Some c) q h (prev st) (prev_qid st) (prev_hid st)
                (at_eof st) (hit_list st) (hsp_list st))
  else
    Ok (mkState (cur st) VNone VNone (prev st) (prev_qid st) (prev_hid st)
                true (hit_list st) (hsp_list st)).

(** qres_state == state_QRES_NEW, hit_state == state_HIT_NEW *)
Definition qres_new (st : state) : bool := Py.ne (prev_qid st) (cur_qid st).
Definition hit_new (st : state) : bool :=
  (Py.ne (prev_hid st) (cur_hid st) || qres_new st)%bool.

(** One turn of the [while True] loop up to, and without, the final
    [readline]: the state after it, the Query yielded in it if any,
    and whether the loop was left by [break]. *)
Definition iteration (st : state) (line : string)
    : result (state * option QueryResult * bool) :=
  st ← advance (shift st) line;
  match prev st with
  | None => Ok (st, None, false)
  | Some p =>
      frag ← make_frag (prev_hid st) (prev_qid st) p;
      let hsp := mkHSP [frag] (Py.setattrs (p_hsp p) ∅) in
      let hsps := hsp_list st ++ [hsp] in
      let hit :=
        mkHit hsps (Py.setattrs (p_hit p)
                      (hit_attrs (Obj.new_hit (prev_hid st) (prev_qid st) hsps))) in
      let hits := if hit_new st then hit_list st ++ [hit] else hit_list st in
      let hsps' := if hit_new st then [] else hsps in
      let keep (hl : list Hit) :=
        mkState (cur st) (cur_qid st) (cur_hid st)
                (prev st) (prev_qid st) (prev_hid st)
                (at_eof st) hl hsps' in
      if (qres_new st || at_eof st)%bool then
        let qresult :=
          mkQuery hits (Py.setattrs (p_qresult p)
                          (qr_attrs (Obj.new_query (prev_qid st) hits))) in
        if at_eof st then Ok (keep hits, Some qresult, true)
        else Ok (keep [], Some qresult, false)
      else Ok (keep hits, None, false)
  end.

Definition emit (o : option QueryResult) (r : run QueryResult) : run QueryResult :=
  match o with
  | Some q => yield_first q r
  | None => r
  end.

(** The loop, [fuel] turns of it at most, from the line held in
    [self.line] and the handle: what the generator yields and how it
    stops, and the line and handle it leaves behind. *)
Fixpoint loop (fuel : nat) (st : state) (line : string) (h : handle)
    : run QueryResult * (string * handle) :=
  match fuel with
  | O => (Run [] Running, (line, h))
  | S fuel' =>
      match iteration st line with
      | Raise e => (Run [] (Raised e), (line, h))
      | Ok (st', out, true) => (emit out (Run [] Exhausted), (line, h))
      | Ok (st', out, false) =>
          let '(l, h') := readline h in
          let '(r, rest) := loop fuel' st' (next_line l) h' in
          (emit out r, rest)
      end
  end.

Definition parse_qresult (fuel : nat) (line : string) (h : handle) :=
  loop fuel init line h.

End Loop.

End Assembler.

(** ** [BlastTabIterator] *)

Inductive fields_arg : Type :=
  | FieldsStr (s : string)            (* a space-separated string *)
  | FieldsList (l : list string).

Module BlastTabIterator.

Import Catalog.

Record t : Type := mkIter {
  has_comments : bool;
  fields : list string;
  line : string;
  rest : handle
}.

(** [l.index(x)] *)
Fixpoint index (x : string) (l : list string) : option nat :=
  match l with
  | [] => None
  | y :: l' => if String.eqb x y then Some O else S <$> index x l'
  end.

(** "blast allows 'std' as a proxy for the standard default lists" *)
Definition expand_std (fields : list string) : list string :=
  match index "std" fields with
  | Some idx => take idx fields ++ _DEFAULT_FIELDS ++ drop (S idx) fields
  | None => fields
  end.

Definition as_list (fields : fields_arg) : list string :=
  match fields with
  | FieldsStr s => Str.split " " (Str.strip s)
  | FieldsList l => l
  end.

(** [set(fields).intersection(required)] is empty *)
Definition lacks (fields : list string) (required : gset string) : bool :=
  bool_decide (list_to_set fields ∩ required = (∅ : gset string)).

Definition _prep_fields (fields : fields_arg) : result (list string) :=
  let fields := expand_std (as_list fields) in
  if (lacks fields _MIN_QUERY_FIELDS || lacks fields _MIN_HIT_FIELDS)%bool
  then Raise ValueError
  else Ok fields.

Definition _parse_fields_line (line : string) : result (list string) :=
  let raw_field_str := Str.drop (Str.len "# Fields: ") line in
  let long_fields := Str.split ", " raw_field_str in
  fields ← mapM (fun long_name =>
                   match _LONG_SHORT_MAP !! long_name with
                   | Some short => Ok short
                   | None => Raise KeyError
                   end) long_fields;
  _prep_fields (FieldsList fields).

(** One turn of the loop of [_parse_comments] on the line at hand:
    the comments after it, and whether the block ends with this line. *)
Definition comment_line (comments : pydict) (line : string)
    : result (pydict * bool) :=
  if (Str.contains "BLAST" line && negb (Str.contains "processed" line))%bool then
    let program_line := Str.split " " (Str.drop (Str.len " #") line) in
    program ← Str.item program_line 0;
    version ← Str.item program_line 1;
    Ok (<["version" := VStr version]>
          (<["program" := VStr (Str.lower program)]> comments), false)
  else if Str.contains "Query" line then
    let query_line := Str.splitn " " 1 (Str.drop (Str.len "# Query: ") line) in
    id ← Str.item query_line 0;
    let comments := <["id" := VStr id]> comments in
    match query_line with
    | [_; description] => Ok (<["description" := VStr description]> comments, false)
    | _ => Ok (comments, false)
    end
  else if Str.contains "Database" line then
    Ok (<["target" := VStr (Str.drop (Str.len "# Database: ") line)]> comments, false)
  else if Str.contains "RID" line then
    Ok (<["rid" := VStr (Str.drop (Str.len "# RID: ") line)]> comments, false)
  else if Str.contains "Fields" line then
    fields ← _parse_fields_line line;
    Ok (<["fields" := VList fields]> comments, false)
  else if (Str.contains " hits found" line || Str.contains "processed" line)%bool then
    Ok (comments, true)
  else Ok (comments, false).

(** [_parse_comments]: the dictionary returned ([None] for the bare
    [return] at end of file), and the line and handle left behind. *)
Fixpoint _parse_comments_from (comments : pydict) (line : string) (h : handle)
    : result (option pydict * (string * handle)) :=
  '(comments, ends) ← comment_line comments line;
  if ends : bool then
    let '(l, h') := readline h in
    Ok (Some comments, (Str.strip l, h'))
  else
    match h with
    | [] => Ok (None, (EmptyString, []))
    | l :: h' =>
        if Str.nonempty l then _parse_comments_from comments (Str.strip l) h'
        else Ok (None, (l, h'))
    end.

Definition _parse_comments (line : string) (h : handle) :=
  _parse_comments_from ∅ line h.

(** The four (dictionary, mapping) pairs tried for a column, in order. *)
Inductive target : Type := t_qresult | t_hit | t_hsp | t_frag.

Definition mapping_of (t : target) : gmap string (string * caster) :=
  match t with
  | t_qresult => _COLUMN_QRESULT
  | t_hit => _COLUMN_HIT
  | t_hsp => _COLUMN_HSP
  | t_frag => _COLUMN_FRAG
  end.

Definition store (t : target) (k : string) (v : pyval) (p : parsed) : parsed :=
  match t with
  | t_qresult => mkParsed (<[k := v]> (p_qresult p)) (p_hit p) (p_hsp p) (p_frag p)
  | t_hit => mkParsed (p_qresult p) (<[k := v]> (p_hit p)) (p_hsp p) (p_frag p)
  | t_hsp => mkParsed (p_qresult p) (p_hit p) (<[k := v]> (p_hsp p)) (p_frag p)
  | t_frag => mkParsed (p_qresult p) (p_hit p) (p_hsp p) (<[k := v]> (p_frag p))
  end.

(** The body of the inner [for] of [_parse_result_row] for one pair:
    the running [value], the dictionaries and the [in_mapping] flag. *)
Definition try_mapping (sname : string) (acc : pyval * parsed * bool) (t : target)
    : result (pyval * parsed * bool) :=
  let '(value, p, in_mapping) := acc in
  match mapping_of t !! sname with
  | Some (attr_name, caster) =>
      value ← Catalog.cast caster value;
      Ok (value, store t attr_name value p, true)
  | None => Ok acc
  end.

(** The body of the outer [for] of [_parse_result_row] for one column. *)
Definition parse_column (p : parsed) (col : string * string) : result parsed :=
  let '(sname, value) := col in
  '(_, p, in_mapping) ←
    foldlM (try_mapping sname) (VStr value, p, false) [t_qresult; t_hit; t_hsp; t_frag];
  _ ← (if in_mapping : bool then Ok tt
       else assert (bool_decide (sname ∉ _SUPPORTED_FIELDS)));
  Ok p.

Definition _parse_result_row (fields : list string) (line : string) : result parsed :=
  let columns := Str.split (String Str.tab "") (Str.strip line) in
  _ ← assert (Nat.eqb (length fields) (length columns));
  foldlM parse_column (mkParsed ∅ ∅ ∅ ∅) (zip fields columns).

(** "use 'id', with 'acc' and 'acc_ver' fallbacks" *)
Definition _get_id (parsed : pydict) : pyval :=
  let id_cache := Py.get parsed "id" in
  let id_cache := if Py.is_none id_cache then Py.get parsed "acc" else id_cache in
  let id_cache := if Py.is_none id_cache then Py.get parsed "acc_ver" else id_cache in
  id_cache.

(** The body of the [for seq_type in ('query', 'hit')] that adjusts one
    item of [prev['frag']] "to Python range". *)
Definition adjust_for (pf : pydict) (attr : string) (value : pyval)
    (seq_type : string) : result pyval :=
  if String.eqb attr (seq_type +:+ "_start") then
    other ← Py.getitem pf (seq_type +:+ "_end");
    a ← Py.as_int value;
    b ← Py.as_int other;
    Ok (VInt (Z.min a b - 1))
  else if String.eqb attr (seq_type +:+ "_end") then
    other ← Py.getitem pf (seq_type +:+ "_start");
    a ← Py.as_int value;
    b ← Py.as_int other;
    Ok (VInt (Z.max a b))
  else Ok value.

Definition adjust (pf : pydict) (attr : string) (value : pyval) : result pyval :=
  foldlM (adjust_for pf attr) value ["query"; "hit"].

(** [for attr, value in prev['frag'].items(): ...; setattr(frag, attr, value)] *)
Definition set_adjusted (pf : pydict) (attr : string) (value : pyval)
    (acc : result HSPFragment) : result HSPFragment :=
  frag ← acc;
  value ← adjust pf attr value;
  Ok (Obj.frag_set attr value frag).

Definition fill_frag (pf : pydict) (frag : HSPFragment) : result HSPFragment :=
  map_fold (set_adjusted pf) (Ok frag) pf.

Definition _get_frag_frame (frag : HSPFragment) (seq_type : string)
    (parsedict : pydict) : result pyval :=
  let frame := Obj.frag_get frag (seq_type +:+ "_frame") in
  if negb (Py.is_none frame) then Ok frame
  else
    match parsedict !! "frames" with
    | Some frames =>
        frames ← Py.as_str frames;
        let idx := if String.eqb seq_type "query" then 0%nat else 1%nat in
        token ← Str.item (Str.split "/" frames) idx;
        VInt <$> Num.int_of_str token
    | None => Ok VNone
    end.

Definition _get_frag_strand (frag : HSPFragment) (seq_type : string)
    (parsedict : pydict) : result pyval :=
  let strand := Obj.frag_get frag (seq_type +:+ "_strand") in
  if negb (Py.is_none strand) then Ok strand
  else
    let start := Py.get parsedict (seq_type +:+ "_start") in
    let end_ := Py.get parsedict (seq_type +:+ "_end") in
    if (negb (Py.is_none start) && negb (Py.is_none end_))%bool then
      a ← Py.as_int start;
      b ← Py.as_int end_;
      Ok (VInt (if a <=? b then 1 else -1))
    else Ok VNone.

(** "strand and frame setattr require the full parsed values to be set
    first": the body of [for seq_type in ('hit', 'query')]. *)
Definition set_frame_strand (pf : pydict) (frag : HSPFragment) (seq_type : string)
    : result HSPFragment :=
  frame ← _get_frag_frame frag seq_type pf;
  let frag := Obj.frag_set (seq_type +:+ "_frame") frame frag in
  strand ← _get_frag_strand frag seq_type pf;
  Ok (Obj.frag_set (seq_type +:+ "_strand") strand frag).

(** The fragment built from the previous row in [_parse_qresult]. *)
Definition make_frag (prev_hid prev_qid : pyval) (prev : parsed) : result HSPFragment :=
  frag ← fill_frag (p_frag prev) (Obj.new_frag prev_hid prev_qid);
  foldlM (set_frame_strand (p_frag prev)) frag ["hit"; "query"].

(** [self.line and not self.line.startswith('#')] *)
Definition is_row (line : string) : bool :=
  (Str.nonempty line && negb (Str.startswith "#" line))%bool.

Definition _parse_qresult (fields : list string) (fuel : nat)
    (line : string) (h : handle) : run QueryResult * (string * handle) :=
  Assembler.parse_qresult is_row (_parse_result_row fields)
    (fun c => Ok (_get_id (p_qresult c)))
    (fun c => Ok (_get_id (p_hit c)))
    make_frag Str.strip fuel line h.

(** [for key, value in comments.items(): setattr(qresult, key, value)] *)
Definition annotate (comments : pydict) (q : QueryResult) : QueryResult :=
  mkQuery (qr_hits q) (Py.setattrs comments (qr_attrs q)).

(** [_parse_qresult_with_comments], [fuel] turns of its loop at most
    and as many of each inner loop. *)
Fixpoint _parse_qresult_with_comments (fuel : nat) (line : string) (h : handle)
    : run QueryResult :=
  match fuel with
  | O => Run [] Running
  | S fuel' =>
      match _parse_comments line h with
      | Raise e => Run [] (Raised e)
      | Ok (None, _) => Run [] Exhausted
      | Ok (Some comments, (line, h)) =>
          if Nat.eqb (size comments) 0 then Run [] Exhausted
          else
            match comments !! "fields" with
            | None =>
                yield_first (annotate comments (Obj.new_query (VStr "") []))
                  (_parse_qresult_with_comments fuel' line h)
            | Some (VList fields) =>
                let '(r, (line, h)) := _parse_qresult fields fuel line h in
                let out := annotate comments <$> yielded r in
                match stopped r with
                | Exhausted =>
                    yield_all out (_parse_qresult_with_comments fuel' line h)
                | o => Run out o
                end
            | Some _ => Run [] (Raised TypeError)
            end
      end
  end.

Definition __init__ (h : handle) (comments : bool) (fields : fields_arg) : result t :=
  fields ← _prep_fields fields;
  let '(l, h) := readline h in
  Ok (mkIter comments fields (Str.strip l) h).

Definition __iter__ (fuel : nat) (self : t) : run QueryResult :=
  if negb (Str.nonempty (line self)) then Run [] Exhausted
  else if has_comments self then
    _parse_qresult_with_comments fuel (line self) (rest self)
  else fst (_parse_qresult (fields self) fuel (line self) (rest self)).

(** [list(BlastTabIterator(handle, comments, fields))], with the
    exception that ended it if there was one. *)
Definition parse (fuel : nat) (h : handle) (comments : bool) (fields : fields_arg)
    : run QueryResult :=
  match __init__ h comments fields with
  | Raise e => Run [] (Raised e)
  | Ok self => __iter__ fuel self
  end.

End BlastTabIterator.

(** ** [HmmerDomtabIterator] *)

Module HmmerDomtabIterator.

(** [cols[i]], for [i] below the 23 columns that the decoder has
    made sure of. *)
Definition col (cols : list string) (i : nat) : result string := Str.item cols i.

Definition int_col (cols : list string) (i : nat) : result Z :=
  c ← col cols i; Num.int_of_str c.
Definition float_col (cols : list string) (i : nat) : result float :=
  c ← col cols i; Num.float_of_str c.

(** [filter(None, line.strip().split(' '))] *)
Definition tokens (line : string) : list string :=
  filter (fun c => Str.nonempty c = true) (Str.split " " (Str.strip line)).

(** The tokens, then the repair of the description column. *)
Definition columns (line : string) : result (list string) :=
  let cols := tokens line in
  if Nat.ltb 23 (length cols) then
    Ok (<[22%nat := Str.join " " (drop 22 cols)]> cols)
  else if Nat.ltb (length cols) 23 then
    let cols := cols ++ [""] in
    _ ← assert (Nat.eqb (length cols) 23);
    Ok cols
  else Ok cols.

Definition parse_result_row (hmm_as_hit : bool) (line : string) : result parsed :=
  _ ← assert (Str.nonempty line);
  cols ← columns line;
  q_id ← col cols 3;
  q_acc ← col cols 4;
  q_len ← int_col cols 5;
  let qresult : pydict :=
    <["seq_len" := VInt q_len]> (<["acc" := VStr q_acc]> (<["id" := VStr q_id]> ∅)) in
  h_id ← col cols 0;
  h_acc ← col cols 1;
  h_len ← int_col cols 2;
  h_evalue ← float_col cols 6;
  h_bitscore ← float_col cols 7;
  h_bias ← float_col cols 8;
  h_desc ← col cols 22;
  let hit : pydict :=
    <["description" := VStr h_desc]> (<["bias" := VFloat h_bias]>
    (<["bitscore" := VFloat h_bitscore]> (<["evalue" := VFloat h_evalue]>
    (<["seq_len" := VInt h_len]> (<["acc" := VStr h_acc]> (<["id" := VStr h_id]> ∅)))))) in
  domain_index ← int_col cols 9;
  evalue_cond ← float_col cols 11;
  evalue ← float_col cols 12;
  bitscore ← float_col cols 13;
  bias ← float_col cols 14;
  env_from ← int_col cols 19;
  env_to ← int_col cols 20;
  acc_avg ← float_col cols 21;
  let hsp : pydict :=
    <["acc_avg" := VFloat acc_avg]> (<["env_end" := VInt env_to]>
    (<["env_start" := VInt (env_from - 1)]> (<["bias" := VFloat bias]>
    (<["bitscore" := VFloat bitscore]> (<["evalue" := VFloat evalue]>
    (<["evalue_cond" := VFloat evalue_cond]>
    (<["domain_index" := VInt domain_index]> ∅))))))) in
  hmm_from ← int_col cols 15;
  hmm_to ← int_col cols 16;
  ali_from ← int_col cols 17;
  ali_to ← int_col cols 18;
  (* "strand is always 0, since HMMER now only handles protein" *)
  let strands : pydict := <["query_strand" := VInt 0]> (<["hit_strand" := VInt 0]> ∅) in
  let frag : pydict :=
    if hmm_as_hit then
      <["query_end" := VInt ali_to]> (<["query_start" := VInt (ali_from - 1)]>
      (<["hit_end" := VInt hmm_to]> (<["hit_start" := VInt (hmm_from - 1)]> strands)))
    else
      (* "switch hmm<-->ali coordinates if hmm is not hit" *)
      <["query_end" := VInt hmm_to]> (<["query_start" := VInt (hmm_from - 1)]>
      (<["hit_end" := VInt ali_to]> (<["hit_start" := VInt (ali_from - 1)]> strands))) in
  Ok (mkParsed qresult hit hsp frag).

(** [frag = HSPFragment(prev_hid, prev_qid)] and the [setattr] of
    every item of [prev['frag']]. *)
Definition make_frag (prev_hid prev_qid : pyval) (prev : parsed) : result HSPFragment :=
  Ok (mkFrag (Py.setattrs (p_frag prev) (frag_attrs (Obj.new_frag prev_hid prev_qid)))).

Definition parse_qresult (hmm_as_hit : bool) (fuel : nat) (line : string) (h : handle)
    : run QueryResult * (string * handle) :=
  Assembler.parse_qresult Str.nonempty (parse_result_row hmm_as_hit)
    (fun c => Py.getitem (p_qresult c) "id")
    (fun c => Py.getitem (p_hit c) "id")
    make_frag (fun l => l) fuel line h.

End HmmerDomtabIterator.

(** ** [BlastTabIndexer] *)

Module BlastTabIndexer.

(** [x in fields] and [fields.index(x)] on the argument as it was
    given: positions in a list, byte offsets in a string. *)
Definition position (x : string) (fields : fields_arg) : option nat :=
  match fields with
  | FieldsStr s => Str.find x s
  | FieldsList l => BlastTabIterator.index x l
  end.

(** The part of [__init__] that finds [self._key_idx] for a file
    without comments. *)
Definition key_index (fields : fields_arg) : result nat :=
  match position "qseqid" fields with
  | Some i => Ok i
  | None =>
      match position "qacc" fields with
      | Some i => Ok i
      | None =>
          match position "qaccver" fields with
          | Some i => Ok i
          | None => Raise ValueError
          end
      end
  end.

(** [line.split('\t')[key_idx]] *)
Definition key_of (key_idx : nat) (line : string) : result string :=
  Str.item (Str.split (String Str.tab "") line) key_idx.

(** The same inside [try: ... except IndexError: curr_key = ''] *)
Definition curr_key_of (key_idx : nat) (line : string) : string :=
  match key_of key_idx line with
  | Ok k => k
  | Raise _ => ""
  end.

Definition triple : Type := string * nat * nat.

(** The loop of [__iter__] for a file without comments.  [h] holds
    the lines from the one read in this turn on; [end_offset] is
    [handle.tell()] before it is read. *)
Fixpoint iter_plain (key_idx : nat) (qresult_key : option string)
    (start_offset end_offset : nat) (h : handle) : run triple :=
  let line := fst (readline h) in
  let turn : result (option triple * string * nat) :=
    match qresult_key with
    | None => k ← key_of key_idx line; Ok (None, k, start_offset)
    | Some qresult_key =>
        let curr_key := curr_key_of key_idx line in
        if negb (String.eqb curr_key qresult_key)
        then Ok (Some (qresult_key, start_offset, (end_offset - start_offset)%nat),
                 curr_key, end_offset)
        else Ok (None, qresult_key, start_offset)
    end in
  match turn with
  | Raise e => Run [] (Raised e)
  | Ok (out, key, start) =>
      let continue :=
        match h with
        | [] => Run [] Exhausted
        | l :: h' =>
            if Str.nonempty l
            then iter_plain key_idx (Some key) start (end_offset + Str.len l) h'
            else Run [] Exhausted
        end in
      match out with
      | Some t => yield_first t continue
      | None => continue
      end
  end.

Definition qid_mark : string := "# Query: ".

(** The loop of [__iter__] for a file with comments, after its first
    turn has set [query_mark]. *)
Fixpoint iter_comments (query_mark : string) (qresult_key : option string)
    (start_offset end_offset : nat) (h : handle) : run triple :=
  match h with
  | [] =>
      (* [line] is empty from here on *)
      if String.eqb "" query_mark then
        match qresult_key with
        | None => Run [] (Raised UnboundLocalError)
        | Some _ => Run [] Running
        end
      else Run [] Exhausted
  | line :: h' =>
      let next := (end_offset + Str.len line)%nat in
      if Str.startswith qid_mark line then
        match Str.item (Str.words (Str.drop (Str.len qid_mark) line)) 0 with
        | Ok k => iter_comments query_mark (Some k) start_offset next h'
        | Raise e => Run [] (Raised e)
        end
      else if (String.eqb line query_mark || Str.contains "BLAST processed" line)%bool then
        match qresult_key with
        | None => Run [] (Raised UnboundLocalError)
        | Some k =>
            yield_first (k, start_offset, (end_offset - start_offset)%nat)
              (iter_comments query_mark qresult_key end_offset next h')
        end
      else if negb (Str.nonempty line) then Run [] Exhausted
      else iter_comments query_mark qresult_key start_offset next h'
  end.

(** [__iter__] over the whole file, given [self._key_idx] for a file
    without comments. *)
Definition __iter__ (has_comments : bool) (key_idx : nat) (content : string)
    : run triple :=
  let h := lines_of content in
  if negb has_comments then iter_plain key_idx None 0 0 h
  else
    let '(line, h') := readline h in
    iter_comments line None 0 (Str.len line) h'.

(** The loop of [get_raw] for a file without comments. *)
Fixpoint raw_plain (key_idx : nat) (qresult_key : option string)
    (qresult_raw : string) (h : handle) : answer string :=
  let line := fst (readline h) in
  let turn : result (option string) :=        (* [None]: break *)
    match qresult_key with
    | None => k ← key_of key_idx line; Ok (Some k)
    | Some qresult_key =>
        if negb (String.eqb (curr_key_of key_idx line) qresult_key)
        then Ok None else Ok (Some qresult_key)
    end in
  match turn with
  | Raise e => Threw e
  | Ok None => Returned qresult_raw
  | Ok (Some key) =>
      match h with
      | [] => Diverged
      | l :: h' => raw_plain key_idx (Some key) (qresult_raw +:+ l) h'
      end
  end.

(** The loop of [get_raw] for a file with comments. *)
Fixpoint raw_comments (query_mark : option string) (qresult_raw : string)
    (h : handle) : answer string :=
  let line := fst (readline h) in
  let query_mark' := default line query_mark in
  if match query_mark with
     | None => false
     | Some m => String.eqb line m
     end
  then Returned qresult_raw
  else
    let qresult_raw := qresult_raw +:+ line in
    if Str.contains "BLAST processed" line then Returned qresult_raw
    else
      match h with
      | [] => if String.eqb query_mark' "" then Returned qresult_raw else Diverged
      | _ :: h' => raw_comments (Some query_mark') qresult_raw h'
      end.

(** [get_raw(offset)]: [handle.seek(offset)], then the scan. *)
Definition get_raw (has_comments : bool) (key_idx : nat) (content : string)
    (offset : nat) : answer string :=
  let h := lines_of (Str.drop offset content) in
  if negb has_comments then raw_plain key_idx None "" h
  else raw_comments None "" h.

End BlastTabIndexer.

(** ** [BlastTabWriter] *)

Module BlastTabWriter.

Import Catalog.

Definition coordinates : gset string := list_to_set ["qstart"; "qend"; "sstart"; "send"].

(** [adjust_coords]: "Adjusts start and end coordinates according to
    strand." *)
Definition adjust_coords (field : string) (value : pyval) (hsp : HSP) : result pyval :=
  _ ← assert (bool_decide (field ∈ ["qstart"; "qend"; "sstart"; "send"]));
  let seq_type := if Str.startswith "q" field then "query" else "hit" in
  let strand := Obj.hsp_get hsp (seq_type +:+ "_strand") in
  if Py.is_none strand then Raise ValueError
  else if Py.lt_int strand 0 then
    if Str.endswith "start" field then Obj.hsp_getattr hsp (seq_type +:+ "_end")
    else if Str.endswith "end" field then
      v ← Obj.hsp_getattr hsp (seq_type +:+ "_start"); Py.succ v
    else Ok value
  else if Str.endswith "start" field then Py.succ value
  else Ok value.

(** The [evalue] branch of [adjust_output]. *)
Definition format_evalue (value : pyval) : result string :=
  if Py.lt_float value 1.0e-180 then Ok "0.0"
  else if Py.lt_float value 1.0e-99 then Num.fmt_we 2 0 <$> Py.float_arg value
  else if Py.lt_float value 0.0009 then Num.fmt_we 3 0 <$> Py.float_arg value
  else if Py.lt_float value 0.1 then Num.fmt_wf 4 3 <$> Py.float_arg value
  else if Py.lt_float value 1.0 then Num.fmt_wf 3 2 <$> Py.float_arg value
  else if Py.lt_float value 10.0 then Num.fmt_wf 2 1 <$> Py.float_arg value
  else Num.fmt_wf 5 0 <$> Py.float_arg value.

(** The [bitscore] branch of [adjust_output]. *)
Definition format_bitscore (value : pyval) : result string :=
  if Py.gt_int value 9999 then Num.fmt_we 4 3 <$> Py.float_arg value
  else if Py.gt_float value 99.9 then Num.fmt_wd 4 <$> Py.int_arg value
  else Num.fmt_wf 4 1 <$> Py.float_arg value.

(** [adjust_output]: "Adjusts formatting of the given field and value
    to mimic native tab output." *)
Definition adjust_output (field : string) (value : pyval) : result string :=
  if String.eqb field "evalue" then format_evalue value
  else if bool_decide (field ∈ ["pident"; "ppos"]) then
    Num.fmt_wf 0 2 <$> Py.float_arg value
  else if String.eqb field "bitscore" then format_bitscore value
  else Py.str value.

(** The value of one column of a row, before any adjustment: [None]
    for the [continue] of an unsupported field. *)
Definition column_value (qresult : QueryResult) (hit : Hit) (hsp : HSP)
    (field : string) : result (option pyval) :=
  match _COLUMN_QRESULT !! field with
  | Some (attr, _) => Some <$> Py.getattr (qr_attrs qresult) attr
  | None =>
  match _COLUMN_HIT !! field with
  | Some (attr, _) => Some <$> Py.getattr (hit_attrs hit) attr
  | None =>
  if String.eqb field "frames" then
    qf ← Obj.hsp_getattr hsp "query_frame";
    hf ← Obj.hsp_getattr hsp "hit_frame";
    a ← Py.int_arg qf;
    b ← Py.int_arg hf;
    Ok (Some (VStr (Num.str_int a +:+ "/" +:+ Num.str_int b)))
  else
  match _COLUMN_HSP !! field with
  | Some (attr, _) => Some <$> Obj.hsp_getattr hsp attr
  | None =>
  match _COLUMN_FRAG !! field with
  | Some (attr, _) => Some <$> Obj.hsp_getattr hsp attr
  | None =>
      _ ← assert (bool_decide (field ∉ _SUPPORTED_FIELDS));
      Ok None
  end end end end.

(** The body of [for field in self.fields] in [build_rows]. *)
Definition add_column (qresult : QueryResult) (hit : Hit) (hsp : HSP)
    (line : list string) (field : string) : result (list string) :=
  v ← column_value qresult hit hsp field;
  match v with
  | None => Ok line
  | Some value =>
      value ← (if bool_decide (field ∈ coordinates)
               then adjust_coords field value hsp else Ok value);
      text ← adjust_output field value;
      Ok (line ++ [text])
  end.

Definition build_row (fields : list string) (qresult : QueryResult) (hit : Hit)
    (qresult_lines : string) (hsp : HSP) : result string :=
  line ← foldlM (add_column qresult hit hsp) [] fields;
  Ok (qresult_lines +:+ Str.join (String Str.tab "") line +:+ String Str.nl "").

(** [build_rows]: "Returns a string containing tabular rows of the
    QueryResult object." *)
Definition build_rows (fields : list string) (qresult : QueryResult) : result string :=
  foldlM (fun lines hit => foldlM (build_row fields qresult hit) lines (hit_hsps hit))
         "" (qr_hits qresult).

(** "inverse mapping of the long-short name map" *)
Definition inv_field_map : gmap string string :=
  list_to_map ((fun kv : string * string => (kv.2, kv.1)) <$> map_to_list _LONG_SHORT_MAP).

(** ['%s' % getattr(qres, k)] *)
Definition attr_text (qres : QueryResult) (k : string) : result string :=
  v ← Py.getattr (qr_attrs qres) k; Py.str v.

(** [qres.program.upper()] *)
Definition program_upper (qres : QueryResult) : result string :=
  v ← Py.getattr (qr_attrs qres) "program";
  match v with
  | VStr s => Ok (Str.upper s)
  | _ => Raise AttributeError
  end.

(** [try: a except AttributeError: b] *)
Definition or_else {A} (a b : result A) : result A :=
  match a with
  | Raise AttributeError => b
  | _ => a
  end.

(** [build_comments]: "Returns a string of a QueryResult tabular
    comment." *)
Definition build_comments (fields : list string) (qres : QueryResult) : result string :=
  program ← program_upper qres;
  program_line ←
    match qr_attrs qres !! "version" with
    | None => Ok ("# " +:+ program)
    | Some v => version ← Py.str v; Ok ("# " +:+ program +:+ " " +:+ version)
    end;
  query_line ←
    or_else (id ← attr_text qres "id";
             description ← attr_text qres "description";
             Ok ["# Query: " +:+ id +:+ " " +:+ description])
            (id ← attr_text qres "id"; Ok ["# Query: " +:+ id]);
  rid_line ←
    or_else (rid ← attr_text qres "rid"; Ok ["# RID: " +:+ rid]) (Ok []);
  target ← attr_text qres "target";
  fields_line ←
    (if Obj.truthy qres then
       names ← mapM (fun field =>
                       match inv_field_map !! field with
                       | Some long => Ok long
                       | None => Raise KeyError
                       end) fields;
       Ok ["# Fields: " +:+ Str.join ", " names]
     else Ok []);
  let hits_line :=
    "# " +:+ Num.str_int (Z.of_nat (length (qr_hits qres))) +:+ " hits found" in
  let comments :=
    [program_line] ++ query_line ++ rid_line ++ ["# Database: " +:+ target]
    ++ fields_line ++ [hits_line] in
  Ok (Str.join (String Str.nl "") comments +:+ String Str.nl "").

(** What [write_file] has in hand between two Queries: the bytes
    written so far and the three counters. *)
Record progress : Type := mkProgress {
  written : string;
  qresult_counter : nat;
  hit_counter : nat;
  hsp_counter : nat
}.

(** The body of [for qresult in qresults] in [write_file]. *)
Definition write_qresult (has_comments : bool) (fields : list string)
    (p : progress) (qresult : QueryResult) : result progress :=
  out ← (if has_comments
         then c ← build_comments fields qresult; Ok (written p +:+ c)
         else Ok (written p));
  p ← (if Obj.truthy qresult then
         rows ← build_rows fields qresult;
         Ok (mkProgress (out +:+ rows)
               (if negb has_comments then S (qresult_counter p) else qresult_counter p)
               (hit_counter p + length (qr_hits qresult))
               (hsp_counter p + sum_list ((fun hit => length (hit_hsps hit)) <$> qr_hits qresult)))
       else Ok (mkProgress out (qresult_counter p) (hit_counter p) (hsp_counter p)));
  (* "if it's commented and there are no hits in the qresult, we still
     increment the counter" *)
  Ok (if has_comments
      then mkProgress (written p) (S (qresult_counter p)) (hit_counter p) (hsp_counter p)
      else p).

(** [write_file]: the bytes written to the handle and the returned
    triple of counters. *)
Definition write_file (has_comments : bool) (fields : list string)
    (qresults : list QueryResult) : result (string * (nat * nat * nat)) :=
  p ← foldlM (write_qresult has_comments fields) (mkProgress "" 0 0 0) qresults;
  let out :=
    if has_comments
    then written p +:+ "# BLAST processed " +:+
         Num.str_int (Z.of_nat (qresult_counter p)) +:+ " queries"
    else written p in
  Ok (out, (qresult_counter p, hit_counter p, hsp_counter p)).

End BlastTabWriter.

(** * Properties *)

(** ** Field preparation *)

Section PrepFields.

Import BlastTabIterator Catalog.

(** Some column of [fields] is one of the [required] ones. *)
Definition has_column (required fields : list string) : Prop :=
  ∃ f, f ∈ fields ∧ f ∈ required.

Lemma lacks_spec (fields required : list string) :
  lacks fields (list_to_set required) = true ↔ ¬ has_column required fields.
Proof.
  unfold lacks, has_column. rewrite bool_decide_eq_true. split.
  - intros Hempty (f & Hf & Hr).
    assert (f ∈ (list_to_set fields ∩ list_to_set required : gset string)) as Hin
      by (apply elem_of_intersection; split; by apply elem_of_list_to_set).
    rewrite Hempty in Hin. by apply not_elem_of_empty in Hin.
  - intros Hnone. apply set_eq. intros f. split; [|set_solver].
    rewrite elem_of_intersection, !elem_of_list_to_set.
    intros [Hf Hr]. destruct Hnone. by exists f.
Qed.

Lemma lacks_false (fields required : list string) :
  lacks fields (list_to_set required) = false → has_column required fields.
Proof.
  unfold lacks, has_column. rewrite bool_decide_eq_false. intros Hne.
  apply set_choose_L in Hne as [f Hf].
  apply elem_of_intersection in Hf as [Hf Hr].
  exists f. by rewrite !elem_of_list_to_set in Hf, Hr.
Qed.

Lemma prep_fields_cases (arg : fields_arg) :
  let fields := expand_std (as_list arg) in
  (¬ has_column ["qseqid"; "qacc"; "qaccver"] fields
     ∨ ¬ has_column ["sseqid"; "sacc"; "saccver"] fields)
    ∧ _prep_fields arg = Raise ValueError
  ∨ (has_column ["qseqid"; "qacc"; "qaccver"] fields
     ∧ has_column ["sseqid"; "sacc"; "saccver"] fields)
    ∧ _prep_fields arg = Ok fields.
Proof.
  intros fields. unfold _prep_fields. fold fields.
  pose proof (lacks_spec fields ["qseqid"; "qacc"; "qaccver"]) as Hq.
  pose proof (lacks_spec fields ["sseqid"; "sacc"; "saccver"]) as Hh.
  change (list_to_set ["qseqid"; "qacc"; "qaccver"]) with _MIN_QUERY_FIELDS in Hq.
  change (list_to_set ["sseqid"; "sacc"; "saccver"]) with _MIN_HIT_FIELDS in Hh.
  destruct (lacks fields _MIN_QUERY_FIELDS) eqn:Eq; simpl.
  { left. split; [left; by apply Hq | done]. }
  destruct (lacks fields _MIN_HIT_FIELDS) eqn:Eh; simpl.
  { left. split; [right; by apply Hh | done]. }
  right. split; [|done]. split; by apply lacks_false.
Qed.

End PrepFields.

(** ** The writer's counters *)

Section WriteFile.

Import BlastTabWriter.

Variable fields : list string.







End WriteFile.


(** ** Raw retrieval from a file with comments *)

Section RawComments.

Import BlastTabIndexer.

(** The bytes of some lines, one after the other. *)
Definition bytes_of (ls : list string) : string := foldr String.append "" ls.

Lemma append_assoc (a b c : string) : (a +:+ b) +:+ c = a +:+ (b +:+ c).
Proof.
  induction a as [|x a IH]; [done|].
  change (String x ((a +:+ b) +:+ c) = String x (a +:+ b +:+ c)). by rewrite IH.
Qed.

Lemma append_nil_r (a : string) : a +:+ "" = a.
Proof.
  induction a as [|x a IH]; [done|].
  change (String x (a +:+ "") = String x a). by rewrite IH.
Qed.

(** The scan goes over lines that are neither the mark nor the
    summary, takes the summary line, and stops there. *)
Lemma raw_comments_scan (mark : string) (ls : list string) (p : string)
    (rest : handle) (raw : string) :
  Forall (fun l => l ≠ mark ∧ Str.contains "BLAST processed" l = false) ls →
  p ≠ mark →
  Str.contains "BLAST processed" p = true →
  raw_comments (Some mark) raw (ls ++ p :: rest) = Returned (raw +:+ bytes_of ls +:+ p).
Proof.
  intros Hls Hp Hproc. revert raw.
  induction Hls as [|l ls [Hl Hc] _ IH]; intros raw; simpl.
  - apply String.eqb_neq in Hp. rewrite Hp, Hproc. done.
  - apply String.eqb_neq in Hl. rewrite Hl, Hc. rewrite IH.
    by rewrite !append_assoc.
Qed.

End RawComments.

(** C10.  In a file with comments, [get_raw] at the offset where the
    last query block starts returns the lines of that block and, after
    them, the terminal '# BLAST processed ...' line: the scan appends a
    line before it tests it for the marker.  The block is the first line
    at the offset (the query mark), the lines after it up to the summary
    line, none of which repeats the mark or holds the marker. *)
Theorem get_raw_includes_processed_line (key_idx : nat) (content : string)
    (offset : nat) (mark : string) (block : list string) (summary : string)
    (rest : handle) :
  lines_of (Str.drop offset content) = mark :: block ++ summary :: rest →
  Str.contains "BLAST processed" mark = false →
  Forall (fun l => l ≠ mark ∧ Str.contains "BLAST processed" l = false) block →
  Str.contains "BLAST processed" summary = true →
  BlastTabIndexer.get_raw true key_idx content offset
  = Returned (mark +:+ bytes_of block +:+ summary).
Proof.
  intros Hlines Hmark Hblock Hsummary.
  unfold BlastTabIndexer.get_raw. rewrite Hlines. simpl.
  rewrite Hmark.
  assert (summary ≠ mark) as Hne by (intros ->; congruence).
  by rewrite (raw_comments_scan mark block summary rest _ Hblock Hne Hsummary).
Qed.

(** A file with two blocks, the first without hits. *)
Definition commented_sample : string :=
  "# BLASTP 2.2.26+
# Query: q0 some thing
# Database: db/minirefseq
# 0 hits found
# BLASTP 2.2.26+
# Query: q1
# Database: db/minirefseq
# Fields: query id, subject id, q. start, q. end
# 2 hits found
q1	h1	5	10
q1	h2	10	5
# BLAST processed 2 queries
".

Lemma get_raw_includes_processed_line_witness :
  BlastTabIndexer.get_raw true 0 commented_sample 81
  = Returned ("# BLASTP 2.2.26+
" +:+ bytes_of ["# Query: q1
"; "# Database: db/minirefseq
"; "# Fields: query id, subject id, q. start, q. end
"; "# 2 hits found
"; "q1	h1	5	10
"; "q1	h2	10	5
"] +:+ "# BLAST processed 2 queries
").
Proof.
  apply (get_raw_includes_processed_line 0 commented_sample 81 _ _ _ []).
  - reflexivity.
  - reflexivity.
  - repeat constructor; discriminate.
  - reflexivity.
Defined.

(** The index gives the last block of the sample 141 bytes from offset
    81; [get_raw] returns those and the 28 bytes of the summary line. *)
Example index_and_raw_of_last_block :
  BlastTabIndexer.__iter__ true 0 commented_sample
  = Run [("q0", 0, 81); ("q1", 81, 141)]%nat Exhausted
  ∧ (match BlastTabIndexer.get_raw true 0 commented_sample 81 with
     | Returned raw => Str.len raw
     | _ => 0%nat
     end) = (141 + 28)%nat.
Proof. split; reflexivity. Qed.

(** ** Column counts *)

Section ColumnCount.

Import Assembler.

(** A row that the decoder refuses stops the assembler: nothing is
    yielded in that turn, and the exception ends the generator. *)
Lemma loop_raises is_row parse_row row_qid row_hid make_frag next_line
    (fuel : nat) (st : state) (line : string) (h : handle) (e : exn) :
  is_row line = true →
  parse_row line = Raise e →
  loop is_row parse_row row_qid row_hid make_frag next_line (S fuel) st line h
  = (Run [] (Raised e), (line, h)).
Proof.
  intros Hrow Hparse. simpl. unfold iteration, advance.
  by rewrite Hrow, Hparse.
Qed.

Lemma blast_count_mismatch (fields : list string) (line : string) :
  length fields ≠ length (Str.split (String Str.tab "") (Str.strip line)) →
  BlastTabIterator._parse_result_row fields line = Raise AssertionError.
Proof.
  intros Hne. unfold BlastTabIterator._parse_result_row.
  apply Nat.eqb_neq in Hne. by rewrite Hne.
Qed.

Lemma hmmer_columns_cases (line : string) :
  let n := length (HmmerDomtabIterator.tokens line) in
  ((n < 22)%nat ∧ HmmerDomtabIterator.columns line = Raise AssertionError)
  ∨ (n = 22%nat
     ∧ HmmerDomtabIterator.columns line = Ok (HmmerDomtabIterator.tokens line ++ [""]))
  ∨ (n = 23%nat ∧ HmmerDomtabIterator.columns line = Ok (HmmerDomtabIterator.tokens line))
  ∨ ((23 < n)%nat
     ∧ HmmerDomtabIterator.columns line
       = Ok (<[22%nat := Str.join " " (drop 22 (HmmerDomtabIterator.tokens line))]>
               (HmmerDomtabIterator.tokens line))).
Proof.
  intros n. unfold HmmerDomtabIterator.columns. fold n.
  destruct (Nat.ltb_spec 23 n) as [Hgt|Hle]; [by right; right; right|].
  destruct (Nat.ltb_spec n 23) as [Hlt|Hge].
  - rewrite length_app. fold n. simpl.
    destruct (Nat.eqb_spec (n + 1) 23) as [Heq|Hne]; simpl.
    + right; left. split; [lia|done].
    + left. split; [lia|done].
  - right; right; left. split; [lia|done].
Qed.

End ColumnCount.

(** A row of the HMMER domain table with 22 tokens: the description of
    the target is missing. *)
Definition domtab_row_22 : string :=
  "PF1  PF00001.1  100 query1  -  300  1e-20  70.5  0.1  2  2  1e-10  1e-9  35.2  0.0  1  50  10  60  5  65  0.95
".

(** ** White space at the ends of a row *)

Section EndsOfRows.

#[local] Arguments String.append : simpl nomatch.

(** Nothing but white space: spaces, tabs, newlines and the like. *)
Fixpoint all_space (s : string) : bool :=
  match s with
  | EmptyString => true
  | String c s' => Str.isspace c && all_space s'
  end.

Lemma lstrip_space (a s : string) :
  all_space a = true → Str.lstrip (a +:+ s) = Str.lstrip s.
Proof.
  induction a as [|c a IH]; [done|]. cbn [all_space]. intros [Hc Ha]%andb_prop.
  change (String c a +:+ s) with (String c (a +:+ s)). cbn [Str.lstrip].
  rewrite Hc. by apply IH.
Qed.

Lemma rstrip_aux_space (b : string) : all_space b = true → Str.rstrip_aux b = None.
Proof.
  induction b as [|c b IH]; [done|]. cbn [all_space]. intros [Hc Hb]%andb_prop.
  cbn [Str.rstrip_aux]. by rewrite (IH Hb), Hc.
Qed.

Lemma rstrip_aux_app (s b : string) :
  all_space b = true → Str.rstrip_aux (s +:+ b) = Str.rstrip_aux s.
Proof.
  intros Hb. induction s as [|c s IH].
  - change ("" +:+ b) with b. by rewrite rstrip_aux_space.
  - change (String c s +:+ b) with (String c (s +:+ b)). cbn [Str.rstrip_aux].
    by rewrite IH.
Qed.

(** [strip] takes the white space off both ends of a line. *)
Lemma strip_ends (a s b : string) :
  all_space a = true → all_space b = true →
  Str.strip (a +:+ s +:+ b) = Str.strip s.
Proof.
  intros Ha Hb. unfold Str.strip. rewrite (lstrip_space _ _ Ha).
  induction s as [|c s IH].
  - change ("" +:+ b) with b.
    assert (Str.lstrip b = "") as ->; [|done].
    clear -Hb. induction b as [|c b IH]; [done|]. cbn [all_space] in Hb.
    apply andb_prop in Hb as [Hc Hb]. cbn [Str.lstrip]. rewrite Hc. by apply IH.
  - change (String c s +:+ b) with (String c (s +:+ b)). cbn [Str.lstrip].
    destruct (Str.isspace c); [exact IH|].
    unfold Str.rstrip.
    change (String c (s +:+ b)) with (String c s +:+ b). by rewrite rstrip_aux_app.
Qed.

End EndsOfRows.

(** A row of the default columns with a tab at its end: thirteen
    columns between its tabs, the last one empty. *)
Definition tab_ended_row : string :=
  "q1	h1	90.5	100	3	1	5	104	200	101	1e-50	180.5	
".

(** C7 as stated fails for both decoders.  The BLAST decoder takes a
    physical row of thirteen tab-separated columns for the twelve
    default fields: the tab at its end goes with the white space that
    is stripped before the columns are counted.  The HMMER decoder
    takes a row of 22 tokens, one short of the 23 columns, and gives it
    an empty description. *)
Lemma rows_decoded_despite_their_count :
  (length (Str.split (String Str.tab "") tab_ended_row) = 13%nat
   ∧ length Catalog._DEFAULT_FIELDS = 12%nat
   ∧ ∃ p, BlastTabIterator._parse_result_row Catalog._DEFAULT_FIELDS tab_ended_row = Ok p)
  ∧ (length (HmmerDomtabIterator.tokens domtab_row_22) = 22%nat
     ∧ ∃ p, HmmerDomtabIterator.parse_result_row true domtab_row_22 = Ok p
            ∧ p_hit p !! "description" = Some (VStr "")).
Proof.
  split.
  - split; [by vm_compute|]. split; [done|]. eexists. by vm_compute.
  - split; [reflexivity|].
    eexists. split; [vm_compute; reflexivity|]. reflexivity.
Qed.

(** C7, amended.  The BLAST decoder counts the tab-separated columns of
    the row after the white space at both ends of its line, tabs too,
    is stripped: a row is decoded as the row without that white space
    is.  It raises AssertionError on every row for which that count
    differs from the number of fields, and this ends the enclosing
    parse at that row.  The HMMER decoder raises AssertionError on
    every row of fewer than 22 tokens, and this ends the enclosing parse
    too; a row of 22 tokens is completed with an empty description and
    a row of more than 23 tokens has its tokens from the 23rd on joined
    into the description, and neither is refused for its token count. *)
Theorem column_count_mismatch (line : string) :
  (∀ fields : list string,
      length fields ≠ length (Str.split (String Str.tab "") (Str.strip line)) →
      BlastTabIterator._parse_result_row fields line = Raise AssertionError
      ∧ ∀ fuel st h,
          BlastTabIterator.is_row line = true →
          Assembler.loop BlastTabIterator.is_row
            (BlastTabIterator._parse_result_row fields)
            (fun c => Ok (BlastTabIterator._get_id (p_qresult c)))
            (fun c => Ok (BlastTabIterator._get_id (p_hit c)))
            BlastTabIterator.make_frag Str.strip (S fuel) st line h
          = (Run [] (Raised AssertionError), (line, h)))
  ∧ (∀ (fields : list string) (before after : string),
      all_space before = true → all_space after = true →
      BlastTabIterator._parse_result_row fields (before +:+ line +:+ after)
      = BlastTabIterator._parse_result_row fields line)
  ∧ (∀ hmm_as_hit : bool,
      (length (HmmerDomtabIterator.tokens line) < 22)%nat →
      HmmerDomtabIterator.parse_result_row hmm_as_hit line = Raise AssertionError
      ∧ ∀ fuel st h,
          Str.nonempty line = true →
          Assembler.loop Str.nonempty
            (HmmerDomtabIterator.parse_result_row hmm_as_hit)
            (fun c => Py.getitem (p_qresult c) "id")
            (fun c => Py.getitem (p_hit c) "id")
            HmmerDomtabIterator.make_frag (fun l => l) (S fuel) st line h
          = (Run [] (Raised AssertionError), (line, h)))
  ∧ (length (HmmerDomtabIterator.tokens line) = 22%nat →
      HmmerDomtabIterator.columns line = Ok (HmmerDomtabIterator.tokens line ++ [""]))
  ∧ ((23 < length (HmmerDomtabIterator.tokens line))%nat →
      HmmerDomtabIterator.columns line
      = Ok (<[22%nat := Str.join " " (drop 22 (HmmerDomtabIterator.tokens line))]>
              (HmmerDomtabIterator.tokens line))).
Proof.
  assert (∀ hmm_as_hit, (length (HmmerDomtabIterator.tokens line) < 22)%nat →
            HmmerDomtabIterator.parse_result_row hmm_as_hit line = Raise AssertionError)
    as Hshort.
  { intros hmm_as_hit Hn. unfold HmmerDomtabIterator.parse_result_row.
    destruct (Str.nonempty line); [|done]. simpl.
    destruct (hmmer_columns_cases line) as [[_ ->]|[[? _]|[[? _]|[? _]]]];
      [done|lia..]. }
  split_and!.
  - intros fields Hne. split; [by apply blast_count_mismatch|].
    intros fuel st h Hrow. apply loop_raises; [done|by apply blast_count_mismatch].
  - intros fields before after Hb Ha. unfold BlastTabIterator._parse_result_row.
    by rewrite (strip_ends _ _ _ Hb Ha).
  - intros hmm_as_hit Hn. split; [by apply Hshort|].
    intros fuel st h Hrow. apply loop_raises; [done|by apply Hshort].
  - intros Hn.
    destruct (hmmer_columns_cases line) as [[? _]|[[_ ->]|[[? _]|[? _]]]];
      [lia|done|lia..].
  - intros Hn.
    destruct (hmmer_columns_cases line) as [[? _]|[[? _]|[[? _]|[_ ->]]]];
      [lia..|done].
Qed.

(** ** Decoded rows and their fragments *)

Section Fragments.

Import BlastTabIterator Catalog.

#[local] Arguments String.append : simpl nomatch.

Lemma foldlM_inv {A B} (P : B → Prop) (f : B → A → result B) (l : list A) (b b' : B) :
  (∀ b a b', P b → f b a = Ok b' → P b') →
  P b → foldlM f b l = Ok b' → P b'.
Proof.
  intros Hstep. revert b. induction l as [|a l IH]; intros b Hb; simpl.
  - by intros [= <-].
  - destruct (f b a) as [b1|e] eqn:E; simpl; [|done]. eauto.
Qed.

#[local] Instance target_eq_dec : EqDecision target.
Proof. solve_decision. Defined.

Definition dict_of (t : target) (p : parsed) : pydict :=
  match t with
  | t_qresult => p_qresult p
  | t_hit => p_hit p
  | t_hsp => p_hsp p
  | t_frag => p_frag p
  end.

(** Every key of a decoded dictionary is an attribute name of its
    column table. *)
Definition keys_from_catalog (p : parsed) : Prop :=
  ∀ t k, is_Some (dict_of t p !! k) → ∃ sname c, mapping_of t !! sname = Some (k, c).

Lemma keys_store (t : target) (sname attr : string) (c : caster) (v : pyval) (p : parsed) :
  mapping_of t !! sname = Some (attr, c) →
  keys_from_catalog p → keys_from_catalog (store t attr v p).
Proof.
  intros Hm Hp t' k Hk.
  destruct (decide (t' = t ∧ k = attr)) as [[-> ->]|Hne]; [by eauto|].
  apply Hp. destruct t, t'; simpl in *; try done;
    (rewrite lookup_insert_ne in Hk; [done|]; intros ->; by apply Hne).
Qed.

Lemma keys_try_mapping (sname : string) (acc acc' : pyval * parsed * bool) (t : target) :
  keys_from_catalog acc.1.2 → try_mapping sname acc t = Ok acc' →
  keys_from_catalog acc'.1.2.
Proof.
  destruct acc as [[v0 p0] i0], acc' as [[v2 p2] i2]. unfold try_mapping.
  cbn [fst snd]. intros H0.
  destruct (mapping_of t !! sname) as [[attr c]|] eqn:Em; [|by intros [= _ <- _]].
  destruct (Catalog.cast c v0) as [v3|]; cbn [mbind result_bind]; [|done].
  intros [= _ <- _]. by eapply keys_store.
Qed.

Lemma keys_parse_column (p p' : parsed) (col : string * string) :
  keys_from_catalog p → parse_column p col = Ok p' → keys_from_catalog p'.
Proof.
  intros Hp. destruct col as [sname v]. unfold parse_column.
  generalize (keys_try_mapping sname).
  generalize (try_mapping sname). intros step Hstep.
  destruct (foldlM step (VStr v, p, false) [t_qresult; t_hit; t_hsp; t_frag])
    as [[[v' p1] inm]|e] eqn:E; cbn [mbind result_bind]; [|done].
  assert (keys_from_catalog p1) as Hp1.
  { refine (foldlM_inv (fun acc => keys_from_catalog acc.1.2) _ _
              (VStr v, p, false) (v', p1, inm) _ Hp E).
    intros acc t acc'. apply Hstep. }
  destruct inm.
  - by intros [= <-].
  - generalize (assert (bool_decide (sname ∉ _SUPPORTED_FIELDS))).
    intros [[]|e]; cbn [mbind result_bind]; [by intros [= <-]|done].
Qed.

Lemma keys_empty : keys_from_catalog (mkParsed ∅ ∅ ∅ ∅).
Proof. intros t k [v Hv]. destruct t; simpl in Hv; by rewrite lookup_empty in Hv. Qed.

Lemma decoded_keys (fields : list string) (line : string) (p : parsed) :
  _parse_result_row fields line = Ok p → keys_from_catalog p.
Proof.
  unfold _parse_result_row. destruct (assert _); simpl; [|done].
  apply foldlM_inv; [|apply keys_empty]. intros ???. apply keys_parse_column.
Qed.

(** The attribute names of a column table. *)
Definition attr_names (m : gmap string (string * caster)) : list string :=
  (fun kv : string * (string * caster) => kv.2.1) <$> map_to_list m.

Lemma attr_names_spec (m : gmap string (string * caster)) (sname k : string) (c : caster) :
  m !! sname = Some (k, c) → k ∈ attr_names m.
Proof.
  intros H. unfold attr_names. apply list_elem_of_fmap.
  exists (sname, (k, c)). split; [done|]. by apply elem_of_map_to_list.
Qed.

(** No column of the BLAST tables is a strand, and the coordinates are
    columns of the fragment table only. *)
Lemma decoded_absent (fields : list string) (line : string) (p : parsed) :
  _parse_result_row fields line = Ok p →
  p_frag p !! "query_strand" = None ∧ p_frag p !! "hit_strand" = None
  ∧ ∀ k, k ∈ ["query_start"; "query_end"; "query_strand";
              "hit_start"; "hit_end"; "hit_strand"] → p_hsp p !! k = None.
Proof.
  intros Hp. apply decoded_keys in Hp.
  assert (∀ t k, k ∉ attr_names (mapping_of t) → dict_of t p !! k = None) as Hno.
  { intros t k Hk. apply eq_None_not_Some. intros Hs.
    apply Hp in Hs as (sname & c & Hm). by apply attr_names_spec in Hm. }
  split_and!.
  - apply (Hno t_frag). by apply (bool_decide_unpack _); vm_compute.
  - apply (Hno t_frag). by apply (bool_decide_unpack _); vm_compute.
  - intros k Hk. apply (Hno t_hsp). intros Hin.
    assert (Forall (fun a => a ∉ ["query_start"; "query_end"; "query_strand";
              "hit_start"; "hit_end"; "hit_strand"]) (attr_names (mapping_of t_hsp))) as Hall
      by (by apply (bool_decide_unpack _); vm_compute).
    rewrite Forall_forall in Hall. by apply Hall in Hin.
Qed.

(** What [fill_frag] leaves under each key. *)
Lemma fill_frag_lookup (pf : pydict) (frag0 frag : HSPFragment) :
  fill_frag pf frag0 = Ok frag →
  ∀ k, (pf !! k = None → frag_attrs frag !! k = frag_attrs frag0 !! k)
       ∧ (∀ v, pf !! k = Some v →
            ∃ v', adjust pf k v = Ok v' ∧ frag_attrs frag !! k = Some v').
Proof.
  unfold fill_frag. revert frag.
  apply (map_fold_weak_ind
           (fun (r : result HSPFragment) (m : pydict) => ∀ frag, r = Ok frag →
              ∀ k, (m !! k = None → frag_attrs frag !! k = frag_attrs frag0 !! k)
                   ∧ (∀ v, m !! k = Some v →
                        ∃ v', adjust pf k v = Ok v' ∧ frag_attrs frag !! k = Some v'))).
  - intros frag [= <-] k. split; [done|]. intros v. by rewrite lookup_empty.
  - intros i x m r Hi IH frag. unfold set_adjusted.
    destruct r as [fr|e]; simpl; [|done].
    destruct (adjust pf i x) as [v'|e] eqn:Ea; simpl; [|done].
    intros [= <-] k. specialize (IH fr eq_refl k) as [IHn IHs]. simpl.
    destruct (decide (i = k)) as [->|Hne].
    + rewrite !lookup_insert_eq. split; [done|]. intros v [= <-]. eauto.
    + rewrite !lookup_insert_ne by done. split; [done|]. apply IHs.
Qed.

Definition seq_name (query : bool) : string := if query then "query" else "hit".

Lemma adjust_start (pf : pydict) (query : bool) (s e : Z) :
  pf !! (seq_name query +:+ "_end") = Some (VInt e) →
  adjust pf (seq_name query +:+ "_start") (VInt s) = Ok (VInt (Z.min s e - 1)).
Proof.
  destruct query; simpl; intros H; unfold adjust, adjust_for, Py.getitem; simpl;
    by rewrite H.
Qed.

Lemma adjust_end (pf : pydict) (query : bool) (s e : Z) :
  pf !! (seq_name query +:+ "_start") = Some (VInt s) →
  adjust pf (seq_name query +:+ "_end") (VInt e) = Ok (VInt (Z.max e s)).
Proof.
  destruct query; simpl; intros H; unfold adjust, adjust_for, Py.getitem; simpl;
    by rewrite H.
Qed.

(** The strand read off the raw coordinates alone. *)
Definition derived_strand (pf : pydict) (query : bool) : result pyval :=
  _get_frag_strand (mkFrag ∅) (seq_name query) pf.

Lemma get_frag_strand_unset (frag : HSPFragment) (query : bool) (pf : pydict) :
  Obj.frag_get frag (seq_name query +:+ "_strand") = VNone →
  _get_frag_strand frag (seq_name query) pf = derived_strand pf query.
Proof.
  intros H. unfold derived_strand, _get_frag_strand. rewrite H.
  unfold Obj.frag_get, Py.get. simpl. by rewrite lookup_empty.
Qed.

Lemma derived_strand_cases (pf : pydict) (query : bool) (v : pyval) :
  derived_strand pf query = Ok v →
  (v = VNone ∧ (Py.get pf (seq_name query +:+ "_start") = VNone
                ∨ Py.get pf (seq_name query +:+ "_end") = VNone))
  ∨ (∃ s e, pf !! (seq_name query +:+ "_start") = Some (VInt s)
            ∧ pf !! (seq_name query +:+ "_end") = Some (VInt e)
            ∧ v = VInt (if s <=? e then 1 else -1)).
Proof.
  unfold derived_strand, _get_frag_strand, Obj.frag_get, Py.get. simpl.
  rewrite lookup_empty. simpl.
  destruct (pf !! (seq_name query +:+ "_start")) as [[|s| | |]|] eqn:Es; simpl;
    try (intros [= <-]; left; by auto); try done;
  destruct (pf !! (seq_name query +:+ "_end")) as [[|e| | |]|] eqn:Ee; simpl;
    try (intros [= <-]; left; by auto); try done.
  intros [= <-]. right. by exists s, e.
Qed.

(** The attributes of the fragment built from a row that has no strand
    of its own. *)
Lemma make_frag_attrs (hid qid : pyval) (prev : parsed) (frag : HSPFragment) :
  p_frag prev !! "query_strand" = None →
  p_frag prev !! "hit_strand" = None →
  make_frag hid qid prev = Ok frag →
  ∃ frag1 fh sh fq sq,
    fill_frag (p_frag prev) (Obj.new_frag hid qid) = Ok frag1
    ∧ derived_strand (p_frag prev) false = Ok sh
    ∧ derived_strand (p_frag prev) true = Ok sq
    ∧ frag_attrs frag
      = <["query_strand" := sq]> (<["query_frame" := fq]>
          (<["hit_strand" := sh]> (<["hit_frame" := fh]> (frag_attrs frag1)))).
Proof.
  intros Hq Hh. unfold make_frag.
  destruct (fill_frag _ _) as [frag1|e] eqn:Ef; simpl; [|done].
  pose proof (fill_frag_lookup _ _ _ Ef) as Hl.
  unfold set_frame_strand.
  destruct (_get_frag_frame frag1 "hit" _) as [fh|e]; simpl; [|done].
  rewrite (get_frag_strand_unset _ false).
  2:{ unfold Obj.frag_get, Obj.frag_set, Py.get. simpl.
      rewrite lookup_insert_ne by done.
      destruct (Hl "hit_strand") as [-> _]; [done|]. done. }
  destruct (derived_strand _ false) as [sh|e] eqn:Esh; simpl; [|done].
  destruct (_get_frag_frame _ "query" _) as [fq|e]; simpl; [|done].
  rewrite (get_frag_strand_unset _ true).
  2:{ unfold Obj.frag_get, Obj.frag_set, Py.get. simpl.
      rewrite !lookup_insert_ne by done.
      destruct (Hl "query_strand") as [-> _]; [done|]. done. }
  destruct (derived_strand _ true) as [sq|e] eqn:Esq; simpl; [|done].
  intros [= <-]. by exists frag1, fh, sh, fq, sq.
Qed.

End Fragments.

(** ** Coordinates, stored and written back *)

Section Coordinates.

Import BlastTabIterator BlastTabWriter.

#[local] Arguments String.append : simpl nomatch.

Definition start_field (query : bool) : string := if query then "qstart" else "sstart".
Definition end_field (query : bool) : string := if query then "qend" else "send".

Lemma hsp_getattr_frag (frag : HSPFragment) (attrs : pydict) (k : string) :
  attrs !! k = None →
  Obj.hsp_getattr (mkHSP [frag] attrs) k = Py.getattr (frag_attrs frag) k.
Proof. intros H. unfold Obj.hsp_getattr. simpl. by rewrite H. Qed.

(** What [adjust_coords] writes for a stored pair, by the stored
    strand alone. *)
Lemma adjust_coords_rule (hsp : HSP) (query : bool) (strand stored_start stored_end : Z) :
  Obj.hsp_getattr hsp (seq_name query +:+ "_strand") = Ok (VInt strand) →
  Obj.hsp_getattr hsp (seq_name query +:+ "_start") = Ok (VInt stored_start) →
  Obj.hsp_getattr hsp (seq_name query +:+ "_end") = Ok (VInt stored_end) →
  adjust_coords (start_field query) (VInt stored_start) hsp
  = Ok (VInt (if strand <? 0 then stored_end else stored_start + 1))
  ∧ adjust_coords (end_field query) (VInt stored_end) hsp
    = Ok (VInt (if strand <? 0 then stored_start + 1 else stored_end)).
Proof.
  intros Hs Hst Hen. unfold adjust_coords, Obj.hsp_get.
  destruct query; simpl in *; rewrite Hs; simpl;
    destruct (strand <? 0); simpl; rewrite ?Hst, ?Hen; done.
Qed.

(** The stored pair and strand of the fragment built from a decoded row. *)
Lemma stored_coordinates (fields : list string) (line : string) (prev : parsed)
    (hid qid : pyval) (frag : HSPFragment) (query : bool) (raw_start raw_end : Z) :
  _parse_result_row fields line = Ok prev →
  p_frag prev !! (seq_name query +:+ "_start") = Some (VInt raw_start) →
  p_frag prev !! (seq_name query +:+ "_end") = Some (VInt raw_end) →
  make_frag hid qid prev = Ok frag →
  frag_attrs frag !! (seq_name query +:+ "_start") = Some (VInt (Z.min raw_start raw_end - 1))
  ∧ frag_attrs frag !! (seq_name query +:+ "_end") = Some (VInt (Z.max raw_start raw_end))
  ∧ frag_attrs frag !! (seq_name query +:+ "_strand")
    = Some (VInt (if raw_start <=? raw_end then 1 else -1)).
Proof.
  intros Hrow Hs He Hfrag.
  destruct (decoded_absent _ _ _ Hrow) as (Hqs & Hhs & _).
  destruct (make_frag_attrs _ _ _ _ Hqs Hhs Hfrag)
    as (frag1 & fh & sh & fq & sq & Hfill & Hsh & Hsq & ->).
  pose proof (fill_frag_lookup _ _ _ Hfill) as Hl.
  destruct (Hl (seq_name query +:+ "_start")) as [_ Hstart].
  destruct (Hl (seq_name query +:+ "_end")) as [_ Hend].
  destruct (Hstart _ Hs) as (v1 & Ha1 & Hv1).
  destruct (Hend _ He) as (v2 & Ha2 & Hv2).
  rewrite (adjust_start _ _ _ _ He) in Ha1. injection Ha1 as <-.
  rewrite (adjust_end _ _ _ _ Hs) in Ha2. injection Ha2 as <-.
  rewrite (Z.max_comm raw_end raw_start) in Hv2.
  assert (derived_strand (p_frag prev) query
          = Ok (VInt (if raw_start <=? raw_end then 1 else -1))) as Hd.
  { destruct (derived_strand (p_frag prev) query) as [v|e] eqn:Ed.
    - destruct (derived_strand_cases _ _ _ Ed) as [[_ [Hn|Hn]]|(s & e & Hs' & He' & ->)].
      + unfold Py.get in Hn. by rewrite Hs in Hn.
      + unfold Py.get in Hn. by rewrite He in Hn.
      + rewrite Hs in Hs'. rewrite He in He'. by injection Hs' as <-; injection He' as <-.
    - destruct query; [by rewrite Hsq in Ed|by rewrite Hsh in Ed]. }
  destruct query; simpl in *.
  - rewrite Hsq in Hd. injection Hd as ->.
    split_and!; by repeat (rewrite lookup_insert_eq || rewrite lookup_insert_ne by done).
  - rewrite Hsh in Hd. injection Hd as ->.
    split_and!; by repeat (rewrite lookup_insert_eq || rewrite lookup_insert_ne by done).
Qed.

End Coordinates.

(** The value that the writer starts from in a coordinate column. *)
Lemma column_value_coordinate (qresult : QueryResult) (hit : Hit) (hsp : HSP)
    (query : bool) :
  BlastTabWriter.column_value qresult hit hsp (start_field query)
  = Some <$> Obj.hsp_getattr hsp (String.append (seq_name query) "_start")
  ∧ BlastTabWriter.column_value qresult hit hsp (end_field query)
    = Some <$> Obj.hsp_getattr hsp (String.append (seq_name query) "_end").
Proof.
  unfold BlastTabWriter.column_value.
  destruct query; cbn [start_field end_field seq_name].
  - replace (Catalog._COLUMN_QRESULT !! "qstart") with (@None (string * caster)) by (by vm_compute).
    replace (Catalog._COLUMN_HIT !! "qstart") with (@None (string * caster)) by (by vm_compute).
    replace (Catalog._COLUMN_HSP !! "qstart") with (@None (string * caster)) by (by vm_compute).
    replace (Catalog._COLUMN_FRAG !! "qstart") with (Some ("query_start", to_int)) by (by vm_compute).
    replace (Catalog._COLUMN_QRESULT !! "qend") with (@None (string * caster)) by (by vm_compute).
    replace (Catalog._COLUMN_HIT !! "qend") with (@None (string * caster)) by (by vm_compute).
    replace (Catalog._COLUMN_HSP !! "qend") with (@None (string * caster)) by (by vm_compute).
    replace (Catalog._COLUMN_FRAG !! "qend") with (Some ("query_end", to_int)) by (by vm_compute).
    done.
  - replace (Catalog._COLUMN_QRESULT !! "sstart") with (@None (string * caster)) by (by vm_compute).
    replace (Catalog._COLUMN_HIT !! "sstart") with (@None (string * caster)) by (by vm_compute).
    replace (Catalog._COLUMN_HSP !! "sstart") with (@None (string * caster)) by (by vm_compute).
    replace (Catalog._COLUMN_FRAG !! "sstart") with (Some ("hit_start", to_int)) by (by vm_compute).
    replace (Catalog._COLUMN_QRESULT !! "send") with (@None (string * caster)) by (by vm_compute).
    replace (Catalog._COLUMN_HIT !! "send") with (@None (string * caster)) by (by vm_compute).
    replace (Catalog._COLUMN_HSP !! "send") with (@None (string * caster)) by (by vm_compute).
    replace (Catalog._COLUMN_FRAG !! "send") with (Some ("hit_end", to_int)) by (by vm_compute).
    done.
Qed.

(** A row of the default columns whose hit coordinates run backwards. *)
Definition reverse_row : string :=
  "q1	h1	90.5	100	3	1	5	104	200	101	1e-50	180.5
".

(** C2.  For a raw pair (raw_start, raw_end) of the query or of the hit
    in a decoded row, the fragment stores min - 1 as start and max as
    end, so stored start <= stored end, and the strand +1 or -1 by the
    order of the raw pair.  [adjust_coords] goes by the stored strand
    alone: below zero it writes the stored end for the start column and
    the stored start + 1 for the end column, otherwise the stored
    start + 1 and the stored end.  On the HSP that the parser builds
    from the row this gives back the raw start and the raw end, which are
    what the writer puts in the two columns. *)
Theorem coordinates_round_trip (fields : list string) (line : string) (prev : parsed)
    (hid qid : pyval) (frag : HSPFragment) (query : bool) (raw_start raw_end : Z) :
  BlastTabIterator._parse_result_row fields line = Ok prev →
  p_frag prev !! (seq_name query +:+ "_start") = Some (VInt raw_start) →
  p_frag prev !! (seq_name query +:+ "_end") = Some (VInt raw_end) →
  BlastTabIterator.make_frag hid qid prev = Ok frag →
  let hsp := mkHSP [frag] (Py.setattrs (p_hsp prev) ∅) in
  let stored_start := Z.min raw_start raw_end - 1 in
  let stored_end := Z.max raw_start raw_end in
  frag_attrs frag !! (seq_name query +:+ "_start") = Some (VInt stored_start)
  ∧ frag_attrs frag !! (seq_name query +:+ "_end") = Some (VInt stored_end)
  ∧ stored_start ≤ stored_end
  ∧ Obj.hsp_getattr hsp (seq_name query +:+ "_strand")
    = Ok (VInt (if raw_start <=? raw_end then 1 else -1))
  ∧ (∀ (h : HSP) (strand s e : Z),
       Obj.hsp_getattr h (seq_name query +:+ "_strand") = Ok (VInt strand) →
       Obj.hsp_getattr h (seq_name query +:+ "_start") = Ok (VInt s) →
       Obj.hsp_getattr h (seq_name query +:+ "_end") = Ok (VInt e) →
       BlastTabWriter.adjust_coords (start_field query) (VInt s) h
       = Ok (VInt (if strand <? 0 then e else s + 1))
       ∧ BlastTabWriter.adjust_coords (end_field query) (VInt e) h
         = Ok (VInt (if strand <? 0 then s + 1 else e)))
  ∧ BlastTabWriter.adjust_coords (start_field query) (VInt stored_start) hsp
    = Ok (VInt raw_start)
  ∧ BlastTabWriter.adjust_coords (end_field query) (VInt stored_end) hsp
    = Ok (VInt raw_end)
  ∧ ∀ (qresult : QueryResult) (hit : Hit),
      BlastTabWriter.add_column qresult hit hsp [] (start_field query)
      = Ok [Num.str_int raw_start]
      ∧ BlastTabWriter.add_column qresult hit hsp [] (end_field query)
        = Ok [Num.str_int raw_end].
Proof.
  intros Hrow Hs He Hfrag hsp stored_start stored_end.
  destruct (stored_coordinates _ _ _ _ _ _ _ _ _ Hrow Hs He Hfrag) as (Hst & Hen & Hsd).
  destruct (decoded_absent _ _ _ Hrow) as (_ & _ & Hhsp).
  assert (∀ k, k ∈ ["query_start"; "query_end"; "query_strand";
                    "hit_start"; "hit_end"; "hit_strand"] →
               Obj.hsp_getattr hsp k = Py.getattr (frag_attrs frag) k) as Hget.
  { intros k Hk. apply hsp_getattr_frag. unfold Py.setattrs.
    apply lookup_union_None. split; [by apply Hhsp|apply lookup_empty]. }
  assert (Obj.hsp_getattr hsp (seq_name query +:+ "_start") = Ok (VInt stored_start)) as Gst.
  { rewrite Hget; [unfold Py.getattr; by rewrite Hst|].
    destruct query; simpl; set_solver. }
  assert (Obj.hsp_getattr hsp (seq_name query +:+ "_end") = Ok (VInt stored_end)) as Gen.
  { rewrite Hget; [unfold Py.getattr; by rewrite Hen|].
    destruct query; simpl; set_solver. }
  assert (Obj.hsp_getattr hsp (seq_name query +:+ "_strand")
          = Ok (VInt (if raw_start <=? raw_end then 1 else -1))) as Gsd.
  { rewrite Hget; [unfold Py.getattr; by rewrite Hsd|].
    destruct query; simpl; set_solver. }
  destruct (adjust_coords_rule hsp query _ _ _ Gsd Gst Gen) as [Rs Re].
  assert (BlastTabWriter.adjust_coords (start_field query) (VInt stored_start) hsp
          = Ok (VInt raw_start)) as Ws.
  { rewrite Rs. subst stored_start stored_end. do 2 f_equal.
    destruct (Z.leb_spec raw_start raw_end); simpl; lia. }
  assert (BlastTabWriter.adjust_coords (end_field query) (VInt stored_end) hsp
          = Ok (VInt raw_end)) as We.
  { rewrite Re. subst stored_start stored_end. do 2 f_equal.
    destruct (Z.leb_spec raw_start raw_end); simpl; lia. }
  split_and!; try done.
  - subst stored_start stored_end. lia.
  - intros h strand s e. apply adjust_coords_rule.
  - intros qresult hit. unfold BlastTabWriter.add_column.
    destruct (column_value_coordinate qresult hit hsp query) as [-> ->].
    rewrite Gst, Gen. simpl.
    destruct query; simpl in *.
    + replace (bool_decide ("qstart" ∈ BlastTabWriter.coordinates)) with true by (by vm_compute).
      replace (bool_decide ("qend" ∈ BlastTabWriter.coordinates)) with true by (by vm_compute).
      by rewrite Ws, We.
    + replace (bool_decide ("sstart" ∈ BlastTabWriter.coordinates)) with true by (by vm_compute).
      replace (bool_decide ("send" ∈ BlastTabWriter.coordinates)) with true by (by vm_compute).
      by rewrite Ws, We.
Qed.

(** The row [reverse_row] decoded, and the fragment built from it. *)
Definition reverse_prev : parsed :=
  Eval vm_compute in
    match BlastTabIterator._parse_result_row Catalog._DEFAULT_FIELDS reverse_row with
    | Ok p => p
    | Raise _ => mkParsed ∅ ∅ ∅ ∅
    end.

Definition reverse_frag : HSPFragment :=
  Eval vm_compute in
    match BlastTabIterator.make_frag (VStr "h1") (VStr "q1") reverse_prev with
    | Ok f => f
    | Raise _ => mkFrag ∅
    end.

Lemma reverse_row_decoded :
  BlastTabIterator._parse_result_row Catalog._DEFAULT_FIELDS reverse_row = Ok reverse_prev.
Proof. vm_compute. reflexivity. Qed.

Lemma reverse_frag_built :
  BlastTabIterator.make_frag (VStr "h1") (VStr "q1") reverse_prev = Ok reverse_frag.
Proof. vm_compute. reflexivity. Qed.

Lemma coordinates_round_trip_witness :
  ∃ prev frag,
    BlastTabIterator._parse_result_row Catalog._DEFAULT_FIELDS reverse_row = Ok prev
    ∧ BlastTabIterator.make_frag (VStr "h1") (VStr "q1") prev = Ok frag
    ∧ frag_attrs frag !! "hit_start" = Some (VInt 100)
    ∧ frag_attrs frag !! "hit_end" = Some (VInt 200)
    ∧ BlastTabWriter.adjust_coords "sstart" (VInt 100)
        (mkHSP [frag] (Py.setattrs (p_hsp prev) ∅)) = Ok (VInt 200)
    ∧ BlastTabWriter.adjust_coords "send" (VInt 200)
        (mkHSP [frag] (Py.setattrs (p_hsp prev) ∅)) = Ok (VInt 101).
Proof.
  exists reverse_prev, reverse_frag.
  destruct (coordinates_round_trip Catalog._DEFAULT_FIELDS reverse_row reverse_prev
              (VStr "h1") (VStr "q1") reverse_frag false 200 101
              reverse_row_decoded
              ltac:(vm_compute; reflexivity) ltac:(vm_compute; reflexivity)
              reverse_frag_built)
    as (H1 & H2 & _ & _ & _ & H3 & H4 & _).
  split; [exact reverse_row_decoded|]. split; [exact reverse_frag_built|].
  split; [exact H1|]. split; [exact H2|]. split; [exact H3|exact H4].
Defined.

(** ** The assembler on a stream of rows *)

(** A decoded row with the two keys read off it. *)
Record keyed : Type := mkKeyed { row : parsed; qkey : pyval; hkey : pyval }.


Section AssemblerFacts.

Import Assembler.

Variable is_row : string → bool.
Variable parse_row : string → result parsed.
Variable row_qid row_hid : parsed → result pyval.
Variable make_frag : pyval → pyval → parsed → result HSPFragment.
Variable next_line : string → string.

Abbreviation run_loop := (loop is_row parse_row row_qid row_hid make_frag next_line).

(** The line at hand and the handle hold these rows, one per line, and
    after them a line that is not a row (a comment, or the end of the
    file). *)
Inductive feeds : string → handle → list keyed → Prop :=
  | feeds_end line h :
      is_row line = false → feeds line h []
  | feeds_row line h x rows :
      is_row line = true →
      parse_row line = Ok (row x) →
      row_qid (row x) = Ok (qkey x) →
      row_hid (row x) = Ok (hkey x) →
      feeds (next_line (readline h).1) (readline h).2 rows →
      feeds line h (x :: rows).

(** The HSP that the loop builds from a row. *)
Definition built_from (x : keyed) (hsp : HSP) : Prop :=
  ∃ frag, make_frag (hkey x) (qkey x) (row x) = Ok frag
          ∧ hsp = mkHSP [frag] (Py.setattrs (p_hsp (row x)) ∅).

Definition buildable (x : keyed) : Prop :=
  ∃ frag, make_frag (hkey x) (qkey x) (row x) = Ok frag.

Lemma loop_S (fuel : nat) (st : state) (line : string) (h : handle) :
  run_loop (S fuel) st line h
  = match iteration is_row parse_row row_qid row_hid make_frag st line with
    | Raise e => (Run [] (Raised e), (line, h))
    | Ok (st', out, true) => (emit out (Run [] Exhausted), (line, h))
    | Ok (st', out, false) =>
        let '(l, h') := readline h in
        let '(r, rest) := run_loop fuel st' (next_line l) h' in
        (emit out r, rest)
    end.
Proof. done. Qed.

(** The hit and the Query that a turn closes for the row [x] when the
    pending lists are [hl] and [sl] and the fragment built is [f]. *)
Definition hsps_with (x : keyed) (f : HSPFragment) (sl : list HSP) : list HSP :=
  sl ++ [mkHSP [f] (Py.setattrs (p_hsp (row x)) ∅)].
Definition closed_hit (x : keyed) (f : HSPFragment) (sl : list HSP) : Hit :=
  mkHit (hsps_with x f sl)
        (Py.setattrs (p_hit (row x))
           (hit_attrs (Obj.new_hit (hkey x) (qkey x) (hsps_with x f sl)))).
Definition closed_query (x : keyed) (hits : list Hit) : QueryResult :=
  mkQuery hits (Py.setattrs (p_qresult (row x))
                  (qr_attrs (Obj.new_query (qkey x) hits))).


(** The turn that finds the row [y] after the row [x]. *)
Lemma iteration_at_row (x y : keyed) (f : HSPFragment) pv pq ph hl sl (line : string) :
  is_row line = true →
  parse_row line = Ok (row y) →
  row_qid (row y) = Ok (qkey y) →
  row_hid (row y) = Ok (hkey y) →
  make_frag (hkey x) (qkey x) (row x) = Ok f →
  let next hits hsps :=
    mkState (Some (row y)) (qkey y) (hkey y)
            (Some (row x)) (qkey x) (hkey x) false hits hsps in
  iteration is_row parse_row row_qid row_hid make_frag
    (mkState (Some (row x)) (qkey x) (hkey x) pv pq ph false hl sl) line
  = if Py.ne (qkey x) (qkey y)
    then Ok (next [] [], Some (closed_query x (hl ++ [closed_hit x f sl])), false)
    else if Py.ne (hkey x) (hkey y)
         then Ok (next (hl ++ [closed_hit x f sl]) [], None, false)
         else Ok (next hl (hsps_with x f sl), None, false).
Proof.
  intros Hrow Hparse Hq Hh Hf. unfold iteration, advance, shift. simpl.
  rewrite Hrow, Hparse. simpl. rewrite Hq, Hh. simpl. rewrite Hf. simpl.
  unfold hit_new, qres_new. simpl.
  destruct (Py.ne (qkey x) (qkey y)); simpl.
  - by rewrite orb_true_r.
  - rewrite !orb_false_r. by destruct (Py.ne (hkey x) (hkey y)).
Qed.

(** The first turn, on the first row. *)
Lemma iteration_first (x : keyed) (line : string) :
  is_row line = true →
  parse_row line = Ok (row x) →
  row_qid (row x) = Ok (qkey x) →
  row_hid (row x) = Ok (hkey x) →
  iteration is_row parse_row row_qid row_hid make_frag init line
  = Ok (mkState (Some (row x)) (qkey x) (hkey x) None VNone VNone false [] [], None, false).
Proof.
  intros Hrow Hparse Hq Hh. unfold iteration, advance, shift. simpl.
  rewrite Hrow, Hparse. simpl. by rewrite Hq, Hh.
Qed.

(** A turn at the end of the file when no row was ever seen. *)
Lemma iteration_idle (eof : bool) (line : string) :
  is_row line = false →
  iteration is_row parse_row row_qid row_hid make_frag
    (mkState None VNone VNone None VNone VNone eof [] []) line
  = Ok (mkState None VNone VNone None VNone VNone true [] [], None, false).
Proof. intros Hrow. unfold iteration, advance, shift. simpl. by rewrite Hrow. Qed.

Section Invariant.

Variable all : list keyed.

Definition hsp_ok (hsp : HSP) : Prop := ∃ x, x ∈ all ∧ built_from x hsp.
Definition hit_ok (hit : Hit) : Prop := hit_hsps hit ≠ [] ∧ Forall hsp_ok (hit_hsps hit).
Definition query_ok (q : QueryResult) : Prop := Forall hit_ok (qr_hits q).




End Invariant.


(** The rows that the line at hand and the handle hold, read off by
    decoding line after line up to the first line that is not a row;
    [None] when a row does not decode, or when [fuel] lines were not
    enough to reach the end of the rows. *)
Fixpoint read_rows (fuel : nat) (line : string) (h : handle) : option (list keyed) :=
  match fuel with
  | O => None
  | S fuel' =>
      if is_row line then
        match parse_row line with
        | Ok r =>
            match row_qid r, row_hid r with
            | Ok q, Ok k =>
                rows ← read_rows fuel' (next_line (readline h).1) (readline h).2;
                Some (mkKeyed r q k :: rows)
            | _, _ => None
            end
        | Raise _ => None
        end
      else Some []
  end.

Lemma read_rows_feeds (fuel : nat) (line : string) (h : handle) (rows : list keyed) :
  read_rows fuel line h = Some rows → feeds line h rows.
Proof.
  revert line h rows. induction fuel as [|fuel IH]; intros line h rows; [done|].
  cbn [read_rows]. destruct (is_row line) eqn:Hrow.
  - destruct (parse_row line) as [r|] eqn:Hparse; [|done].
    destruct (row_qid r) as [q|] eqn:Hq; [|done].
    destruct (row_hid r) as [k|] eqn:Hk; [|done].
    destruct (read_rows fuel _ _) as [rest|] eqn:Hrest; [|done].
    intros [= <-]. by apply (feeds_row line h (mkKeyed r q k)); [..|apply IH].
  - intros [= <-]. by apply feeds_end.
Qed.

(** Whether the fragment of every row builds. *)
Definition all_buildable (rows : list keyed) : bool :=
  forallb (fun x => is_Ok (make_frag (hkey x) (qkey x) (row x))) rows.

Lemma all_buildable_spec (rows : list keyed) :
  all_buildable rows = true → Forall buildable rows.
Proof.
  unfold all_buildable. rewrite forallb_forall, Forall_forall.
  intros H x Hx. apply list_elem_of_In in Hx. specialize (H x Hx).
  unfold buildable. destruct (make_frag _ _ _); [by eauto|done].
Qed.

(** On an empty file the loop never yields and never stops: the line
    stays empty and no row was ever seen. *)
Lemma loop_on_nothing (fuel : nat) :
  is_row "" = false → next_line "" = "" →
  run_loop fuel init "" [] = (Run [] Running, ("", [])).
Proof.
  intros Hrow Hnext.
  assert (∀ n eof, run_loop n (mkState None VNone VNone None VNone VNone eof [] []) "" []
                   = (Run [] Running, ("", []))) as Heof.
  { induction n as [|n IHn]; intros eof; [done|].
    rewrite loop_S, (iteration_idle eof "" Hrow). cbn [readline]. by rewrite Hnext, IHn. }
  apply Heof.
Qed.

End AssemblerFacts.

(** The rows that [BlastTabIterator._parse_qresult] is fed, for a
    column list, and those of [HmmerDomtabIterator.parse_qresult]. *)
Definition blast_feeds (fields : list string) : string → handle → list keyed → Prop :=
  feeds BlastTabIterator.is_row (BlastTabIterator._parse_result_row fields)
    (fun c => Ok (BlastTabIterator._get_id (p_qresult c)))
    (fun c => Ok (BlastTabIterator._get_id (p_hit c))) Str.strip.

Definition hmmer_feeds (hmm_as_hit : bool) : string → handle → list keyed → Prop :=
  feeds Str.nonempty (HmmerDomtabIterator.parse_result_row hmm_as_hit)
    (fun c => Py.getitem (p_qresult c) "id")
    (fun c => Py.getitem (p_hit c) "id") (fun l => l).

Lemma hmmer_buildable (rows : list keyed) :
  Forall (buildable HmmerDomtabIterator.make_frag) rows.
Proof. apply Forall_forall. intros x _. by eexists. Qed.


(** A file of four rows of the default columns: three of the query q1,
    on the hits h1, h1 and h2, and one of the query q2. *)
Definition plain_sample : string :=
  "q1	h1	90.5	100	3	1	5	104	200	101	1e-50	180.5
q1	h1	90.5	100	3	1	5	104	1	100	0.05	18000.5
q1	h2	90.5	100	3	1	5	104	1	100	1e-50	80.5
q2	h2	90.5	100	3	1	5	104	1	100	1e-50	180.5
".

(** Two rows of a domain table, of one query and one target. *)
Definition domtab_sample : string :=
  "PF1  PF00001.1  100 query1  -  300  1e-20  70.5  0.1  1  2  1e-10  1e-9  35.2  0.0  1  50  10  60  5  65  0.95  Some description here
PF1  PF00001.1  100 query1  -  300  1e-20  70.5  0.1  2  2  1e-10  1e-9  35.2  0.0  1  50  10  60  5  65  0.95
".

(** The keyed rows of some lines, where every line decodes. *)
Definition blast_keyed (fields : list string) (line : string) : list keyed :=
  match BlastTabIterator._parse_result_row fields line with
  | Ok r => [mkKeyed r (BlastTabIterator._get_id (p_qresult r))
                      (BlastTabIterator._get_id (p_hit r))]
  | Raise _ => []
  end.

Definition hmmer_keyed (hmm_as_hit : bool) (line : string) : list keyed :=
  match HmmerDomtabIterator.parse_result_row hmm_as_hit line with
  | Ok r => [mkKeyed r (Py.get (p_qresult r) "id") (Py.get (p_hit r) "id")]
  | Raise _ => []
  end.



(** The rows of the two sample files. *)
Definition plain_rows : list keyed :=
  Eval vm_compute in lines_of plain_sample ≫= blast_keyed Catalog._DEFAULT_FIELDS.

Definition domtab_rows : list keyed :=
  Eval vm_compute in lines_of domtab_sample ≫= hmmer_keyed true.

Lemma plain_sample_feeds :
  blast_feeds Catalog._DEFAULT_FIELDS
    (Str.strip (hd "" (lines_of plain_sample))) (tl (lines_of plain_sample)) plain_rows.
Proof. apply (read_rows_feeds _ _ _ _ _ 5). vm_compute. reflexivity. Qed.

Lemma domtab_sample_feeds :
  hmmer_feeds true (hd "" (lines_of domtab_sample)) (tl (lines_of domtab_sample))
    domtab_rows.
Proof. apply (read_rows_feeds _ _ _ _ _ 5). vm_compute. reflexivity. Qed.

Lemma plain_rows_buildable : Forall (buildable BlastTabIterator.make_frag) plain_rows.
Proof. apply all_buildable_spec. vm_compute. reflexivity. Qed.


(** On an empty stream the loop itself never yields and never stops;
    [__iter__] does not enter it when the first line is empty. *)
Example empty_stream (fuel : nat) (fields : list string) :
  BlastTabIterator._parse_qresult fields fuel "" [] = (Run [] Running, ("", []))
  ∧ BlastTabIterator.parse fuel [] false (FieldsList Catalog._DEFAULT_FIELDS)
    = Run [] Exhausted.
Proof. split; [by apply loop_on_nothing|done]. Qed.

(** ** Strands *)

Section Strands.

Import BlastTabIterator.

#[local] Arguments String.append : simpl nomatch.

Lemma bind_Ok {A B} (m : result A) (f : A → result B) (b : B) :
  m ≫= f = Ok b → ∃ a, m = Ok a ∧ f a = Ok b.
Proof. destruct m as [a|e]; simpl; [by eauto|done]. Qed.

Lemma derived_strand_absent (pf : pydict) (query : bool) :
  pf !! (seq_name query +:+ "_start") = None ∨ pf !! (seq_name query +:+ "_end") = None →
  derived_strand pf query = Ok VNone.
Proof.
  unfold derived_strand, _get_frag_strand, Obj.frag_get, Py.get. simpl.
  rewrite lookup_empty. simpl. intros [-> | ->]; simpl; [done|].
  by rewrite andb_false_r.
Qed.

Lemma derived_strand_ints (pf : pydict) (query : bool) (s e : Z) :
  pf !! (seq_name query +:+ "_start") = Some (VInt s) →
  pf !! (seq_name query +:+ "_end") = Some (VInt e) →
  derived_strand pf query = Ok (VInt (if s <=? e then 1 else -1)).
Proof.
  unfold derived_strand, _get_frag_strand, Obj.frag_get, Py.get. simpl.
  rewrite lookup_empty. simpl. by intros -> ->.
Qed.

(** The strand that the fragment of a row holds for the query
    ([query = true]) or for the hit. *)
Definition strand_of (frag : HSPFragment) (query : bool) : option pyval :=
  frag_attrs frag !! (seq_name query +:+ "_strand").

(** The strands of the fragment built from a decoded BLAST row. *)
Lemma blast_strand (fields : list string) (line : string) (prev : parsed)
    (hid qid : pyval) (frag : HSPFragment) (query : bool) :
  _parse_result_row fields line = Ok prev →
  make_frag hid qid prev = Ok frag →
  ∃ v, derived_strand (p_frag prev) query = Ok v ∧ strand_of frag query = Some v.
Proof.
  intros Hrow Hfrag.
  destruct (decoded_absent _ _ _ Hrow) as (Hqs & Hhs & _).
  destruct (make_frag_attrs _ _ _ _ Hqs Hhs Hfrag)
    as (frag1 & fh & sh & fq & sq & Hfill & Hsh & Hsq & Hattrs).
  unfold strand_of. rewrite Hattrs.
  destruct query; cbn [seq_name].
  - exists sq. split; [done|]. by rewrite lookup_insert_eq.
  - exists sh. split; [done|].
    by repeat (rewrite lookup_insert_eq || rewrite lookup_insert_ne by done).
Qed.

(** A decoded HMMER row has both strands 0. *)
Lemma hmmer_row_strands (hmm_as_hit : bool) (line : string) (r : parsed) :
  HmmerDomtabIterator.parse_result_row hmm_as_hit line = Ok r →
  p_frag r !! "query_strand" = Some (VInt 0) ∧ p_frag r !! "hit_strand" = Some (VInt 0).
Proof.
  unfold HmmerDomtabIterator.parse_result_row. intros H.
  repeat (apply bind_Ok in H as (? & _ & H)).
  injection H as <-. simpl. destruct hmm_as_hit; by simplify_map_eq.
Qed.

Lemma hmmer_frag_strands (hmm_as_hit : bool) (line : string) (r : parsed)
    (hid qid : pyval) (frag : HSPFragment) (query : bool) :
  HmmerDomtabIterator.parse_result_row hmm_as_hit line = Ok r →
  HmmerDomtabIterator.make_frag hid qid r = Ok frag →
  strand_of frag query = Some (VInt 0).
Proof.
  intros Hrow [= <-]. destruct (hmmer_row_strands _ _ _ Hrow) as [Hq Hh].
  unfold strand_of, Py.setattrs. simpl.
  destruct query; simpl; by apply lookup_union_Some_l.
Qed.

End Strands.

(** The fragments of all HSPs of all hits of some Queries. *)
Definition emitted_frags (qs : list QueryResult) : list HSPFragment :=
  ((qs ≫= qr_hits) ≫= hit_hsps) ≫= hsp_frags.

Section Emitted.

Variable is_row : string → bool.
Variable parse_row : string → result parsed.
Variable row_qid row_hid : parsed → result pyval.
Variable make_frag : pyval → pyval → parsed → result HSPFragment.
Variable next_line : string → string.

(** Every row that is fed was decoded from a line. *)
Lemma feeds_decoded (line : string) (h : handle) (rows : list keyed) :
  feeds is_row parse_row row_qid row_hid next_line line h rows →
  Forall (fun x => ∃ l, parse_row l = Ok (row x)) rows.
Proof. induction 1; constructor; eauto. Qed.

(** Every emitted fragment is the one built from one of the rows. *)
Lemma emitted_frag_built (rows : list keyed) (qs : list QueryResult) (frag : HSPFragment) :
  Forall (query_ok make_frag rows) qs →
  frag ∈ emitted_frags qs →
  ∃ x, x ∈ rows ∧ make_frag (hkey x) (qkey x) (row x) = Ok frag.
Proof.
  intros Hqs. unfold emitted_frags.
  intros (hsp & Hfrag & H1)%list_elem_of_bind.
  apply list_elem_of_bind in H1 as (hit & Hhsp & H2).
  apply list_elem_of_bind in H2 as (q & Hhit & Hq).
  rewrite Forall_forall in Hqs. specialize (Hqs q Hq).
  unfold query_ok in Hqs. rewrite Forall_forall in Hqs.
  destruct (Hqs hit Hhit) as [_ Hhsps].
  rewrite Forall_forall in Hhsps.
  destruct (Hhsps hsp Hhsp) as (x & Hx & f & Hf & ->).
  simpl in Hfrag. apply list_elem_of_singleton in Hfrag as ->. eauto.
Qed.

End Emitted.

(** C4 as stated fails for the HMMER domain table: the fragments that
    its assembler emits have strand 0, which is neither +1, -1 nor
    absent. *)
Lemma hmmer_strand_is_zero :
  ∃ qs rest frag,
    HmmerDomtabIterator.parse_qresult true 5
      (hd "" (lines_of domtab_sample)) (tl (lines_of domtab_sample))
    = (Run qs Exhausted, rest)
    ∧ frag ∈ emitted_frags qs
    ∧ strand_of frag true = Some (VInt 0)
    ∧ strand_of frag false = Some (VInt 0).
Proof.
  eexists _, _, _. split; [by vm_compute|].
  split; [apply list_elem_of_here|]. split; by vm_compute.
Qed.

(** * Further properties *)

(** ** The other two counters of [write_file] *)

Section WriteCounters.

Import BlastTabWriter.

Variable has_comments : bool.
Variable fields : list string.

Definition count_hits (qresults : list QueryResult) : nat :=
  sum_list ((fun q => length (qr_hits q)) <$> qresults).

Definition count_hsps (qresults : list QueryResult) : nat :=
  sum_list ((fun q => sum_list ((fun hit => length (hit_hsps hit)) <$> qr_hits q))
              <$> qresults).

Lemma sum_list_cons (x : nat) (l : list nat) : sum_list (x :: l) = (x + sum_list l)%nat.
Proof. done. Qed.

Lemma write_qresult_counters (p p' : progress) (q : QueryResult) :
  write_qresult has_comments fields p q = Ok p' →
  hit_counter p' = (hit_counter p + length (qr_hits q))%nat
  ∧ hsp_counter p'
    = (hsp_counter p + sum_list ((fun hit => length (hit_hsps hit)) <$> qr_hits q))%nat.
Proof.
  unfold write_qresult.
  destruct (if has_comments then _ else _) as [out|e]; cbn [mbind result_bind]; [|done].
  unfold Obj.truthy. destruct (qr_hits q) as [|hit hits] eqn:Eh.
  - cbn [mbind result_bind]. destruct has_comments; intros [= <-]; simpl; lia.
  - destruct (build_rows fields q) as [rows|e]; cbn [mbind result_bind]; [|done].
    destruct has_comments; intros [= <-]; simpl; lia.
Qed.

Lemma write_all_counters (qresults : list QueryResult) (p p' : progress) :
  foldlM (write_qresult has_comments fields) p qresults = Ok p' →
  hit_counter p' = (hit_counter p + count_hits qresults)%nat
  ∧ hsp_counter p' = (hsp_counter p + count_hsps qresults)%nat.
Proof.
  revert p. induction qresults as [|q qs IH]; intros p.
  - intros [= <-]. unfold count_hits, count_hsps. rewrite !fmap_nil. simpl. lia.
  - cbn [foldlM]. destruct (write_qresult has_comments fields p q) as [p1|e] eqn:E;
      cbn [mbind result_bind]; [|done].
    intros H. apply IH in H as [H1 H2].
    apply write_qresult_counters in E as [E1 E2].
    unfold count_hits, count_hsps in *. rewrite !fmap_cons, !sum_list_cons.
    split; lia.
Qed.

End WriteCounters.

(** The Queries that the parser reads from [commented_sample]. *)
Definition commented_queries : list QueryResult :=
  Eval vm_compute in
    yielded (BlastTabIterator.parse 20 (lines_of commented_sample) true
               (FieldsList Catalog._DEFAULT_FIELDS)).

(** In either mode, when [write_file] returns, its second and third
    counters are the number of Hits and the number of HSPs of all the
    Queries it was given: a Query without hits adds nothing to either. *)
Theorem write_file_hit_hsp_counts (has_comments : bool) (fields : list string)
    (qresults : list QueryResult) (out : string) (n hits hsps : nat) :
  BlastTabWriter.write_file has_comments fields qresults = Ok (out, (n, hits, hsps)) →
  hits = count_hits qresults ∧ hsps = count_hsps qresults.
Proof.
  unfold BlastTabWriter.write_file.
  destruct (foldlM _ _ qresults) as [p|e] eqn:E; cbn [mbind result_bind]; [|done].
  apply write_all_counters in E as [E1 E2]. simpl in E1, E2.
  intros [= _ _ <- <-]. done.
Qed.

Lemma write_file_hit_hsp_counts_witness :
  ∃ out n,
    BlastTabWriter.write_file true ["qseqid"; "sseqid"; "qstart"; "qend"] commented_queries
    = Ok (out, (n, 2%nat, 2%nat)).
Proof.
  destruct (BlastTabWriter.write_file true ["qseqid"; "sseqid"; "qstart"; "qend"]
              commented_queries) as [[out [[n hits] hsps]]|e] eqn:E.
  - destruct (write_file_hit_hsp_counts _ _ _ _ _ _ _ E) as [-> ->].
    exists out, n. reflexivity.
  - exfalso. revert E. vm_compute. discriminate.
Defined.

(** ** The 'std' placeholder and the key column of the indexer *)

Section StdAndKey.

Import BlastTabIterator.

Lemma index_None (x : string) (l : list string) : index x l = None ↔ x ∉ l.
Proof.
  induction l as [|y l IH]; cbn [index].
  - split; [intros _; apply not_elem_of_nil|done].
  - destruct (String.eqb_spec x y) as [->|Hne].
    + split; [done|]. intros H. destruct H. apply list_elem_of_here.
    + rewrite not_elem_of_cons. destruct (index x l) eqn:E; cbn [fmap option_fmap option_map].
      * split; [done|]. intros [_ H]. by apply IH in H.
      * split; [|done]. intros _. split; [done|]. by apply IH.
Qed.

(** [index] finds the first place where [x] stands. *)
Lemma index_Some (x : string) (l : list string) (i : nat) :
  index x l = Some i ↔ l !! i = Some x ∧ x ∉ take i l.
Proof.
  revert i. induction l as [|y l IH]; intros i; cbn [index].
  - split; [done|]. by intros [? _].
  - destruct (String.eqb_spec x y) as [->|Hne].
    + split.
      * intros [= <-]. split; [done|]. apply not_elem_of_nil.
      * intros [Hi Hn]. destruct i as [|i]; [done|].
        destruct Hn. cbn [take]. apply list_elem_of_here.
    + destruct i as [|i].
      * split; [by destruct (index x l)|]. intros [[= ->] _]. done.
      * cbn [lookup list_lookup take]. rewrite not_elem_of_cons.
        specialize (IH i). destruct (index x l) as [j|];
          cbn [fmap option_fmap option_map].
        -- split.
           ++ intros [= ->]. destruct IH as [IH _]. destruct (IH eq_refl). done.
           ++ intros [Hi [_ Hn]]. destruct IH as [_ IH].
              by injection (IH (conj Hi Hn)) as ->.
        -- split; [done|]. intros [Hi [_ Hn]]. destruct IH as [_ IH].
           by specialize (IH (conj Hi Hn)).
Qed.

Lemma index_app (x : string) (pre post : list string) :
  x ∉ pre → index x (pre ++ x :: post) = Some (length pre).
Proof.
  intros Hn. apply index_Some. split.
  - by rewrite list_lookup_middle.
  - by rewrite take_app_length.
Qed.

End StdAndKey.

(** 'std' is expanded where it first stands, as a splice: the columns
    before it and after it stay, a second 'std' stays as it is, and a
    list without 'std' is left alone. *)
Theorem expand_std_splice (pre post : list string) :
  "std" ∉ pre →
  BlastTabIterator.expand_std (pre ++ ("std" :: post))
  = pre ++ Catalog._DEFAULT_FIELDS ++ post
  ∧ BlastTabIterator.expand_std pre = pre.
Proof.
  intros Hn. unfold BlastTabIterator.expand_std. split.
  - rewrite (index_app _ _ _ Hn).
    rewrite take_app_length.
    assert (drop (S (length pre)) (pre ++ ("std" :: post)) = post) as ->; [|done].
    clear Hn. by induction pre.
  - apply index_None in Hn. by rewrite Hn.
Qed.

Lemma expand_std_splice_witness :
  BlastTabIterator.expand_std (["qlen"] ++ ("std" :: ["std"; "sacc"]))
  = ["qlen"] ++ Catalog._DEFAULT_FIELDS ++ ["std"; "sacc"]
  ∧ BlastTabIterator.expand_std ["qlen"] = ["qlen"].
Proof.
  apply (expand_std_splice ["qlen"] ["std"; "sacc"]).
  apply (bool_decide_unpack _). vm_compute. exact I.
Defined.

(** The fields that tell the query key. *)
Definition query_key_fields : list string := ["qseqid"; "qacc"; "qaccver"].

(** For a list of fields the indexer of a file without comments takes
    as key column the first place of 'qseqid', else of 'qacc', else of
    'qaccver', and raises ValueError exactly when the list names none of
    them.  It looks at the list as given: a list that names the key only
    through 'std' is refused by the indexer although the parser, which
    expands 'std', accepts it. *)
Theorem indexer_key_column (fields : list string) :
  (BlastTabIndexer.key_index (FieldsList fields) = Raise ValueError
   ↔ ∀ k, k ∈ query_key_fields → k ∉ fields)
  ∧ (∀ i, BlastTabIndexer.key_index (FieldsList fields) = Ok i →
       ∃ k, k ∈ query_key_fields ∧ fields !! i = Some k ∧ k ∉ take i fields
            ∧ (k = "qseqid"
               ∨ (k = "qacc" ∧ "qseqid" ∉ fields)
               ∨ (k = "qaccver" ∧ "qseqid" ∉ fields ∧ "qacc" ∉ fields)))
  ∧ ("std" ∈ fields → (∀ k, k ∈ query_key_fields → k ∉ fields) →
       BlastTabIndexer.key_index (FieldsList fields) = Raise ValueError
       ∧ ∃ expanded, BlastTabIterator._prep_fields (FieldsList fields) = Ok expanded).
Proof.
  assert (BlastTabIndexer.key_index (FieldsList fields) = Raise ValueError
          ↔ ∀ k, k ∈ query_key_fields → k ∉ fields) as Herr.
  { unfold BlastTabIndexer.key_index, BlastTabIndexer.position, query_key_fields.
    destruct (BlastTabIterator.index "qseqid" fields) as [i|] eqn:E1.
    { split; [done|]. intros H. apply index_Some in E1 as [E1 _].
      apply list_elem_of_lookup_2 in E1. destruct (H "qseqid"); [set_solver|done]. }
    destruct (BlastTabIterator.index "qacc" fields) as [i|] eqn:E2.
    { split; [done|]. intros H. apply index_Some in E2 as [E2 _].
      apply list_elem_of_lookup_2 in E2. destruct (H "qacc"); [set_solver|done]. }
    destruct (BlastTabIterator.index "qaccver" fields) as [i|] eqn:E3.
    { split; [done|]. intros H. apply index_Some in E3 as [E3 _].
      apply list_elem_of_lookup_2 in E3. destruct (H "qaccver"); [set_solver|done]. }
    split; [|done]. intros _ k Hk. apply index_None in E1, E2, E3.
    set_unfold. naive_solver. }
  split; [exact Herr|]. split.
  - intros i. unfold BlastTabIndexer.key_index, BlastTabIndexer.position, query_key_fields.
    destruct (BlastTabIterator.index "qseqid" fields) as [i1|] eqn:E1.
    { intros [= <-]. apply index_Some in E1 as [E1 E1'].
      exists "qseqid". split_and!; [set_solver|done|done|by left]. }
    apply index_None in E1.
    destruct (BlastTabIterator.index "qacc" fields) as [i2|] eqn:E2.
    { intros [= <-]. apply index_Some in E2 as [E2 E2'].
      exists "qacc". split_and!; [set_solver|done|done|by right; left]. }
    apply index_None in E2.
    destruct (BlastTabIterator.index "qaccver" fields) as [i3|] eqn:E3; [|done].
    intros [= <-]. apply index_Some in E3 as [E3 E3'].
    exists "qaccver". split_and!; [set_solver|done|done|by right; right].
  - intros Hstd Hnone. split; [by apply Herr|].
    apply list_elem_of_split in Hstd as (pre & post & ->).
    destruct (prep_fields_cases (FieldsList (pre ++ ("std" :: post))))
      as [[[Hq|Hh] _]|[_ Hok]]; [..|by eauto]; exfalso.
    + apply Hq. exists "qseqid". split; [|set_solver].
      cbn [BlastTabIterator.as_list]. unfold BlastTabIterator.expand_std.
      destruct (BlastTabIterator.index "std" (pre ++ ("std" :: post))) as [i|] eqn:Ei.
      * rewrite !elem_of_app. right; left. unfold Catalog._DEFAULT_FIELDS. set_solver.
      * apply index_None in Ei. destruct Ei. set_solver.
    + apply Hh. exists "sseqid". split; [|set_solver].
      cbn [BlastTabIterator.as_list]. unfold BlastTabIterator.expand_std.
      destruct (BlastTabIterator.index "std" (pre ++ ("std" :: post))) as [i|] eqn:Ei.
      * rewrite !elem_of_app. right; left. unfold Catalog._DEFAULT_FIELDS. set_solver.
      * apply index_None in Ei. destruct Ei. set_solver.
Qed.

(** ** What a decoded BLAST row holds *)

Section Decoded.

Import BlastTabIterator Catalog.

#[local] Instance target_dec : EqDecision target.
Proof. solve_decision. Defined.

(** The Python type that a caster gives. *)
Definition has_type (c : caster) (v : pyval) : Prop :=
  match c with
  | to_str => ∃ s, v = VStr s
  | to_int => ∃ z, v = VInt z
  | to_float => ∃ f, v = VFloat f
  end.

(** No column name is in two of the four tables. *)
Lemma tables_disjoint (t t' : target) (sname : string) :
  is_Some (mapping_of t !! sname) → is_Some (mapping_of t' !! sname) → t = t'.
Proof.
  intros H H'. apply elem_of_dom in H, H'.
  assert (∀ a b, a ≠ b → dom (mapping_of a) ## dom (mapping_of b)) as Hd.
  { intros a b Hab. destruct a, b; try done;
      by apply (bool_decide_unpack _); vm_compute. }
  destruct t, t'; try reflexivity;
    match goal with
    | |- ?a = ?b => by destruct (Hd a b ltac:(discriminate) sname H H')
    end.
Qed.

Lemma cast_typed (c : caster) (s : string) (v : pyval) :
  cast c (VStr s) = Ok v → has_type c v.
Proof.
  destruct c; simpl.
  - intros [= <-]. by eexists.
  - destruct (Num.int_of_str s); simpl; [|done]. intros [= <-]. by eexists.
  - destruct (Num.float_of_str s); simpl; [|done]. intros [= <-]. by eexists.
Qed.

(** Every item of the four dictionaries comes from a column of
    [fields] and has the type of its caster. *)
Definition typed_from (fields : list string) (p : parsed) : Prop :=
  ∀ t k v, dict_of t p !! k = Some v →
    ∃ sname c, sname ∈ fields ∧ mapping_of t !! sname = Some (k, c) ∧ has_type c v.

(** The attribute of the column [sname] is set. *)
Definition holds (sname : string) (p : parsed) : Prop :=
  ∀ t k c, mapping_of t !! sname = Some (k, c) → is_Some (dict_of t p !! k).

Lemma dict_of_store (t t' : target) (k k' : string) (v : pyval) (p : parsed) :
  dict_of t' (store t k v p) !! k'
  = if decide (t' = t ∧ k' = k) then Some v else dict_of t' p !! k'.
Proof.
  destruct (decide _) as [[-> ->]|Hne].
  - destruct t; simpl; by rewrite lookup_insert_eq.
  - destruct t, t'; simpl; try done;
      (rewrite lookup_insert_ne; [done|]; intros ->; by apply Hne).
Qed.

Lemma try_mapping_some (sname : string) (v : pyval) (p : parsed) (i : bool)
    (t : target) (k : string) (c : caster) :
  mapping_of t !! sname = Some (k, c) →
  try_mapping sname (v, p, i) t = (v' ← cast c v; Ok (v', store t k v' p, true)).
Proof. intros H. unfold try_mapping. by rewrite H. Qed.

Lemma try_mapping_none (sname : string) (acc : pyval * parsed * bool) (t : target) :
  mapping_of t !! sname = None → try_mapping sname acc t = Ok acc.
Proof. intros H. unfold try_mapping. destruct acc as [[v p] i]. by rewrite H. Qed.

(** The four turns of the inner loop on a column: the row is stored
    into by the one table that has the column, or by none. *)
Lemma parse_column_cases (p p' : parsed) (sname value : string) :
  parse_column p (sname, value) = Ok p' →
  (p' = p ∧ ∀ t, mapping_of t !! sname = None)
  ∨ ∃ t k c v, mapping_of t !! sname = Some (k, c)
               ∧ cast c (VStr value) = Ok v ∧ p' = store t k v p.
Proof.
  unfold parse_column. cbn [foldlM].
  assert (∀ t0 k c, mapping_of t0 !! sname = Some (k, c) →
            ∀ t, t ≠ t0 → mapping_of t !! sname = None) as Hone.
  { intros t0 k c E t Ht. apply eq_None_not_Some. intros Hs. apply Ht.
    apply (tables_disjoint _ _ sname); [done|by rewrite E]. }
  destruct (mapping_of t_qresult !! sname) as [[k1 c1]|] eqn:E1.
  { pose proof (Hone _ _ _ E1) as Hn. rewrite (try_mapping_some _ _ _ _ _ _ _ E1).
    destruct (cast c1 (VStr value)) as [v|] eqn:Ec; cbn [mbind result_bind]; [|done].
    rewrite (try_mapping_none _ _ t_hit) by by apply Hn. cbn [mbind result_bind].
    rewrite (try_mapping_none _ _ t_hsp) by by apply Hn. cbn [mbind result_bind].
    rewrite (try_mapping_none _ _ t_frag) by by apply Hn. cbn [mbind result_bind].
    intros [= <-]. right. by exists t_qresult, k1, c1, v. }
  rewrite (try_mapping_none _ _ t_qresult) by done. cbn [mbind result_bind].
  destruct (mapping_of t_hit !! sname) as [[k2 c2]|] eqn:E2.
  { pose proof (Hone _ _ _ E2) as Hn. rewrite (try_mapping_some _ _ _ _ _ _ _ E2).
    destruct (cast c2 (VStr value)) as [v|] eqn:Ec; cbn [mbind result_bind]; [|done].
    rewrite (try_mapping_none _ _ t_hsp) by by apply Hn. cbn [mbind result_bind].
    rewrite (try_mapping_none _ _ t_frag) by by apply Hn. cbn [mbind result_bind].
    intros [= <-]. right. by exists t_hit, k2, c2, v. }
  rewrite (try_mapping_none _ _ t_hit) by done. cbn [mbind result_bind].
  destruct (mapping_of t_hsp !! sname) as [[k3 c3]|] eqn:E3.
  { pose proof (Hone _ _ _ E3) as Hn. rewrite (try_mapping_some _ _ _ _ _ _ _ E3).
    destruct (cast c3 (VStr value)) as [v|] eqn:Ec; cbn [mbind result_bind]; [|done].
    rewrite (try_mapping_none _ _ t_frag) by by apply Hn. cbn [mbind result_bind].
    intros [= <-]. right. by exists t_hsp, k3, c3, v. }
  rewrite (try_mapping_none _ _ t_hsp) by done. cbn [mbind result_bind].
  destruct (mapping_of t_frag !! sname) as [[k4 c4]|] eqn:E4.
  { rewrite (try_mapping_some _ _ _ _ _ _ _ E4).
    destruct (cast c4 (VStr value)) as [v|] eqn:Ec; cbn [mbind result_bind]; [|done].
    intros [= <-]. right. by exists t_frag, k4, c4, v. }
  rewrite (try_mapping_none _ _ t_frag) by done. cbn [mbind result_bind].
  destruct (assert _); cbn [mbind result_bind]; [|done].
  intros [= <-]. left. split; [done|]. by intros [].
Qed.

Lemma foldlM_inv_in {A B} (P : B → Prop) (f : B → A → result B) (l : list A) (b b' : B) :
  (∀ b a b', a ∈ l → P b → f b a = Ok b' → P b') →
  P b → foldlM f b l = Ok b' → P b'.
Proof.
  revert b. induction l as [|a l IH]; intros b Hstep Hb; simpl.
  - by intros [= <-].
  - destruct (f b a) as [b1|e] eqn:E; simpl; [|done].
    apply IH.
    + intros ? ? ? Hin. apply Hstep. by right.
    + eapply Hstep; [by left|done|done].
Qed.

(** Something that a turn on [a] establishes and every turn keeps
    holds at the end. *)
Lemma foldlM_reach {A B} (Q : B → Prop) (f : B → A → result B) (a : A) (l : list A)
    (b b' : B) :
  a ∈ l →
  (∀ b b', f b a = Ok b' → Q b') →
  (∀ b a' b', Q b → f b a' = Ok b' → Q b') →
  foldlM f b l = Ok b' → Q b'.
Proof.
  intros Hin Hset Hkeep. revert b. induction l as [|a' l IH]; intros b; simpl.
  - by apply elem_of_nil in Hin.
  - destruct (f b a') as [b1|e] eqn:E; simpl; [|done].
    apply elem_of_cons in Hin as [<-|Hin].
    + apply foldlM_inv; [done|]. by eapply Hset.
    + by apply IH.
Qed.

Lemma decoded_typed (fields : list string) (line : string) (p : parsed) :
  _parse_result_row fields line = Ok p → typed_from fields p.
Proof.
  unfold _parse_result_row. destruct (assert _); simpl; [|done].
  apply foldlM_inv_in; [|by intros [] ? ?].
  intros p0 [sname value] p1 Hin Hp0 Hcol.
  apply elem_of_zip_l in Hin.
  apply parse_column_cases in Hcol as [[-> _]|(t & k & c & v & Hm & Hc & ->)]; [done|].
  intros t' k' v'. rewrite dict_of_store.
  destruct (decide _) as [[-> ->]|_]; [|by apply Hp0].
  intros [= <-]. exists sname, c. split_and!; [done..|]. by eapply cast_typed.
Qed.

Lemma decoded_holds (fields : list string) (line : string) (p : parsed) (sname : string) :
  _parse_result_row fields line = Ok p → sname ∈ fields → holds sname p.
Proof.
  unfold _parse_result_row.
  destruct (assert _) eqn:Ea; simpl; [|done].
  intros Hfold Hin.
  assert (∃ value, (sname, value) ∈ zip fields
            (Str.split (String Str.tab "") (Str.strip line))) as [value Hz].
  { unfold assert in Ea. destruct (Nat.eqb_spec (length fields)
      (length (Str.split (String Str.tab "") (Str.strip line)))) as [Hlen|]; [|done].
    apply list_elem_of_lookup in Hin as [i Hi].
    destruct (lookup_lt_is_Some_2 (Str.split (String Str.tab "") (Str.strip line)) i)
      as [value Hv].
    { rewrite <- Hlen. by eapply lookup_lt_Some. }
    exists value. apply list_elem_of_lookup. exists i.
    by rewrite lookup_zip_with, Hi, Hv. }
  revert Hfold. apply (foldlM_reach _ _ _ _ _ _ Hz).
  - intros p0 p1 Hcol t k c Hm.
    apply parse_column_cases in Hcol as [[_ Hn]|(t' & k' & c' & v & Hm' & _ & ->)].
    { by rewrite Hn in Hm. }
    assert (t' = t) as -> by (apply (tables_disjoint _ _ sname); by eauto).
    rewrite Hm in Hm'. injection Hm' as <- <-.
    rewrite dict_of_store. by rewrite decide_True.
  - intros p0 [sname' value'] p1 Hp0 Hcol t k c Hm.
    apply parse_column_cases in Hcol as [[-> _]|(t' & k' & c' & v & _ & _ & ->)].
    { by eapply Hp0. }
    rewrite dict_of_store. destruct (decide _); [done|]. by eapply Hp0.
Qed.

(** The value of [_get_id] on a dictionary whose items are typed and
    that holds the attribute of one of the three key columns. *)
Lemma get_id_string (d : pydict) :
  (∀ k v, k ∈ ["id"; "acc"; "acc_ver"] → d !! k = Some v → ∃ s, v = VStr s) →
  (∃ k, k ∈ ["id"; "acc"; "acc_ver"] ∧ is_Some (d !! k)) →
  ∃ s, _get_id d = VStr s.
Proof.
  intros Hty (k & Hk & Hs). unfold _get_id, Py.get.
  destruct (d !! "id") as [v1|] eqn:E1; simpl.
  { destruct (Hty "id" v1) as [s ->]; [repeat constructor|done|]. by eexists. }
  destruct (d !! "acc") as [v2|] eqn:E2; simpl.
  { destruct (Hty "acc" v2) as [s ->]; [repeat constructor|done|]. by eexists. }
  destruct (d !! "acc_ver") as [v3|] eqn:E3; simpl.
  { destruct (Hty "acc_ver" v3) as [s ->]; [repeat constructor|done|]. by eexists. }
  exfalso. set_unfold. destruct Hk as [->|[->|[->|[]]]]; rewrite ?E1, ?E2, ?E3 in Hs;
    by destruct Hs.
Qed.

End Decoded.

(** The key of a row decoded with a column list that holds a key
    column is a string, for the query and for the hit. *)
Lemma decoded_id (fields : list string) (line : string) (p : parsed)
    (t : BlastTabIterator.target) (required : list string) :
  (t = BlastTabIterator.t_qresult ∧ required = ["qseqid"; "qacc"; "qaccver"]
   ∨ t = BlastTabIterator.t_hit ∧ required = ["sseqid"; "sacc"; "saccver"]) →
  BlastTabIterator._parse_result_row fields line = Ok p →
  has_column required fields →
  ∃ s, BlastTabIterator._get_id (dict_of t p) = VStr s.
Proof.
  intros Ht Hp (f & Hf & Hr).
  pose proof (decoded_typed _ _ _ Hp) as Hty.
  pose proof (decoded_holds _ _ _ f Hp Hf) as Hh.
  apply get_id_string.
  - intros k v Hk Hv. destruct (Hty t k v Hv) as (sname & c & _ & Hm & Hc).
    assert (c = to_str) as ->; [|done].
    assert (map_Forall (fun _ (kc : string * caster) =>
                          (negb (bool_decide (kc.1 ∈ ["id"; "acc"; "acc_ver"]))
                           || match kc.2 with to_str => true | _ => false end) = true)
              (BlastTabIterator.mapping_of t)) as Hall.
    { destruct Ht as [[-> _] | [-> _]]; apply (bool_decide_unpack _); by vm_compute. }
    specialize (Hall sname (k, c) Hm). cbn [fst snd] in Hall.
    rewrite (bool_decide_eq_true_2 _ Hk) in Hall. by destruct c.
  - assert (∃ k, k ∈ ["id"; "acc"; "acc_ver"]
                 ∧ BlastTabIterator.mapping_of t !! f = Some (k, to_str)) as (k & Hk & Hm).
    { destruct Ht as [[-> ->] | [-> ->]]; set_unfold;
        destruct Hr as [->|[->|[->|[]]]];
        [exists "id"|exists "acc"|exists "acc_ver"|exists "id"|exists "acc"|exists "acc_ver"];
        (split; [auto|by vm_compute]). }
    exists k. split; [done|]. by apply (Hh t k to_str).
Qed.

(** Every item of the four dictionaries of a decoded row (qresult,
    hit, hsp, frag) is the attribute of a column of the column list in
    the table of that dictionary, and has the type of the caster of the
    column: a str, an int or a float, never None.  Every column of the
    list that is in a table has its attribute set in the dictionary of
    that table. *)
Theorem decoded_row_typed (fields : list string) (line : string) (p : parsed) :
  BlastTabIterator._parse_result_row fields line = Ok p →
  (∀ t k v, dict_of t p !! k = Some v →
     ∃ sname c, sname ∈ fields ∧ BlastTabIterator.mapping_of t !! sname = Some (k, c)
                ∧ has_type c v)
  ∧ (∀ t sname k c, sname ∈ fields →
       BlastTabIterator.mapping_of t !! sname = Some (k, c) →
       is_Some (dict_of t p !! k)).
Proof.
  intros Hp. split.
  - by apply decoded_typed in Hp.
  - intros t sname k c Hin Hm. by apply (decoded_holds _ _ _ sname Hp Hin t k c).
Qed.

Lemma decoded_row_typed_witness :
  (∀ t k v, dict_of t reverse_prev !! k = Some v →
     ∃ sname c, sname ∈ Catalog._DEFAULT_FIELDS
                ∧ BlastTabIterator.mapping_of t !! sname = Some (k, c)
                ∧ has_type c v)
  ∧ (∀ t sname k c, sname ∈ Catalog._DEFAULT_FIELDS →
       BlastTabIterator.mapping_of t !! sname = Some (k, c) →
       is_Some (dict_of t reverse_prev !! k)).
Proof.
  apply (decoded_row_typed Catalog._DEFAULT_FIELDS reverse_row). vm_compute. reflexivity.
Defined.

(** Without a key column the key of a decoded row is None. *)
Lemma decoded_no_id (fields : list string) (line : string) (p : parsed)
    (t : BlastTabIterator.target) (required : list string) :
  (t = BlastTabIterator.t_qresult ∧ required = ["qseqid"; "qacc"; "qaccver"]
   ∨ t = BlastTabIterator.t_hit ∧ required = ["sseqid"; "sacc"; "saccver"]) →
  BlastTabIterator._parse_result_row fields line = Ok p →
  ¬ has_column required fields →
  BlastTabIterator._get_id (dict_of t p) = VNone.
Proof.
  intros Ht Hp Hno. apply decoded_typed in Hp.
  assert (∀ k, k ∈ ["id"; "acc"; "acc_ver"] → dict_of t p !! k = None) as Hnone.
  { intros k Hk. apply eq_None_not_Some. intros [v Hv].
    destruct (Hp t k v Hv) as (sname & c & Hin & Hm & _).
    apply Hno. exists sname. split; [done|].
    assert (map_Forall (fun sname (kc : string * caster) =>
                          (negb (bool_decide (kc.1 ∈ ["id"; "acc"; "acc_ver"]))
                           || bool_decide (sname ∈ required)) = true)
              (BlastTabIterator.mapping_of t)) as Hall.
    { destruct Ht as [[-> ->] | [-> ->]]; apply (bool_decide_unpack _); by vm_compute. }
    specialize (Hall sname (k, c) Hm). cbn [fst snd] in Hall.
    rewrite (bool_decide_eq_true_2 _ Hk) in Hall. by apply bool_decide_eq_true in Hall. }
  unfold BlastTabIterator._get_id, Py.get.
  rewrite !Hnone by repeat constructor. done.
Qed.

(** The key of a decoded row ([_get_id]: 'id', with 'acc' and 'acc_ver'
    as fallbacks) is a string when the column list has a key column,
    as every list that [_prep_fields] returns has, for the query and for
    the hit; it is None when the list has none. *)
Theorem row_keys_are_strings (fields : list string) (line : string) (p : parsed) :
  BlastTabIterator._parse_result_row fields line = Ok p →
  (has_column ["qseqid"; "qacc"; "qaccver"] fields →
   ∃ q, BlastTabIterator._get_id (p_qresult p) = VStr q)
  ∧ (¬ has_column ["qseqid"; "qacc"; "qaccver"] fields →
     BlastTabIterator._get_id (p_qresult p) = VNone)
  ∧ (has_column ["sseqid"; "sacc"; "saccver"] fields →
     ∃ h, BlastTabIterator._get_id (p_hit p) = VStr h)
  ∧ (¬ has_column ["sseqid"; "sacc"; "saccver"] fields →
     BlastTabIterator._get_id (p_hit p) = VNone).
Proof.
  intros Hp. split_and!.
  - intros Hq. by apply (decoded_id fields line p BlastTabIterator.t_qresult _ (or_introl (conj eq_refl eq_refl))).
  - apply (decoded_no_id fields line p BlastTabIterator.t_qresult); auto.
  - intros Hq. by apply (decoded_id fields line p BlastTabIterator.t_hit _ (or_intror (conj eq_refl eq_refl))).
  - apply (decoded_no_id fields line p BlastTabIterator.t_hit); auto.
Qed.

Lemma row_keys_are_strings_witness :
  (has_column ["qseqid"; "qacc"; "qaccver"] Catalog._DEFAULT_FIELDS →
   ∃ q, BlastTabIterator._get_id (p_qresult reverse_prev) = VStr q)
  ∧ (¬ has_column ["qseqid"; "qacc"; "qaccver"] Catalog._DEFAULT_FIELDS →
     BlastTabIterator._get_id (p_qresult reverse_prev) = VNone)
  ∧ (has_column ["sseqid"; "sacc"; "saccver"] Catalog._DEFAULT_FIELDS →
     ∃ h, BlastTabIterator._get_id (p_hit reverse_prev) = VStr h)
  ∧ (¬ has_column ["sseqid"; "sacc"; "saccver"] Catalog._DEFAULT_FIELDS →
     BlastTabIterator._get_id (p_hit reverse_prev) = VNone).
Proof.
  apply (row_keys_are_strings Catalog._DEFAULT_FIELDS reverse_row). vm_compute. reflexivity.
Defined.

(** ** The assembler as a grouping of rows *)

(** The maximal runs of a list: a new run starts at [b], after [a],
    where [cut a b] holds.  [runs_from cut a l] is the run that starts
    at [a] and the runs after it. *)
Fixpoint runs_from {A} (cut : A → A → bool) (a : A) (l : list A)
    : list A * list (list A) :=
  match l with
  | [] => ([a], [])
  | b :: l' =>
      let '(r, rs) := runs_from cut b l' in
      if cut a b then ([a], r :: rs) else (a :: r, rs)
  end.

Definition runs {A} (cut : A → A → bool) (l : list A) : list (list A) :=
  match l with
  | [] => []
  | a :: l' => let '(r, rs) := runs_from cut a l' in r :: rs
  end.

Lemma runs_from_head {A} (cut : A → A → bool) (a : A) (l : list A) :
  ∃ t, (runs_from cut a l).1 = a :: t.
Proof.
  destruct l as [|b l]; cbn [runs_from]; [by eexists|].
  destruct (runs_from cut b l) as [r rs]. destruct (cut a b); by eexists.
Qed.

Lemma runs_from_concat {A} (cut : A → A → bool) (a : A) (l : list A) :
  (runs_from cut a l).1 ++ concat (runs_from cut a l).2 = a :: l.
Proof.
  revert a. induction l as [|b l IH]; intros a; cbn [runs_from]; [done|].
  specialize (IH b). destruct (runs_from cut b l) as [r rs].
  destruct (cut a b); cbn [fst snd concat] in *; by rewrite <- IH.
Qed.

(** Nothing is lost and nothing is moved by cutting a list into runs. *)
Lemma runs_concat {A} (cut : A → A → bool) (l : list A) : concat (runs cut l) = l.
Proof.
  destruct l as [|a l]; [done|]. unfold runs.
  pose proof (runs_from_concat cut a l) as H.
  by destruct (runs_from cut a l).
Qed.

(** The last element of the non-empty list [x :: t]. *)
Fixpoint last_of {A} (x : A) (t : list A) : A :=
  match t with
  | [] => x
  | y :: t' => last_of y t'
  end.

Definition qcut (a b : keyed) : bool := Py.ne (qkey a) (qkey b).
Definition hcut (a b : keyed) : bool := Py.ne (hkey a) (hkey b).

Section Grouping.

Import Assembler.

Variable is_row : string → bool.
Variable parse_row : string → result parsed.
Variable row_qid row_hid : parsed → result pyval.
Variable make_frag : pyval → pyval → parsed → result HSPFragment.
Variable next_line : string → string.

(** The HSP of a row. *)
Definition hsp_of (x : keyed) : HSP :=
  match make_frag (hkey x) (qkey x) (row x) with
  | Ok f => mkHSP [f] (Py.setattrs (p_hsp (row x)) ∅)
  | Raise _ => mkHSP [] ∅
  end.

(** The Hit of a run of rows of one hit: it has one HSP per row, after
    the HSPs [sl] that are pending, and the attributes of the last row. *)
Definition hit_of_run (sl : list HSP) (run : list keyed) : Hit :=
  match run with
  | [] => mkHit sl ∅
  | x :: t =>
      let z := last_of x t in
      let hsps := sl ++ (hsp_of <$> run) in
      mkHit hsps (Py.setattrs (p_hit (row z))
                    (hit_attrs (Obj.new_hit (hkey z) (qkey z) hsps)))
  end.

(** The Query of a run of rows of one query: one Hit per run of rows of
    one hit, after the Hits [hl] that are pending, and the attributes of
    the last row. *)
Definition query_of_run (hl : list Hit) (sl : list HSP) (run : list keyed) : QueryResult :=
  match run with
  | [] => mkQuery hl ∅
  | x :: t =>
      let '(hr, hrs) := runs_from hcut x t in
      closed_query (last_of x t) (hl ++ hit_of_run sl hr :: (hit_of_run [] <$> hrs))
  end.

(** The Queries of a stream of rows. *)
Definition assembled (rows : list keyed) : list QueryResult :=
  query_of_run [] [] <$> runs qcut rows.

Lemma hsp_of_built (x : keyed) (f : HSPFragment) :
  make_frag (hkey x) (qkey x) (row x) = Ok f →
  hsp_of x = mkHSP [f] (Py.setattrs (p_hsp (row x)) ∅).
Proof. intros H. unfold hsp_of. by rewrite H. Qed.

Lemma closed_hit_run (x : keyed) (f : HSPFragment) (sl : list HSP) :
  make_frag (hkey x) (qkey x) (row x) = Ok f →
  closed_hit x f sl = hit_of_run sl [x].
Proof.
  intros H. unfold closed_hit, hsps_with, hit_of_run. cbn [last_of fmap list_fmap].
  by rewrite (hsp_of_built x f H).
Qed.

Lemma hit_of_run_cons (x : keyed) (f : HSPFragment) (sl : list HSP) (y : keyed)
    (t : list keyed) :
  make_frag (hkey x) (qkey x) (row x) = Ok f →
  hit_of_run (hsps_with x f sl) (y :: t) = hit_of_run sl (x :: y :: t).
Proof.
  intros H. unfold hit_of_run, hsps_with.
  rewrite (fmap_cons hsp_of x), (hsp_of_built x f H).
  cbn [last_of]. by rewrite <- !(assoc_L (++)).
Qed.

(** At the end of the rows the pending hit is closed, since the keys
    of a row are not None. *)
Lemma iteration_at_end_keyed (x : keyed) (f : HSPFragment) pv pq ph hl sl (line : string) :
  is_row line = false →
  make_frag (hkey x) (qkey x) (row x) = Ok f →
  qkey x ≠ VNone →
  ∃ st',
    iteration is_row parse_row row_qid row_hid make_frag
      (mkState (Some (row x)) (qkey x) (hkey x) pv pq ph false hl sl) line
    = Ok (st', Some (closed_query x (hl ++ [closed_hit x f sl])), true).
Proof.
  intros Hrow Hf Hk. unfold iteration, advance, shift. simpl. rewrite Hrow. simpl.
  rewrite Hf. simpl. rewrite orb_true_r. simpl.
  unfold hit_new, qres_new. simpl.
  assert (Py.ne (qkey x) VNone = true) as ->.
  { unfold Py.ne, Py.eqb. by destruct (qkey x). }
  rewrite orb_true_r. by eexists.
Qed.

Definition queries_from (hl : list Hit) (sl : list HSP) (x : keyed) (rows : list keyed)
    : list QueryResult :=
  let '(qr, qrs) := runs_from qcut x rows in
  query_of_run hl sl qr :: (query_of_run [] [] <$> qrs).

Lemma loop_groups (rows : list keyed) (extra : nat) :
  ∀ (x : keyed) (pv : option parsed) (pq ph : pyval) (hl : list Hit) (sl : list HSP)
    (line : string) (h : handle),
    feeds is_row parse_row row_qid row_hid next_line line h rows →
    buildable make_frag x → Forall (buildable make_frag) rows →
    qkey x ≠ VNone → Forall (fun y => qkey y ≠ VNone) rows →
    ∃ rest,
      loop is_row parse_row row_qid row_hid make_frag next_line (S (length rows + extra))
        (mkState (Some (row x)) (qkey x) (hkey x) pv pq ph false hl sl) line h
      = (Run (queries_from hl sl x rows) Exhausted, rest).
Proof.
  induction rows as [|y rows IH];
    intros x pv pq ph hl sl line h Hfeeds [f Hf] Hbuild Hx Hkeys.
  - inversion Hfeeds as [? ? Hrow|]; subst.
    rewrite loop_S.
    destruct (iteration_at_end_keyed x f pv pq ph hl sl line Hrow Hf Hx) as (st' & ->).
    eexists. unfold queries_from, query_of_run. cbn [runs_from last_of fmap list_fmap emit].
    by rewrite (closed_hit_run x f sl Hf).
  - inversion Hfeeds as [|? ? ? ? Hrow Hparse Hq Hh Hnext]; subst.
    apply Forall_cons in Hbuild as [Hby Hbuild]. apply Forall_cons in Hkeys as [Hy Hkeys].
    cbn [length Nat.add]. rewrite loop_S.
    rewrite (iteration_at_row _ _ _ _ _ x y f pv pq ph hl sl line Hrow Hparse Hq Hh Hf).
    destruct (readline h) as [l h'] eqn:Er. cbn [fst snd] in Hnext.
    unfold queries_from. cbn [runs_from].
    destruct (runs_from_head qcut y rows) as [qt Hqt].
    fold (qcut x y).
    destruct (qcut x y) eqn:Eq.
    + destruct (IH y (Some (row x)) (qkey x) (hkey x) [] [] (next_line l) h'
                  Hnext Hby Hbuild Hy Hkeys) as (rest & ->).
      exists rest. unfold queries_from.
      destruct (runs_from qcut y rows) as [qr qrs].
      unfold emit, yield_first. cbn [yielded stopped].
      do 2 f_equal. rewrite fmap_cons. f_equal.
      unfold query_of_run. cbn [runs_from last_of fmap list_fmap].
      by rewrite (closed_hit_run x f sl Hf).
    + fold (hcut x y). destruct (hcut x y) eqn:Eh.
      * destruct (IH y (Some (row x)) (qkey x) (hkey x) (hl ++ [closed_hit x f sl]) []
                    (next_line l) h' Hnext Hby Hbuild Hy Hkeys) as (rest & ->).
        exists rest. unfold queries_from.
        destruct (runs_from qcut y rows) as [qr qrs]. cbn [fst] in Hqt. subst qr.
        cbn [emit]. do 2 f_equal. f_equal.
        unfold query_of_run. cbn [runs_from last_of].
        destruct (runs_from hcut y qt) as [hr hrs]. rewrite Eh.
        rewrite (closed_hit_run x f sl Hf). rewrite fmap_cons.
        rewrite <- !(assoc_L (++)). done.
      * destruct (IH y (Some (row x)) (qkey x) (hkey x) hl (hsps_with x f sl)
                    (next_line l) h' Hnext Hby Hbuild Hy Hkeys) as (rest & ->).
        exists rest. unfold queries_from.
        destruct (runs_from qcut y rows) as [qr qrs]. cbn [fst] in Hqt. subst qr.
        cbn [emit]. do 2 f_equal. f_equal.
        unfold query_of_run. cbn [runs_from last_of].
        destruct (runs_from_head hcut y qt) as [ht Hht].
        destruct (runs_from hcut y qt) as [hr hrs]. cbn [fst] in Hht. subst hr.
        rewrite Eh. by rewrite (hit_of_run_cons x f sl y ht Hf).
Qed.

(** From the start of the loop. *)
Lemma loop_assembles (rows : list keyed) (extra : nat) (line : string) (h : handle) :
  rows ≠ [] →
  feeds is_row parse_row row_qid row_hid next_line line h rows →
  Forall (buildable make_frag) rows →
  Forall (fun y => qkey y ≠ VNone) rows →
  ∃ rest,
    loop is_row parse_row row_qid row_hid make_frag next_line (S (length rows + extra))
      init line h
    = (Run (assembled rows) Exhausted, rest).
Proof.
  destruct rows as [|x rows]; [done|]. intros _ Hfeeds Hbuild Hkeys.
  inversion Hfeeds as [|? ? ? ? Hrow Hparse Hq Hh Hnext]; subst.
  apply Forall_cons in Hbuild as [Hbx Hbuild]. apply Forall_cons in Hkeys as [Hx Hkeys].
  cbn [length Nat.add]. rewrite loop_S.
  rewrite (iteration_first _ _ _ _ _ x line Hrow Hparse Hq Hh).
  destruct (readline h) as [l h'] eqn:Er. cbn [fst snd] in Hnext.
  destruct (loop_groups rows extra x None VNone VNone [] [] (next_line l) h'
              Hnext Hbx Hbuild Hx Hkeys) as (rest & ->).
  exists rest. unfold assembled, runs, queries_from.
  by destruct (runs_from qcut x rows).
Qed.

(** The HSPs of the Queries assembled, in order, are the HSPs of the
    rows, in order. *)
Lemma hit_of_run_hsps (sl : list HSP) (run : list keyed) :
  hit_hsps (hit_of_run sl run) = sl ++ (hsp_of <$> run).
Proof. destruct run; cbn [hit_of_run hit_hsps]; [by rewrite fmap_nil, app_nil_r|done]. Qed.

Lemma query_of_run_hsps (run : list keyed) :
  qr_hits (query_of_run [] [] run) ≫= hit_hsps = hsp_of <$> run.
Proof.
  destruct run as [|x t]; [done|]. unfold query_of_run.
  pose proof (runs_from_concat hcut x t) as Hc.
  destruct (runs_from hcut x t) as [hr hrs]. cbn [fst snd] in Hc.
  cbn [closed_query qr_hits app]. rewrite bind_cons, hit_of_run_hsps. cbn [app].
  rewrite <- Hc, fmap_app. f_equal.
  clear. induction hrs as [|r rs IH]; [done|].
  rewrite fmap_cons, bind_cons, hit_of_run_hsps. cbn [app concat].
  by rewrite fmap_app, IH.
Qed.

Lemma assembled_hsps (rows : list keyed) :
  (assembled rows ≫= qr_hits) ≫= hit_hsps = hsp_of <$> rows.
Proof.
  unfold assembled. rewrite <- (runs_concat qcut rows) at 2.
  induction (runs qcut rows) as [|r rs IH]; [done|].
  rewrite fmap_cons, bind_cons, bind_app, query_of_run_hsps. cbn [concat].
  by rewrite fmap_app, IH.
Qed.

End Grouping.

Section FedRows.

Variable is_row : string → bool.
Variable parse_row : string → result parsed.
Variable row_qid row_hid : parsed → result pyval.
Variable next_line : string → string.

(** Every row that is fed was decoded from a line and carries the keys
    of its dictionaries. *)
Lemma feeds_keys (line : string) (h : handle) (rows : list keyed) :
  feeds is_row parse_row row_qid row_hid next_line line h rows →
  Forall (fun x => (∃ l, parse_row l = Ok (row x))
                   ∧ row_qid (row x) = Ok (qkey x)
                   ∧ row_hid (row x) = Ok (hkey x)) rows.
Proof. induction 1; constructor; eauto. Qed.

End FedRows.

Lemma hmmer_row_ids (hmm_as_hit : bool) (line : string) (r : parsed) :
  HmmerDomtabIterator.parse_result_row hmm_as_hit line = Ok r →
  ∃ q h, p_qresult r !! "id" = Some (VStr q) ∧ p_hit r !! "id" = Some (VStr h).
Proof.
  unfold HmmerDomtabIterator.parse_result_row. intros H.
  repeat (apply bind_Ok in H as (? & _ & H)).
  injection H as <-. simpl. eexists _, _. by simplify_map_eq.
Qed.

Lemma blast_query_keys (fields : list string) (line : string) (h : handle)
    (rows : list keyed) :
  has_column ["qseqid"; "qacc"; "qaccver"] fields →
  blast_feeds fields line h rows →
  Forall (fun x => qkey x ≠ VNone) rows.
Proof.
  intros Hq Hfeeds. apply feeds_keys in Hfeeds.
  eapply Forall_impl; [exact Hfeeds|]. intros x ((l & Hl) & [= Hk] & _).
  destruct (decoded_id fields l (row x) BlastTabIterator.t_qresult _
              (or_introl (conj eq_refl eq_refl)) Hl Hq) as [s Hs].
  cbn [dict_of] in Hs. by rewrite <- Hk, Hs.
Qed.

Lemma hmmer_query_keys (hmm_as_hit : bool) (line : string) (h : handle)
    (rows : list keyed) :
  hmmer_feeds hmm_as_hit line h rows →
  Forall (fun x => qkey x ≠ VNone) rows.
Proof.
  intros Hfeeds. apply feeds_keys in Hfeeds.
  eapply Forall_impl; [exact Hfeeds|]. intros x ((l & Hl) & Hk & _).
  apply hmmer_row_ids in Hl as (q & _ & Hq & _).
  unfold Py.getitem in Hk. rewrite Hq in Hk. by injection Hk as <-.
Qed.

(** The Queries yielded are the rows cut into runs.  The rows are cut
    where the query key changes, one Query per run; the rows of a Query
    are cut where the hit key changes, one Hit per run; a Hit has one
    HSP per row of its run, in the order of the rows; a Hit and a Query
    get the attributes of the last row of their run.  Rows of one key
    that are apart give separate Queries or Hits.  (The BLAST column
    list has a query-key column, as [_prep_fields] makes sure, and the
    fragment of each BLAST row builds.) *)
Theorem rows_grouped_into_queries (fields : list string) (hmm_as_hit : bool)
    (blast_rows hmmer_rows : list keyed) (extra : nat)
    (blast_line hmmer_line : string) (blast_rest hmmer_rest : handle) :
  has_column ["qseqid"; "qacc"; "qaccver"] fields →
  blast_rows ≠ [] →
  blast_feeds fields blast_line blast_rest blast_rows →
  Forall (buildable BlastTabIterator.make_frag) blast_rows →
  hmmer_rows ≠ [] →
  hmmer_feeds hmm_as_hit hmmer_line hmmer_rest hmmer_rows →
  (∃ rest,
     BlastTabIterator._parse_qresult fields (S (length blast_rows + extra))
       blast_line blast_rest
     = (Run (assembled BlastTabIterator.make_frag blast_rows) Exhausted, rest))
  ∧ (∃ rest,
       HmmerDomtabIterator.parse_qresult hmm_as_hit (S (length hmmer_rows + extra))
         hmmer_line hmmer_rest
       = (Run (assembled HmmerDomtabIterator.make_frag hmmer_rows) Exhausted, rest)).
Proof.
  intros Hq Hb Hbf Hbb Hh Hhf. split.
  - apply loop_assembles; [done..|]. by eapply blast_query_keys.
  - apply loop_assembles; [done..|apply hmmer_buildable|]. by eapply hmmer_query_keys.
Qed.

Lemma rows_grouped_into_queries_witness :
  (∃ rest,
     BlastTabIterator._parse_qresult Catalog._DEFAULT_FIELDS 5
       (Str.strip (hd "" (lines_of plain_sample))) (tl (lines_of plain_sample))
     = (Run (assembled BlastTabIterator.make_frag plain_rows) Exhausted, rest))
  ∧ (∃ rest,
       HmmerDomtabIterator.parse_qresult true 3
         (hd "" (lines_of domtab_sample)) (tl (lines_of domtab_sample))
       = (Run (assembled HmmerDomtabIterator.make_frag domtab_rows) Exhausted, rest)).
Proof.
  apply (rows_grouped_into_queries Catalog._DEFAULT_FIELDS true plain_rows domtab_rows 0
           _ _ _ _).
  - exists "qseqid". split; repeat constructor.
  - discriminate.
  - exact plain_sample_feeds.
  - exact plain_rows_buildable.
  - discriminate.
  - exact domtab_sample_feeds.
Defined.

(** No row is lost, repeated or moved: the HSPs of all Hits of all
    Queries yielded, in the order in which they are yielded, are the
    HSPs of the rows, one per row, in the order of the rows. *)
Theorem hsps_in_row_order (fields : list string) (hmm_as_hit : bool)
    (blast_rows hmmer_rows : list keyed) (extra : nat)
    (blast_line hmmer_line : string) (blast_rest hmmer_rest : handle) :
  has_column ["qseqid"; "qacc"; "qaccver"] fields →
  blast_rows ≠ [] →
  blast_feeds fields blast_line blast_rest blast_rows →
  Forall (buildable BlastTabIterator.make_frag) blast_rows →
  hmmer_rows ≠ [] →
  hmmer_feeds hmm_as_hit hmmer_line hmmer_rest hmmer_rows →
  (∃ qs rest,
     BlastTabIterator._parse_qresult fields (S (length blast_rows + extra))
       blast_line blast_rest = (Run qs Exhausted, rest)
     ∧ (qs ≫= qr_hits) ≫= hit_hsps = hsp_of BlastTabIterator.make_frag <$> blast_rows
     ∧ length ((qs ≫= qr_hits) ≫= hit_hsps) = length blast_rows)
  ∧ (∃ qs rest,
       HmmerDomtabIterator.parse_qresult hmm_as_hit (S (length hmmer_rows + extra))
         hmmer_line hmmer_rest = (Run qs Exhausted, rest)
       ∧ (qs ≫= qr_hits) ≫= hit_hsps = hsp_of HmmerDomtabIterator.make_frag <$> hmmer_rows
       ∧ length ((qs ≫= qr_hits) ≫= hit_hsps) = length hmmer_rows).
Proof.
  intros Hq Hb Hbf Hbb Hh Hhf. split.
  - destruct (loop_assembles _ _ _ _ BlastTabIterator.make_frag _ blast_rows extra
                blast_line blast_rest Hb Hbf Hbb) as [rest Hrun].
    { by eapply blast_query_keys. }
    eexists _, rest. split; [exact Hrun|]. rewrite assembled_hsps.
    split; [done|by rewrite length_fmap].
  - destruct (loop_assembles _ _ _ _ HmmerDomtabIterator.make_frag _ hmmer_rows extra
                hmmer_line hmmer_rest Hh Hhf (hmmer_buildable _)) as [rest Hrun].
    { by eapply hmmer_query_keys. }
    eexists _, rest. split; [exact Hrun|]. rewrite assembled_hsps.
    split; [done|by rewrite length_fmap].
Qed.

Lemma hsps_in_row_order_witness :
  (∃ qs rest,
     BlastTabIterator._parse_qresult Catalog._DEFAULT_FIELDS 5
       (Str.strip (hd "" (lines_of plain_sample))) (tl (lines_of plain_sample))
     = (Run qs Exhausted, rest)
     ∧ (qs ≫= qr_hits) ≫= hit_hsps = hsp_of BlastTabIterator.make_frag <$> plain_rows
     ∧ length ((qs ≫= qr_hits) ≫= hit_hsps) = length plain_rows)
  ∧ (∃ qs rest,
       HmmerDomtabIterator.parse_qresult true 3
         (hd "" (lines_of domtab_sample)) (tl (lines_of domtab_sample))
       = (Run qs Exhausted, rest)
       ∧ (qs ≫= qr_hits) ≫= hit_hsps = hsp_of HmmerDomtabIterator.make_frag <$> domtab_rows
       ∧ length ((qs ≫= qr_hits) ≫= hit_hsps) = length domtab_rows).
Proof.
  apply (hsps_in_row_order Catalog._DEFAULT_FIELDS true plain_rows domtab_rows 0
           _ _ _ _).
  - exists "qseqid". split; repeat constructor.
  - discriminate.
  - exact plain_sample_feeds.
  - exact plain_rows_buildable.
  - discriminate.
  - exact domtab_sample_feeds.
Defined.

(** ** The index of a file without comments *)

Section Lines.

#[local] Arguments String.append : simpl nomatch.

Lemma len_append (a b : string) : Str.len (a +:+ b) = (Str.len a + Str.len b)%nat.
Proof. unfold Str.len. induction a as [|c a IH]; simpl; [done|]. by rewrite IH. Qed.

Lemma drop_append (a b : string) : Str.drop (Str.len a) (a +:+ b) = b.
Proof. induction a as [|c a IH]; simpl; [by destruct b|done]. Qed.

Lemma substring_append (a b : string) :
  String.substring 0 (Str.len a) (a +:+ b) = a.
Proof. induction a as [|c a IH]; simpl; [by destruct b|]. by rewrite IH. Qed.

Lemma substring_drop (n m : nat) (s : string) :
  String.substring n m s = String.substring 0 m (Str.drop n s).
Proof.
  revert s. induction n as [|n IH]; intros s; [done|].
  destruct s as [|c s]; simpl; [by destruct m|]. apply IH.
Qed.

Lemma bytes_of_app (a b : list string) : bytes_of (a ++ b) = bytes_of a +:+ bytes_of b.
Proof.
  induction a as [|l a IH]; simpl; [done|].
  by rewrite IH, append_assoc.
Qed.

(** A line with its newline, and a line or a last line without one. *)
Fixpoint complete (s : string) : bool :=
  match s with
  | EmptyString => false
  | String c EmptyString => Ascii.eqb c Str.nl
  | String c s' => negb (Ascii.eqb c Str.nl) && complete s'
  end.

Fixpoint line_shape (s : string) : bool :=
  match s with
  | EmptyString => false
  | String c EmptyString => true
  | String c s' => negb (Ascii.eqb c Str.nl) && line_shape s'
  end.

Fixpoint is_lines (ls : list string) : bool :=
  match ls with
  | [] => true
  | l :: ls' =>
      match ls' with [] => line_shape l | _ :: _ => complete l end && is_lines ls'
  end.

Lemma complete_shape (s : string) : complete s = true → line_shape s = true.
Proof.
  induction s as [|c s IH]; [done|]. simpl. destruct s as [|c' s]; [done|].
  intros [Hc Hs]%andb_prop. by rewrite Hc, IH.
Qed.

Lemma line_shape_nonempty (s : string) : line_shape s = true → Str.nonempty s = true.
Proof. by destruct s. Qed.

Lemma rev_string_snoc (acc : list ascii) (c : ascii) (s : string) :
  Str.rev_string (c :: acc) +:+ s = Str.rev_string acc +:+ String c s.
Proof.
  unfold Str.rev_string. simpl. generalize (rev acc). intros a.
  induction a as [|x a IH]; simpl; [done|]. by rewrite IH.
Qed.

Lemma lines_go_cons (acc : list ascii) (c : ascii) (s : string) :
  lines_go acc (String c s)
  = if Ascii.eqb c Str.nl then Str.rev_string (c :: acc) :: lines_go [] s
    else lines_go (c :: acc) s.
Proof. done. Qed.

Lemma lines_go_complete (l s : string) (acc : list ascii) :
  complete l = true →
  lines_go acc (l +:+ s) = (Str.rev_string acc +:+ l) :: lines_go [] s.
Proof.
  revert acc. induction l as [|c l IH]; intros acc; [done|].
  cbn [complete]. destruct l as [|c' l].
  - intros Hc. change (String c "" +:+ s) with (String c s). rewrite lines_go_cons.
    rewrite Hc. by rewrite <- rev_string_snoc, append_nil_r.
  - intros [Hc Hl]%andb_prop. apply negb_true_iff in Hc.
    change (String c (String c' l) +:+ s) with (String c (String c' l +:+ s)).
    rewrite lines_go_cons. rewrite Hc. rewrite (IH _ Hl). by rewrite rev_string_snoc.
Qed.

Lemma lines_go_shape (l : string) (acc : list ascii) :
  line_shape l = true → lines_go acc l = [Str.rev_string acc +:+ l].
Proof.
  revert acc. induction l as [|c l IH]; intros acc; [done|].
  cbn [line_shape]. destruct l as [|c' l].
  - intros _. rewrite lines_go_cons. cbn [lines_go]. destruct (Ascii.eqb c Str.nl).
    + by rewrite <- rev_string_snoc, append_nil_r.
    + by rewrite <- rev_string_snoc, append_nil_r.
  - intros [Hc Hl]%andb_prop. apply negb_true_iff in Hc.
    rewrite lines_go_cons. rewrite Hc.
    rewrite (IH _ Hl). by rewrite rev_string_snoc.
Qed.

(** Lines of that shape are the lines of their bytes. *)
Lemma lines_of_bytes (ls : list string) :
  is_lines ls = true → lines_of (bytes_of ls) = ls.
Proof.
  induction ls as [|l ls IH]; [done|]. cbn [is_lines].
  intros [Hl Hls]%andb_prop. cbn [bytes_of foldr]. fold (bytes_of ls).
  destruct ls as [|l' ls].
  - cbn [bytes_of foldr]. rewrite append_nil_r. unfold lines_of.
    by rewrite (lines_go_shape _ _ Hl).
  - unfold lines_of. rewrite (lines_go_complete _ _ _ Hl).
    fold (lines_of (bytes_of (l' :: ls))). by rewrite (IH Hls).
Qed.

Definition no_nl (acc : list ascii) : bool :=
  forallb (fun c => negb (Ascii.eqb c Str.nl)) acc.

Lemma shape_of_acc (acc : list ascii) (c : ascii) :
  no_nl acc = true →
  line_shape (Str.rev_string (c :: acc)) = true
  ∧ (Ascii.eqb c Str.nl = true → complete (Str.rev_string (c :: acc)) = true).
Proof.
  unfold Str.rev_string, no_nl. cbn [rev]. intros H.
  assert (forallb (fun c => negb (Ascii.eqb c Str.nl)) (rev acc) = true) as Hr.
  { rewrite forallb_forall in *. intros x Hx. apply H. by apply in_rev. }
  clear H. induction (rev acc) as [|x a IH]; [by split|].
  cbn [forallb] in Hr. apply andb_prop in Hr as [Hx Ha]. destruct (IH Ha) as [IH1 IH2].
  cbn [app string_of_list_ascii line_shape complete].
  destruct (string_of_list_ascii (a ++ [c])) eqn:E.
  { by destruct a. }
  rewrite Hx. split; [done|]. intros Hc. by apply IH2.
Qed.

(** The lines of a file have that shape, and a file is its lines one
    after the other. *)
Lemma lines_go_spec (s : string) :
  ∀ acc, no_nl acc = true →
    is_lines (lines_go acc s) = true
    ∧ bytes_of (lines_go acc s) = Str.rev_string acc +:+ s.
Proof.
  induction s as [|c s IH]; intros acc Hacc.
  - cbn [lines_go]. destruct acc as [|c acc]; [done|].
    apply andb_prop in Hacc as [_ Hacc].
    destruct (shape_of_acc acc c Hacc) as [Hs _].
    cbn [is_lines bytes_of foldr]. by rewrite Hs, append_nil_r.
  - rewrite lines_go_cons. destruct (Ascii.eqb c Str.nl) eqn:Hc.
    + destruct (IH [] eq_refl) as [IH1 IH2].
      destruct (shape_of_acc acc c Hacc) as [Hs Hcomp].
      cbn [is_lines bytes_of foldr]. fold (bytes_of (lines_go [] s)).
      rewrite IH2, IH1. split.
      * destruct (lines_go [] s); [by rewrite Hs|by rewrite Hcomp].
      * change (Str.rev_string [] +:+ s) with s. apply rev_string_snoc.
    + destruct (IH (c :: acc)) as [IH1 IH2].
      { cbn [no_nl forallb]. by rewrite Hc. }
      split; [done|]. by rewrite IH2, rev_string_snoc.
Qed.

Lemma is_lines_app (a b : list string) : is_lines (a ++ b) = true → is_lines b = true.
Proof.
  induction a as [|l a IH]; [done|]. cbn [app is_lines].
  intros [_ H]%andb_prop. by apply IH.
Qed.

Lemma is_lines_nonempty (ls : list string) :
  is_lines ls = true → Forall (fun l => Str.nonempty l = true) ls.
Proof.
  induction ls as [|l ls IH]; [by constructor|]. cbn [is_lines].
  intros [Hl Hls]%andb_prop. constructor; [|by apply IH].
  apply line_shape_nonempty. destruct ls; [done|by apply complete_shape].
Qed.

(** Seeking past the first lines of a file leaves the lines after
    them; the bytes from there on start with those lines. *)
Lemma lines_after (content : string) (pre post : list string) :
  lines_of content = pre ++ post →
  lines_of (Str.drop (Str.len (bytes_of pre)) content) = post
  ∧ ∀ blk rest, post = blk ++ rest →
      String.substring (Str.len (bytes_of pre)) (Str.len (bytes_of blk)) content
      = bytes_of blk.
Proof.
  intros Hl. destruct (lines_go_spec content [] eq_refl) as [Hs Hb].
  fold (lines_of content) in Hs, Hb. rewrite Hl in Hs, Hb.
  change (Str.rev_string [] +:+ content) with content in Hb.
  rewrite bytes_of_app in Hb. rewrite <- Hb. split.
  - rewrite drop_append. apply lines_of_bytes. by eapply is_lines_app.
  - intros blk rest ->. rewrite substring_drop, drop_append, bytes_of_app.
    apply substring_append.
Qed.

End Lines.

Section PlainIndex.

Import BlastTabIndexer.

#[local] Arguments String.append : simpl nomatch.

Variable key_idx : nat.

Abbreviation ckey := (curr_key_of key_idx).

(** A new block starts at the line [b], after the line [a], when the
    key columns of the two differ. *)
Definition kcut (a b : string) : bool := negb (String.eqb (ckey b) (ckey a)).

(** The triples of some blocks of lines that lie one after the other
    from the offset [off] on: the key of the first line, the offset,
    the number of bytes. *)
Fixpoint triples_of (off : nat) (blocks : list (list string)) : list triple :=
  match blocks with
  | [] => []
  | b :: bs =>
      (ckey (hd "" b), off, Str.len (bytes_of b))
      :: triples_of (off + Str.len (bytes_of b)) bs
  end.

(** The line has the key column, and the key is not empty. *)
Definition keyed_line (l : string) : Prop := ∃ k, key_of key_idx l = Ok k ∧ k ≠ "".

Lemma keyed_line_ckey (l : string) : keyed_line l → ckey l ≠ "".
Proof. intros (k & Hk & Hne). unfold curr_key_of. by rewrite Hk. Qed.

Lemma ckey_empty : ckey "" = "".
Proof. unfold curr_key_of, key_of, Str.item. cbn. by destruct key_idx as [|[|?]]. Qed.

Lemma iter_plain_nil (key : option string) (start end_ : nat) :
  iter_plain key_idx key start end_ []
  = match (match key with
           | None => k ← key_of key_idx ""; Ok (None, k, start)
           | Some qresult_key =>
               if negb (String.eqb (ckey "") qresult_key)
               then Ok (Some (qresult_key, start, (end_ - start)%nat), ckey "", end_)
               else Ok (None, qresult_key, start)
           end) with
    | Raise e => Run [] (Raised e)
    | Ok (Some t, _, _) => yield_first t (Run [] Exhausted)
    | Ok (None, _, _) => Run [] Exhausted
    end.
Proof.
  destruct key as [k|]; cbn [iter_plain readline fst].
  - by destruct (negb _).
  - by destruct (key_of key_idx "").
Qed.

Lemma iter_plain_cons (key : option string) (start end_ : nat) (l : string)
    (h : list string) :
  Str.nonempty l = true →
  iter_plain key_idx key start end_ (l :: h)
  = match (match key with
           | None => k ← key_of key_idx l; Ok (None, k, start)
           | Some qresult_key =>
               if negb (String.eqb (ckey l) qresult_key)
               then Ok (Some (qresult_key, start, (end_ - start)%nat), ckey l, end_)
               else Ok (None, qresult_key, start)
           end) with
    | Raise e => Run [] (Raised e)
    | Ok (Some t, key, start) =>
        yield_first t (iter_plain key_idx (Some key) start (end_ + Str.len l) h)
    | Ok (None, key, start) => iter_plain key_idx (Some key) start (end_ + Str.len l) h
    end.
Proof.
  intros Hl. destruct key as [k|]; cbn [iter_plain readline fst]; rewrite Hl.
  - by destruct (negb _).
  - by destruct (key_of key_idx l).
Qed.

Lemma len_line (l : string) : Str.len (bytes_of [l]) = Str.len l.
Proof. cbn [bytes_of foldr]. by rewrite append_nil_r. Qed.

Lemma hd_key (pre : list string) (x : string) (t : list string) :
  Forall (fun l => ckey l = ckey x) pre → ckey (hd "" (pre ++ x :: t)) = ckey x.
Proof. destruct pre as [|p pre]; [done|]. intros [H _]%Forall_cons. exact H. Qed.

Lemma iter_plain_from (h : list string) :
  ∀ (x : string) (pre : list string) (off : nat),
    Forall (fun l => Str.nonempty l = true) h →
    ckey x ≠ "" →
    Forall (fun l => ckey l ≠ "") h →
    Forall (fun l => ckey l = ckey x) pre →
    iter_plain key_idx (Some (ckey x)) off (off + Str.len (bytes_of (pre ++ [x]))) h
    = Run (triples_of off (let '(r, rs) := runs_from kcut x h in (pre ++ r) :: rs))
          Exhausted.
Proof.
  induction h as [|l h IH]; intros x pre off Hne Hx Hks Hpre.
  - rewrite iter_plain_nil, ckey_empty.
    assert (String.eqb "" (ckey x) = false) as ->.
    { apply String.eqb_neq. by intros E. }
    cbn [negb runs_from triples_of]. unfold yield_first. cbn [yielded stopped app].
    rewrite (hd_key pre x [] Hpre). do 3 f_equal. lia.
  - apply Forall_cons in Hne as [Hl Hne]. apply Forall_cons in Hks as [Hlk Hks].
    rewrite (iter_plain_cons _ _ _ _ _ Hl). cbn [runs_from].
    change (negb (String.eqb (ckey l) (ckey x))) with (kcut x l).
    destruct (kcut x l) eqn:E.
    2:{ apply negb_false_iff, String.eqb_eq in E.
      replace (off + Str.len (bytes_of (pre ++ [x])) + Str.len l)%nat
        with (off + Str.len (bytes_of ((pre ++ [x]) ++ [l])))%nat
        by (rewrite (bytes_of_app (pre ++ [x])), len_append, len_line; lia).
      rewrite <- E. rewrite IH.
      * destruct (runs_from kcut l h) as [r rs].
        by rewrite <- (assoc_L (++)).
      * done.
      * done.
      * done.
      * apply Forall_app. split; [|by repeat constructor].
        eapply Forall_impl; [exact Hpre|]. intros ? ->. done. }
    replace (off + Str.len (bytes_of (pre ++ [x])) + Str.len l)%nat
        with ((off + Str.len (bytes_of (pre ++ [x])))
            + Str.len (bytes_of ([] ++ [l])))%nat
        by (cbn [app]; rewrite len_line; lia).
    rewrite (IH l [] _ Hne Hlk Hks (Forall_nil_2 _)).
    destruct (runs_from kcut l h) as [r rs]. cbn [app triples_of].
    unfold yield_first. cbn [yielded stopped app].
    rewrite (hd_key pre x [] Hpre). do 3 f_equal. lia.
Qed.

(** The blocks of a file: every block has lines of one key, and the
    key of a block differs from the key of the block before it. *)
Fixpoint chain (bs : list (list string)) : Prop :=
  match bs with
  | [] => True
  | b :: bs' =>
      b ≠ [] ∧ Forall (fun l => ckey l = ckey (hd "" b)) b
      ∧ match bs' with
        | [] => True
        | b' :: _ => ckey (hd "" b') ≠ ckey (hd "" b)
        end
      ∧ chain bs'
  end.

Lemma runs_from_chain (h : list string) :
  ∀ x, hd "" (runs_from kcut x h).1 = x
       ∧ chain ((runs_from kcut x h).1 :: (runs_from kcut x h).2).
Proof.
  induction h as [|l h IH]; intros x.
  - cbn. split_and!; try done. by repeat constructor.
  - cbn [runs_from]. destruct (IH l) as (Hhd & Hne & Hall & Hnext & Hch).
    destruct (runs_from kcut l h) as [r rs]. cbn [fst snd] in *.
    destruct (kcut x l) eqn:E; cbn [fst snd].
    + apply negb_true_iff, String.eqb_neq in E. cbn [chain hd]. split_and!; try done.
      * by repeat constructor.
      * by rewrite Hhd.
    + apply negb_false_iff, String.eqb_eq in E. cbn [chain hd]. split_and!; try done.
      * constructor; [done|]. eapply Forall_impl; [exact Hall|].
        intros ? ->. by rewrite Hhd.
      * destruct rs as [|b' rs]; [done|]. by rewrite <- E, <- Hhd.
Qed.

Lemma runs_chain (ls : list string) : chain (runs kcut ls).
Proof.
  destruct ls as [|x ls]; [done|]. unfold runs.
  destruct (runs_from_chain ls x) as [_ H]. by destruct (runs_from kcut x ls).
Qed.

Lemma raw_plain_block (blk rest : list string) (k raw : string) :
  Forall (fun l => ckey l = k) blk → k ≠ "" →
  match rest with [] => True | l :: _ => ckey l ≠ k end →
  raw_plain key_idx (Some k) raw (blk ++ rest) = Returned (raw +:+ bytes_of blk).
Proof.
  intros Hblk Hk Hrest. revert raw.
  induction Hblk as [|l blk Hl _ IH]; intros raw.
  - cbn [app bytes_of foldr]. rewrite append_nil_r. destruct rest as [|l rest].
    + cbn [raw_plain readline fst]. rewrite ckey_empty.
      assert (String.eqb "" k = false) as -> by (apply String.eqb_neq; by intros E).
      done.
    + cbn [raw_plain readline fst].
      apply String.eqb_neq in Hrest. by rewrite Hrest.
  - cbn [app raw_plain readline fst]. rewrite Hl, String.eqb_refl. cbn [negb].
    rewrite IH. cbn [bytes_of foldr]. by rewrite append_assoc.
Qed.

Lemma raw_plain_first (x : string) (blk rest : list string) :
  keyed_line x →
  Forall (fun l => ckey l = ckey x) blk →
  match rest with [] => True | l :: _ => ckey l ≠ ckey x end →
  raw_plain key_idx None "" (x :: blk ++ rest) = Returned (bytes_of (x :: blk)).
Proof.
  intros Hx Hblk Hrest. pose proof (keyed_line_ckey x Hx) as Hne.
  destruct Hx as (k & Hk & _).
  assert (ckey x = k) as Hck by (unfold curr_key_of; by rewrite Hk).
  cbn [raw_plain readline fst]. rewrite Hk. cbn [mbind result_bind].
  rewrite Hck in *. by rewrite (raw_plain_block blk rest k _ Hblk Hne Hrest).
Qed.

(** [get_raw] at the offset of each block returns the bytes of the
    block. *)
Lemma raw_blocks (content : string) (bs : list (list string)) :
  ∀ pre, lines_of content = pre ++ concat bs →
    chain bs → Forall (Forall keyed_line) bs →
    Forall (fun t : triple =>
              get_raw false key_idx content t.1.2
              = Returned (String.substring t.1.2 t.2 content))
      (triples_of (Str.len (bytes_of pre)) bs).
Proof.
  induction bs as [|b bs IH]; intros pre Hl Hch Hk; [by constructor|].
  cbn [concat] in Hl. destruct Hch as (Hb & Hall & Hnext & Hch).
  apply Forall_cons in Hk as [Hkb Hk].
  destruct (lines_after content pre (b ++ concat bs) Hl) as [Hdrop Hsub].
  cbn [triples_of]. constructor.
  - cbn [fst snd]. unfold get_raw. cbn [negb]. rewrite Hdrop.
    rewrite (Hsub b (concat bs) eq_refl).
    destruct b as [|x b]; [done|]. cbn [hd] in *.
    apply Forall_cons in Hall as [_ Hall]. apply Forall_cons in Hkb as [Hx _].
    apply raw_plain_first; [done..|].
    destruct bs as [|b' bs]; [done|]. destruct Hch as (Hb' & _).
    destruct b' as [|x' b']; [done|]. done.
  - rewrite <- len_append, <- bytes_of_app. apply IH; [|done..].
    by rewrite <- (assoc_L (++)).
Qed.

End PlainIndex.

(** The triples lie one after the other from [start] to [stop], and
    none is empty. *)
Fixpoint covers (start : nat) (ts : list BlastTabIndexer.triple) (stop : nat) : Prop :=
  match ts with
  | [] => start = stop
  | (_, off, n) :: ts' => off = start ∧ (0 < n)%nat ∧ covers (off + n) ts' stop
  end.

Lemma triples_cover (key_idx : nat) (bs : list (list string)) :
  ∀ off, Forall (fun b => b ≠ [] ∧ Forall (fun l => Str.nonempty l = true) b) bs →
    covers off (triples_of key_idx off bs) (off + Str.len (bytes_of (concat bs))).
Proof.
  induction bs as [|b bs IH]; intros off Hbs; cbn [triples_of covers concat].
  - cbn. lia.
  - apply Forall_cons in Hbs as [[Hb Hne] Hbs]. split_and!; [done| |].
    + destruct b as [|l b]; [done|]. apply Forall_cons in Hne as [Hl _].
      cbn [bytes_of foldr]. rewrite len_append. destruct l; [done|]. cbn. lia.
    + rewrite bytes_of_app, len_append, Nat.add_assoc. by apply IH.
Qed.

(** In a file without comments whose lines all have the key column,
    with a key that is not empty, the index has one entry for each
    maximal run of lines with the same key column, in the order of the
    file: the key of the run, the offset of its first line and the
    number of its bytes.  The entries start at offset 0, each starts
    where the one before it ends, none is empty, and the last ends at
    the end of the file.  Lines of one key that are apart give entries
    of the same key. *)
Theorem plain_index_blocks (key_idx : nat) (content : string) :
  lines_of content ≠ [] →
  Forall (keyed_line key_idx) (lines_of content) →
  ∃ triples,
    BlastTabIndexer.__iter__ false key_idx content = Run triples Exhausted
    ∧ triples = triples_of key_idx 0 (runs (kcut key_idx) (lines_of content))
    ∧ covers 0 triples (Str.len content).
Proof.
  intros Hne Hk. eexists. split_and!; [|reflexivity|].
  - unfold BlastTabIndexer.__iter__. cbn [negb].
    destruct (lines_go_spec content [] eq_refl) as [Hs _]. fold (lines_of content) in Hs.
    apply is_lines_nonempty in Hs.
    destruct (lines_of content) as [|x ls]; [done|].
    apply Forall_cons in Hs as [Hx Hs]. apply Forall_cons in Hk as [Hkx Hk].
    rewrite (iter_plain_cons _ _ _ _ _ _ Hx).
    pose proof (keyed_line_ckey _ _ Hkx) as Hcx.
    destruct Hkx as (k & Hkey & _). rewrite Hkey. cbn [mbind result_bind].
    assert (k = BlastTabIndexer.curr_key_of key_idx x) as ->
      by (unfold BlastTabIndexer.curr_key_of; by rewrite Hkey).
    pose proof (iter_plain_from key_idx ls x [] 0 Hs Hcx) as Hrun.
    cbn [app] in Hrun. rewrite len_line in Hrun. rewrite Hrun; [|..|by constructor].
    + unfold runs. by destruct (runs_from (kcut key_idx) x ls).
    + eapply Forall_impl; [exact Hk|]. intros l. apply keyed_line_ckey.
  - destruct (lines_go_spec content [] eq_refl) as [Hs Hb]. fold (lines_of content) in Hs, Hb.
    change (Str.rev_string [] +:+ content) with content in Hb.
    rewrite <- Hb at 2. rewrite <- (runs_concat (kcut key_idx) (lines_of content)) at 2.
    apply (triples_cover key_idx _ 0).
    apply is_lines_nonempty in Hs.
    rewrite <- (runs_concat (kcut key_idx) (lines_of content)) in Hs.
    pose proof (runs_chain key_idx (lines_of content)) as Hch.
    revert Hs Hch. generalize (runs (kcut key_idx) (lines_of content)). intros bs.
    induction bs as [|b bs IH]; [by constructor|]. cbn [concat chain].
    intros [Hb' Hbs]%Forall_app (Hne' & _ & _ & Hch). constructor; [done|]. by apply IH.
Qed.

Lemma keyed_lines_spec (key_idx : nat) (ls : list string) :
  forallb (fun l => match BlastTabIndexer.key_of key_idx l with
                    | Ok k => Str.nonempty k
                    | Raise _ => false
                    end) ls = true →
  Forall (keyed_line key_idx) ls.
Proof.
  rewrite forallb_forall, Forall_forall. intros H l Hl.
  apply list_elem_of_In in Hl. specialize (H l Hl). unfold keyed_line.
  destruct (BlastTabIndexer.key_of key_idx l) as [k|]; [|done].
  exists k. split; [done|]. by destruct k.
Qed.

Lemma plain_sample_keyed : Forall (keyed_line 0) (lines_of plain_sample).
Proof. apply keyed_lines_spec. vm_compute. reflexivity. Qed.

Lemma plain_index_blocks_witness :
  ∃ triples,
    BlastTabIndexer.__iter__ false 0 plain_sample = Run triples Exhausted
    ∧ triples = triples_of 0 0 (runs (kcut 0) (lines_of plain_sample))
    ∧ covers 0 triples (Str.len plain_sample).
Proof.
  apply (plain_index_blocks 0 plain_sample).
  - vm_compute. discriminate.
  - exact plain_sample_keyed.
Defined.

(** In such a file, [get_raw] at the offset of every entry of the index
    returns exactly the bytes of the entry: the [length] bytes of the
    file from [offset] on, that is, the lines of the run and nothing of
    the next one. *)
Theorem get_raw_returns_indexed_block (key_idx : nat) (content : string) :
  lines_of content ≠ [] →
  Forall (keyed_line key_idx) (lines_of content) →
  ∃ triples,
    BlastTabIndexer.__iter__ false key_idx content = Run triples Exhausted
    ∧ Forall (fun '(key, offset, length) =>
                BlastTabIndexer.get_raw false key_idx content offset
                = Returned (String.substring offset length content)) triples.
Proof.
  intros Hne Hk.
  assert (∃ triples, BlastTabIndexer.__iter__ false key_idx content = Run triples Exhausted
            ∧ triples = triples_of key_idx 0 (runs (kcut key_idx) (lines_of content)))
    as (triples & Hrun & ->).
  { unfold BlastTabIndexer.__iter__. cbn [negb].
    destruct (lines_go_spec content [] eq_refl) as [Hs _]. fold (lines_of content) in Hs.
    apply is_lines_nonempty in Hs.
    destruct (lines_of content) as [|x ls]; [done|].
    apply Forall_cons in Hs as [Hx Hs]. apply Forall_cons in Hk as [Hkx Hk].
    rewrite (iter_plain_cons _ _ _ _ _ _ Hx).
    pose proof (keyed_line_ckey _ _ Hkx) as Hcx.
    destruct Hkx as (k & Hkey & _). rewrite Hkey. cbn [mbind result_bind].
    assert (k = BlastTabIndexer.curr_key_of key_idx x) as ->
      by (unfold BlastTabIndexer.curr_key_of; by rewrite Hkey).
    pose proof (iter_plain_from key_idx ls x [] 0 Hs Hcx) as Hrun.
    cbn [app] in Hrun. rewrite len_line in Hrun. rewrite Hrun; [|..|by constructor].
    + eexists. split; [done|]. unfold runs. by destruct (runs_from (kcut key_idx) x ls).
    + eapply Forall_impl; [exact Hk|]. intros l. apply keyed_line_ckey. }
  eexists. split; [exact Hrun|].
  pose proof (raw_blocks key_idx content (runs (kcut key_idx) (lines_of content)) []) as H.
  cbn [app bytes_of foldr] in H. change (Str.len "") with 0%nat in H.
  eapply Forall_impl; [apply H|].
  - by rewrite runs_concat.
  - apply runs_chain.
  - rewrite <- (runs_concat (kcut key_idx) (lines_of content)) in Hk.
    revert Hk. generalize (runs (kcut key_idx) (lines_of content)). intros bs.
    induction bs as [|b bs IH]; [by constructor|]. cbn [concat].
    intros [Hb Hbs]%Forall_app. constructor; [done|by apply IH].
  - by intros [[key offset] length].
Qed.

Lemma get_raw_returns_indexed_block_witness :
  ∃ triples,
    BlastTabIndexer.__iter__ false 0 plain_sample = Run triples Exhausted
    ∧ Forall (fun '(key, offset, length) =>
                BlastTabIndexer.get_raw false 0 plain_sample offset
                = Returned (String.substring offset length plain_sample)) triples.
Proof.
  apply (get_raw_returns_indexed_block 0 plain_sample).
  - vm_compute. discriminate.
  - exact plain_sample_keyed.
Defined.

(** ** The key of the index and the id of the parser *)

(** The separator of the columns of a row. *)
Abbreviation tabs := (String Str.tab "").

Section KeyColumn.

Import BlastTabIterator Catalog.

#[local] Arguments String.append : simpl nomatch.

Fixpoint no_tab (s : string) : bool :=
  match s with
  | EmptyString => true
  | String c s' => negb (Ascii.eqb c Str.tab) && no_tab s'
  end.

Lemma split_go_tab (acc : list ascii) (c : ascii) (s : string) :
  Str.split_go tabs None 0 acc (String c s)
  = if Ascii.eqb c Str.tab
    then Str.rev_string acc :: Str.split_go tabs None 0 [] s
    else Str.split_go tabs None 0 (c :: acc) s.
Proof.
  cbn [Str.split_go String.prefix].
  destruct (Ascii.eqb_spec c Str.tab) as [->|Hne].
  - destruct (ascii_dec Str.tab Str.tab); [|done]. by destruct s.
  - destruct (ascii_dec Str.tab c) as [E|_]; [by destruct Hne|done].
Qed.

Lemma split_go_no_tab (s : string) :
  ∀ acc, no_tab s = true → Str.split_go tabs None 0 acc s = [Str.rev_string acc +:+ s].
Proof.
  induction s as [|c s IH]; intros acc.
  - intros _. cbn [Str.split_go]. by rewrite append_nil_r.
  - cbn [no_tab]. intros [Hc Hs]%andb_prop. apply negb_true_iff in Hc.
    rewrite split_go_tab, Hc, (IH _ Hs). by rewrite rev_string_snoc.
Qed.

Lemma split_go_column (a b : string) :
  ∀ acc, no_tab a = true →
    Str.split_go tabs None 0 acc (a +:+ String Str.tab b)
    = (Str.rev_string acc +:+ a) :: Str.split_go tabs None 0 [] b.
Proof.
  induction a as [|c a IH]; intros acc.
  - intros _. change ("" +:+ String Str.tab b) with (String Str.tab b).
    rewrite split_go_tab. rewrite Ascii.eqb_refl. by rewrite append_nil_r.
  - cbn [no_tab]. intros [Hc Ha]%andb_prop. apply negb_true_iff in Hc.
    change (String c a +:+ String Str.tab b) with (String c (a +:+ String Str.tab b)).
    rewrite split_go_tab, Hc, (IH _ Ha). by rewrite rev_string_snoc.
Qed.

(** Columns without a tab are the pieces of their row. *)
Lemma split_join (cols : list string) :
  cols ≠ [] → Forall (fun c => no_tab c = true) cols →
  Str.split tabs (Str.join tabs cols) = cols.
Proof.
  unfold Str.split, Str.join.
  induction cols as [|c cols IH]; [done|]. intros _ [Hc Hcols]%Forall_cons.
  destruct cols as [|c' cols].
  - cbn [String.concat]. by rewrite (split_go_no_tab _ _ Hc).
  - change (String.concat tabs (c :: c' :: cols))
      with (c +:+ String Str.tab (String.concat tabs (c' :: cols))).
    rewrite (split_go_column _ _ _ Hc). by rewrite IH.
Qed.

Lemma join_snoc (init : list string) (c s : string) :
  Str.join tabs (init ++ [c]) +:+ s = Str.join tabs (init ++ [c +:+ s]).
Proof.
  unfold Str.join. induction init as [|x init IH]; [done|].
  cbn [app]. destruct (init ++ [c]) as [|y l] eqn:E; [by destruct init|].
  destruct (init ++ [c +:+ s]) as [|y' l'] eqn:E'; [by destruct init|].
  change (String.concat tabs (x :: y :: l)) with (x +:+ String Str.tab (String.concat tabs (y :: l))).
  change (String.concat tabs (x :: y' :: l'))
    with (x +:+ String Str.tab (String.concat tabs (y' :: l'))).
  rewrite <- IH. rewrite append_assoc. done.
Qed.

Lemma rstrip_aux_nl (s : string) :
  Str.rstrip_aux (s +:+ String Str.nl "") = Str.rstrip_aux s.
Proof.
  induction s as [|c s IH]; [done|].
  change (String c s +:+ String Str.nl "") with (String c (s +:+ String Str.nl "")).
  cbn [Str.rstrip_aux]. by rewrite IH.
Qed.

(** The newline at the end of a line goes with the white space that
    [strip] removes. *)
Lemma strip_nl (s : string) : Str.strip (s +:+ String Str.nl "") = Str.strip s.
Proof.
  unfold Str.strip. induction s as [|c s IH]; [done|].
  change (String c s +:+ String Str.nl "") with (String c (s +:+ String Str.nl "")).
  cbn [Str.lstrip]. destruct (Str.isspace c); [done|].
  unfold Str.rstrip.
  change (String c (s +:+ String Str.nl "")) with (String c s +:+ String Str.nl "").
  by rewrite rstrip_aux_nl.
Qed.

End KeyColumn.

Section RowId.

Import BlastTabIterator Catalog.

#[local] Arguments String.append : simpl nomatch.

Lemma foldlM_reach_ne {A B} `{EqDecision A} (Q : B → Prop) (f : B → A → result B)
    (a : A) (l : list A) (b b' : B) :
  a ∈ l →
  (∀ b b', f b a = Ok b' → Q b') →
  (∀ b a' b', a' ∈ l → a' ≠ a → Q b → f b a' = Ok b' → Q b') →
  foldlM f b l = Ok b' → Q b'.
Proof.
  intros Hin Hset Hkeep.
  assert (∀ b, a ∈ l ∨ Q b → foldlM f b l = Ok b' → Q b') as H; [|by eauto].
  clear Hin. induction l as [|a' l IH]; intros b0 Hor; cbn [foldlM].
  - intros [= <-]. destruct Hor as [Hin|HQ]; [|done]. by apply elem_of_nil in Hin.
  - destruct (f b0 a') as [b1|e] eqn:E; cbn [mbind result_bind]; [|done].
    apply IH.
    + intros ? ? ? Hin. apply Hkeep. by right.
    + destruct (decide (a' = a)) as [->|Hne]; [right; by eapply Hset|].
      destruct Hor as [[->|Hin]%elem_of_cons|HQ]; [done|by left|].
      right. eapply Hkeep; [by left|done|done|done].
Qed.

Lemma zip_functional (fields cols : list string) (s v v' : string) :
  NoDup fields → (s, v) ∈ zip fields cols → (s, v') ∈ zip fields cols → v = v'.
Proof.
  intros Hnd [j Hj]%list_elem_of_lookup [j' Hj']%list_elem_of_lookup.
  apply lookup_zip_with_Some in Hj as (x & y & [= <- <-] & Hx & Hy).
  apply lookup_zip_with_Some in Hj' as (x' & y' & [= <- <-] & Hx' & Hy').
  assert (j = j') as -> by (by eapply NoDup_lookup).
  congruence.
Qed.

(** No two columns of a table set the same attribute. *)
Lemma attr_injective (t : target) (s s' k : string) (c c' : caster) :
  mapping_of t !! s = Some (k, c) → mapping_of t !! s' = Some (k, c') → s = s'.
Proof.
  intros H H'.
  assert (map_Forall (fun a (x : string * caster) =>
            map_Forall (fun b (y : string * caster) =>
              (negb (String.eqb x.1 y.1) || String.eqb a b) = true) (mapping_of t))
            (mapping_of t)) as Hall.
  { destruct t; apply (bool_decide_unpack _); by vm_compute. }
  specialize (Hall s (k, c) H s' (k, c') H'). cbn [fst] in Hall.
  rewrite String.eqb_refl in Hall. by apply String.eqb_eq in Hall.
Qed.

(** The attribute of a str column holds the text of the column. *)
Lemma decoded_value (fields : list string) (line : string) (p : parsed)
    (i : nat) (sname c : string) (t : target) (k : string) :
  NoDup fields →
  _parse_result_row fields line = Ok p →
  fields !! i = Some sname →
  Str.split tabs (Str.strip line) !! i = Some c →
  mapping_of t !! sname = Some (k, to_str) →
  dict_of t p !! k = Some (VStr c).
Proof.
  intros Hnd Hp Hf Hc Hm. unfold _parse_result_row in Hp.
  destruct (assert _); cbn [mbind result_bind] in Hp; [|done].
  assert ((sname, c) ∈ zip fields (Str.split tabs (Str.strip line))) as Hin.
  { apply list_elem_of_lookup. exists i. apply lookup_zip_with_Some. by eexists _, _. }
  revert Hp.
  apply (foldlM_reach_ne (fun q => dict_of t q !! k = Some (VStr c)) _ _ _ _ _ Hin).
  - intros p0 p1 Hcol.
    apply parse_column_cases in Hcol as [[_ Hn]|(t' & k' & c' & v & Hm' & Hv & ->)].
    { by rewrite Hn in Hm. }
    assert (t' = t) as -> by (apply (tables_disjoint _ _ sname); by eauto).
    rewrite Hm in Hm'. injection Hm' as <- <-. cbn in Hv. injection Hv as <-.
    rewrite dict_of_store. by rewrite decide_True.
  - intros p0 [s' v'] p1 Hin' Hne HQ Hcol.
    apply parse_column_cases in Hcol as [[-> _]|(t' & k' & c' & v & Hm' & _ & ->)]; [done|].
    rewrite dict_of_store. destruct (decide _) as [[-> ->]|_]; [|done].
    assert (s' = sname) as -> by by eapply attr_injective.
    destruct Hne. f_equal. by eapply zip_functional.
Qed.

Lemma no_tab_nl (c : string) : no_tab c = true → no_tab (c +:+ String Str.nl "") = true.
Proof.
  induction c as [|x c IH]; [done|]. cbn [no_tab]. intros [Hx Hc]%andb_prop.
  change (String x c +:+ String Str.nl "") with (String x (c +:+ String Str.nl "")).
  cbn [no_tab]. by rewrite Hx, IH.
Qed.

(** The key column of a raw line. *)
Lemma key_of_line (cols : list string) (i : nat) (c : string) :
  Forall (fun c => no_tab c = true) cols → cols !! i = Some c →
  BlastTabIndexer.key_of i (Str.join tabs cols +:+ String Str.nl "")
  = Ok (if Nat.eqb (S i) (length cols) then c +:+ String Str.nl "" else c).
Proof.
  intros Hcols Hi. destruct (exists_last (l:=cols)) as (init & z & ->).
  { by intros ->. }
  rewrite join_snoc. unfold BlastTabIndexer.key_of.
  apply Forall_app in Hcols as [Hinit [Hz _]%Forall_cons].
  rewrite split_join.
  - rewrite length_app. cbn [length]. unfold Str.item.
    destruct (decide (i < length init)%nat) as [Hlt|Hge].
    + rewrite lookup_app_l in Hi |- * by done. rewrite Hi.
      destruct (Nat.eqb_spec (S i) (length init + 1)); [lia|done].
    + apply lookup_lt_Some in Hi as Hlen. rewrite length_app in Hlen. cbn in Hlen.
      assert (i = length init) as -> by lia.
      rewrite list_lookup_middle in Hi |- * by done. injection Hi as ->.
      destruct (Nat.eqb_spec (S (length init)) (length init + 1)); [done|lia].
  - by destruct init.
  - apply Forall_app. split; [done|]. constructor; [by apply no_tab_nl|done].
Qed.

End RowId.

(** A column of a decoded row that no column of the list sets is not
    there. *)
Lemma decoded_attr_absent (fields : list string) (line : string) (p : parsed)
    (t : BlastTabIterator.target) (sname k : string) :
  BlastTabIterator._parse_result_row fields line = Ok p →
  (∀ s c, BlastTabIterator.mapping_of t !! s = Some (k, c) → s = sname) →
  sname ∉ fields →
  dict_of t p !! k = None.
Proof.
  intros Hp Honly Hno. apply decoded_typed in Hp.
  apply eq_None_not_Some. intros [v Hv].
  destruct (Hp t k v Hv) as (s & c & Hin & Hm & _).
  by rewrite (Honly s c Hm) in Hin.
Qed.

(** The key that the index of a file without comments gives a row, and
    the id that the parser gives it.  The row has the columns [cols],
    none of which holds a tab, and no white space at its ends; its line
    in the file is the columns joined by tabs and a newline.  The
    indexer and the parser choose the same column: the first of qseqid,
    qacc, qaccver that the list names.  The id of the parser is the text
    of that column.  The key of the indexer is that text too, unless the
    column is the last of the row: then the key is the text and the
    newline of the line, since the indexer splits the line as it is
    read and the parser strips it first. *)
Theorem index_key_and_row_id (fields cols : list string) (i : nat) (c : string)
    (p : parsed) :
  NoDup fields →
  BlastTabIndexer.key_index (FieldsList fields) = Ok i →
  Forall (fun c => no_tab c = true) cols →
  cols !! i = Some c →
  Str.strip (Str.join tabs cols) = Str.join tabs cols →
  BlastTabIterator._parse_result_row fields (Str.join tabs cols +:+ String Str.nl "") = Ok p →
  BlastTabIterator._get_id (p_qresult p) = VStr c
  ∧ BlastTabIndexer.key_of i (Str.join tabs cols +:+ String Str.nl "")
    = Ok (if Nat.eqb (S i) (length cols) then c +:+ String Str.nl "" else c).
Proof.
  intros Hnd Hidx Hcols Hi Hstrip Hp. split; [|by apply key_of_line].
  assert (Str.split tabs (Str.strip (Str.join tabs cols +:+ String Str.nl "")) !! i
          = Some c) as Hcol.
  { rewrite strip_nl, Hstrip, split_join; [done| |done]. by intros ->. }
  assert (∀ sname k, fields !! i = Some sname →
            BlastTabIterator.mapping_of BlastTabIterator.t_qresult !! sname
            = Some (k, to_str) →
            p_qresult p !! k = Some (VStr c)) as Hval.
  { intros sname k Hf Hm.
    apply (decoded_value fields _ p i sname c BlastTabIterator.t_qresult k Hnd Hp Hf Hcol Hm). }
  assert (∀ sname k, sname ∉ fields →
            (∀ s c, BlastTabIterator.mapping_of BlastTabIterator.t_qresult !! s
                    = Some (k, c) → s = sname) →
            p_qresult p !! k = None) as Hnone.
  { intros sname k Hno Honly.
    by apply (decoded_attr_absent fields _ p BlastTabIterator.t_qresult sname k Hp). }
  assert (∀ k sname,
            BlastTabIterator.mapping_of BlastTabIterator.t_qresult !! sname
            = Some (k, to_str) →
            ∀ s c, BlastTabIterator.mapping_of BlastTabIterator.t_qresult !! s
                   = Some (k, c) → s = sname) as Honly.
  { intros k sname Hm s c' Hs. by eapply attr_injective. }
  unfold BlastTabIndexer.key_index, BlastTabIndexer.position in Hidx.
  unfold BlastTabIterator._get_id, Py.get.
  destruct (BlastTabIterator.index "qseqid" fields) as [i1|] eqn:E1.
  { injection Hidx as ->. apply index_Some in E1 as [E1 _].
    by rewrite (Hval "qseqid" "id" E1 eq_refl). }
  apply index_None in E1.
  rewrite (Hnone "qseqid" "id" E1 (Honly "id" "qseqid" eq_refl)). cbn [default Py.is_none].
  destruct (BlastTabIterator.index "qacc" fields) as [i2|] eqn:E2.
  { injection Hidx as ->. apply index_Some in E2 as [E2 _].
    by rewrite (Hval "qacc" "acc" E2 eq_refl). }
  apply index_None in E2.
  rewrite (Hnone "qacc" "acc" E2 (Honly "acc" "qacc" eq_refl)). cbn [default Py.is_none].
  destruct (BlastTabIterator.index "qaccver" fields) as [i3|] eqn:E3; [|done].
  injection Hidx as ->. apply index_Some in E3 as [E3 _].
  by rewrite (Hval "qaccver" "acc_ver" E3 eq_refl).
Qed.

(** A row of two columns with the key in the second one, which is the
    last. *)
Definition key_last_row : parsed :=
  Eval vm_compute in
    match BlastTabIterator._parse_result_row ["sseqid"; "qseqid"]
            (Str.join tabs ["h1"; "q1"] +:+ String Str.nl "") with
    | Ok p => p
    | Raise _ => mkParsed ∅ ∅ ∅ ∅
    end.

Lemma index_key_and_row_id_witness :
  BlastTabIterator._get_id (p_qresult key_last_row) = VStr "q1"
  ∧ BlastTabIndexer.key_of 1 (Str.join tabs ["h1"; "q1"] +:+ String Str.nl "")
    = Ok ("q1" +:+ String Str.nl "").
Proof.
  apply (index_key_and_row_id ["sseqid"; "qseqid"] ["h1"; "q1"] 1 "q1" key_last_row).
  - apply (bool_decide_unpack _). vm_compute. reflexivity.
  - vm_compute. reflexivity.
  - repeat constructor.
  - reflexivity.
  - vm_compute. reflexivity.
  - vm_compute. reflexivity.
Defined.

(** ** Rows with half a pair of coordinates *)

Section HalfPairs.

Import BlastTabIterator Catalog.

#[local] Arguments String.append : simpl nomatch.

(** The other coordinate of the pair of a coordinate. *)
Definition partner (attr : string) : option string :=
  if String.eqb attr "query_start" then Some "query_end"
  else if String.eqb attr "query_end" then Some "query_start"
  else if String.eqb attr "hit_start" then Some "hit_end"
  else if String.eqb attr "hit_end" then Some "hit_start"
  else None.

Lemma adjust_cases (pf : pydict) (attr : string) (z : Z) :
  match partner attr with
  | None => ∀ v, adjust pf attr v = Ok v
  | Some other =>
      match pf !! other with
      | None => adjust pf attr (VInt z) = Raise KeyError
      | Some (VInt _) => ∃ v, adjust pf attr (VInt z) = Ok v
      | Some _ => True
      end
  end.
Proof.
  unfold partner, adjust. cbn [foldlM]. unfold adjust_for.
  change ("query" +:+ "_start") with "query_start".
  change ("query" +:+ "_end") with "query_end".
  change ("hit" +:+ "_start") with "hit_start".
  change ("hit" +:+ "_end") with "hit_end".
  destruct (String.eqb_spec attr "query_start") as [->|H1].
  { unfold Py.getitem. destruct (pf !! "query_end") as [[]|]; by eauto. }
  destruct (String.eqb_spec attr "query_end") as [->|H2].
  { unfold Py.getitem. destruct (pf !! "query_start") as [[]|]; by eauto. }
  cbn [mbind result_bind].
  destruct (String.eqb_spec attr "hit_start") as [->|H3].
  { unfold Py.getitem. destruct (pf !! "hit_end") as [[]|]; by eauto. }
  destruct (String.eqb_spec attr "hit_end") as [->|H4].
  { unfold Py.getitem. destruct (pf !! "hit_start") as [[]|]; by eauto. }
  done.
Qed.

Lemma fill_frag_result (pf : pydict) (frag0 : HSPFragment) :
  (∀ k v, pf !! k = Some v → is_Ok (adjust pf k v) = true ∨ adjust pf k v = Raise KeyError) →
  ((∀ k v, pf !! k = Some v → is_Ok (adjust pf k v) = true) →
   ∃ frag, fill_frag pf frag0 = Ok frag)
  ∧ ((∃ k v, pf !! k = Some v ∧ adjust pf k v = Raise KeyError) →
     fill_frag pf frag0 = Raise KeyError).
Proof.
  intros Hall. unfold fill_frag.
  assert (pf ⊆ pf →
          ((∃ frag, map_fold (set_adjusted pf) (Ok frag0) pf = Ok frag)
           ∨ map_fold (set_adjusted pf) (Ok frag0) pf = Raise KeyError)
          ∧ ((∀ k v, pf !! k = Some v → is_Ok (adjust pf k v) = true) →
             ∃ frag, map_fold (set_adjusted pf) (Ok frag0) pf = Ok frag)
          ∧ ((∃ k v, pf !! k = Some v ∧ adjust pf k v = Raise KeyError) →
             map_fold (set_adjusted pf) (Ok frag0) pf = Raise KeyError)) as H.
  { apply (map_fold_weak_ind
             (fun (r : result HSPFragment) (m : pydict) => m ⊆ pf →
                ((∃ frag, r = Ok frag) ∨ r = Raise KeyError)
                ∧ ((∀ k v, m !! k = Some v → is_Ok (adjust pf k v) = true) →
                   ∃ frag, r = Ok frag)
                ∧ ((∃ k v, m !! k = Some v ∧ adjust pf k v = Raise KeyError) →
                   r = Raise KeyError))).
    - intros _. split_and!; [by eauto|by eauto|].
      intros (k & v & Hk & _). by rewrite lookup_empty in Hk.
    - intros i x m r Hi IH Hsub.
      assert (m ⊆ pf) as Hm.
      { etrans; [|exact Hsub]. by apply insert_subseteq. }
      assert (pf !! i = Some x) as Hpi.
      { eapply lookup_weaken; [|exact Hsub]. by rewrite lookup_insert_eq. }
      destruct (IH Hm) as (Hr & Hok & Hbad). unfold set_adjusted.
      split_and!.
      + destruct Hr as [[fr ->]| ->]; cbn [mbind result_bind]; [|by right].
        destruct (Hall i x Hpi) as [Ha|Ha].
        * destruct (adjust pf i x); [|done]. left. by eauto.
        * rewrite Ha. by right.
      + intros Hgood. destruct Hok as [fr ->].
        { intros k v Hk. apply Hgood. rewrite lookup_insert_ne; [done|]. intros ->.
          by rewrite Hi in Hk. }
        cbn [mbind result_bind]. specialize (Hgood i x).
        rewrite lookup_insert_eq in Hgood. specialize (Hgood eq_refl).
        destruct (adjust pf i x); [|done]. by eauto.
      + intros (k & v & Hk & Ha). destruct (decide (i = k)) as [->|Hne].
        * rewrite lookup_insert_eq in Hk. injection Hk as ->.
          destruct Hr as [[fr ->]| ->]; cbn [mbind result_bind]; [|done]. by rewrite Ha.
        * rewrite lookup_insert_ne in Hk by done.
          rewrite Hbad; [done|]. by eauto. }
  destruct (H (reflexivity pf)) as (_ & H1 & H2). by split.
Qed.

End HalfPairs.

Section HalfPairRows.

Import BlastTabIterator Catalog.

#[local] Arguments String.append : simpl nomatch.

(** The column list names one coordinate of a pair and not the other. *)
Definition half_pair (fields : list string) : Prop :=
  ∃ a b, (a, b) ∈ [("qstart", "qend"); ("qend", "qstart");
                   ("sstart", "send"); ("send", "sstart")]
         ∧ a ∈ fields ∧ b ∉ fields.

(** The four coordinate columns, their attributes and their partners. *)
Lemma coordinate_columns (k other : string) :
  partner k = Some other →
  ∃ a b, (a, b) ∈ [("qstart", "qend"); ("qend", "qstart");
                   ("sstart", "send"); ("send", "sstart")]
         ∧ _COLUMN_FRAG !! a = Some (k, to_int)
         ∧ _COLUMN_FRAG !! b = Some (other, to_int).
Proof.
  unfold partner.
  destruct (String.eqb_spec k "query_start") as [->|_].
  { intros [= <-]. exists "qstart", "qend". split_and!; [repeat constructor|done..]. }
  destruct (String.eqb_spec k "query_end") as [->|_].
  { intros [= <-]. exists "qend", "qstart". split_and!; [repeat constructor|done..]. }
  destruct (String.eqb_spec k "hit_start") as [->|_].
  { intros [= <-]. exists "sstart", "send". split_and!; [repeat constructor|done..]. }
  destruct (String.eqb_spec k "hit_end") as [->|_]; [|done].
  intros [= <-]. exists "send", "sstart". split_and!; [repeat constructor|done..].
Qed.

Lemma pair_columns (a b : string) :
  (a, b) ∈ [("qstart", "qend"); ("qend", "qstart"); ("sstart", "send"); ("send", "sstart")] →
  ∃ k other, partner k = Some other
             ∧ _COLUMN_FRAG !! a = Some (k, to_int)
             ∧ _COLUMN_FRAG !! b = Some (other, to_int).
Proof.
  intros H.
  apply elem_of_cons in H as [[= -> ->]|H]; [by exists "query_start", "query_end"|].
  apply elem_of_cons in H as [[= -> ->]|H]; [by exists "query_end", "query_start"|].
  apply elem_of_cons in H as [[= -> ->]|H]; [by exists "hit_start", "hit_end"|].
  apply elem_of_cons in H as [[= -> ->]|H]; [by exists "hit_end", "hit_start"|].
  by apply elem_of_nil in H.
Qed.

Variable fields : list string.
Variable line : string.
Variable p : parsed.
Hypothesis Hp : _parse_result_row fields line = Ok p.

Lemma frag_column_set (a k : string) :
  _COLUMN_FRAG !! a = Some (k, to_int) → a ∈ fields →
  ∃ z, p_frag p !! k = Some (VInt z).
Proof.
  intros Hm Hin.
  destruct (decoded_holds _ _ _ a Hp Hin t_frag k to_int Hm) as [v Hv].
  destruct (decoded_typed _ _ _ Hp t_frag k v Hv) as (s & c & _ & Hs & Hc).
  assert (s = a) as -> by by eapply (attr_injective t_frag).
  cbn [mapping_of] in Hs. rewrite Hm in Hs. injection Hs as <-.
  destruct Hc as [z ->]. by eauto.
Qed.

Lemma frag_column_unset (a k : string) :
  _COLUMN_FRAG !! a = Some (k, to_int) → a ∉ fields → p_frag p !! k = None.
Proof.
  intros Hm Hno. apply (decoded_attr_absent fields line p t_frag a k Hp); [|done].
  intros s c Hs. by eapply (attr_injective t_frag).
Qed.

Lemma frag_column_of (k : string) (v : pyval) (a : string) :
  _COLUMN_FRAG !! a = Some (k, to_int) → p_frag p !! k = Some v →
  a ∈ fields ∧ ∃ z, v = VInt z.
Proof.
  intros Hm Hv.
  destruct (decoded_typed _ _ _ Hp t_frag k v Hv) as (s & c & Hin & Hs & Hc).
  assert (s = a) as -> by by eapply (attr_injective t_frag).
  cbn [mapping_of] in Hs. rewrite Hm in Hs. injection Hs as <-. by split.
Qed.

Lemma adjust_decoded (k : string) (v : pyval) :
  p_frag p !! k = Some v →
  (is_Ok (adjust (p_frag p) k v) = true ∨ adjust (p_frag p) k v = Raise KeyError)
  ∧ (¬ half_pair fields → is_Ok (adjust (p_frag p) k v) = true).
Proof.
  intros Hv. destruct (partner k) as [other|] eqn:Ep.
  - destruct (coordinate_columns k other Ep) as (a & b & Hab & Ha & Hb).
    destruct (frag_column_of k v a Ha Hv) as [Hin [z ->]].
    pose proof (adjust_cases (p_frag p) k z) as Hc. rewrite Ep in Hc.
    destruct (decide (b ∈ fields)) as [Hbin|Hbno].
    + destruct (frag_column_set b other Hb Hbin) as [w Hw]. rewrite Hw in Hc.
      destruct Hc as [v' ->]. by split; [left|].
    + rewrite (frag_column_unset b other Hb Hbno) in Hc. rewrite Hc.
      split; [by right|]. intros Hno. destruct Hno. by exists a, b.
  - pose proof (adjust_cases (p_frag p) k 0) as Hc. rewrite Ep in Hc.
    rewrite Hc. by split; [left|].
Qed.

Lemma frame_ok (frag : HSPFragment) (seq_type : string) :
  "frames" ∉ fields → ∃ v, _get_frag_frame frag seq_type (p_frag p) = Ok v.
Proof.
  intros Hno. unfold _get_frag_frame. destruct (negb _); [by eauto|].
  assert (p_frag p !! "frames" = None) as ->; [|by eauto].
  apply (decoded_attr_absent fields line p t_frag "frames" "frames" Hp); [|done].
  intros s c Hs. by eapply (attr_injective t_frag).
Qed.

Lemma strand_ok (frag : HSPFragment) (query : bool) :
  ∃ v, _get_frag_strand frag (seq_name query) (p_frag p) = Ok v.
Proof.
  unfold _get_frag_strand. destruct (negb _); [by eauto|]. unfold Py.get.
  assert (∀ k other v, partner k = Some other → p_frag p !! k = Some v → ∃ z, v = VInt z)
    as Hint.
  { intros k other v Ep Hv. destruct (coordinate_columns k other Ep) as (a & _ & _ & Ha & _).
    by destruct (frag_column_of k v a Ha Hv) as [_ ?]. }
  destruct query; cbn [seq_name].
  - change ("query" +:+ "_start") with "query_start".
    change ("query" +:+ "_end") with "query_end".
    destruct (p_frag p !! "query_start") as [s|] eqn:Es; cbn; [|by eauto].
    destruct (Hint "query_start" "query_end" s eq_refl Es) as [zs ->].
    destruct (p_frag p !! "query_end") as [e|] eqn:Ee; cbn; [|by eauto].
    destruct (Hint "query_end" "query_start" e eq_refl Ee) as [ze ->]. cbn. by eauto.
  - change ("hit" +:+ "_start") with "hit_start".
    change ("hit" +:+ "_end") with "hit_end".
    destruct (p_frag p !! "hit_start") as [s|] eqn:Es; cbn; [|by eauto].
    destruct (Hint "hit_start" "hit_end" s eq_refl Es) as [zs ->].
    destruct (p_frag p !! "hit_end") as [e|] eqn:Ee; cbn; [|by eauto].
    destruct (Hint "hit_end" "hit_start" e eq_refl Ee) as [ze ->]. cbn. by eauto.
Qed.

Lemma make_frag_half_pair (hid qid : pyval) :
  half_pair fields → make_frag hid qid p = Raise KeyError.
Proof.
  intros (a & b & Hab & Ha & Hb).
  destruct (pair_columns a b Hab) as (k & other & Ep & Hka & Hkb).
  destruct (frag_column_set a k Hka Ha) as [z Hz].
  pose proof (frag_column_unset b other Hkb Hb) as Hnone.
  pose proof (adjust_cases (p_frag p) k z) as Hc. rewrite Ep, Hnone in Hc.
  unfold make_frag.
  destruct (fill_frag_result (p_frag p) (Obj.new_frag hid qid)) as [_ Hbad].
  { intros k' v' Hk'. by apply adjust_decoded. }
  rewrite Hbad; [done|]. by exists k, (VInt z).
Qed.

Lemma make_frag_whole_pairs (hid qid : pyval) :
  ¬ half_pair fields → "frames" ∉ fields → ∃ frag, make_frag hid qid p = Ok frag.
Proof.
  intros Hno Hfr. unfold make_frag.
  destruct (fill_frag_result (p_frag p) (Obj.new_frag hid qid)) as [Hgood _].
  { intros k' v' Hk'. by apply adjust_decoded. }
  destruct Hgood as [frag1 ->].
  { intros k' v' Hk'. by apply adjust_decoded. }
  cbn [mbind result_bind foldlM]. unfold set_frame_strand.
  destruct (frame_ok frag1 "hit" Hfr) as [fh ->]. cbn [mbind result_bind].
  destruct (strand_ok (Obj.frag_set ("hit" +:+ "_frame") fh frag1) false) as [sh Hsh].
  cbn [seq_name] in Hsh. rewrite Hsh. cbn [mbind result_bind].
  match goal with |- context [_get_frag_frame ?f "query" _] =>
    destruct (frame_ok f "query" Hfr) as [fq ->] end.
  cbn [mbind result_bind].
  match goal with |- context [_get_frag_strand ?f "query" _] =>
    destruct (strand_ok f true) as [sq Hsq] end.
  cbn [seq_name] in Hsq. rewrite Hsq. cbn [mbind result_bind]. by eauto.
Qed.

End HalfPairRows.

(** The fragment of a decoded row builds or not by the column list
    alone.  When the list names one coordinate of a pair (qstart and
    qend, sstart and send) and not the other, building the fragment
    raises KeyError for every row.  When the list names each pair whole
    or not at all, and has no 'frames' column, the fragment of every
    row builds. *)
Theorem fragment_needs_whole_pairs (fields : list string) (line : string) (p : parsed)
    (hid qid : pyval) :
  BlastTabIterator._parse_result_row fields line = Ok p →
  (half_pair fields → BlastTabIterator.make_frag hid qid p = Raise KeyError)
  ∧ (¬ half_pair fields → "frames" ∉ fields →
     ∃ frag, BlastTabIterator.make_frag hid qid p = Ok frag).
Proof.
  intros Hp. split.
  - by apply (make_frag_half_pair fields line p Hp).
  - by apply (make_frag_whole_pairs fields line p Hp).
Qed.

Lemma fragment_needs_whole_pairs_witness :
  (half_pair Catalog._DEFAULT_FIELDS →
   BlastTabIterator.make_frag (VStr "h1") (VStr "q1") reverse_prev = Raise KeyError)
  ∧ (¬ half_pair Catalog._DEFAULT_FIELDS → "frames" ∉ Catalog._DEFAULT_FIELDS →
     ∃ frag, BlastTabIterator.make_frag (VStr "h1") (VStr "q1") reverse_prev = Ok frag).
Proof.
  apply (fragment_needs_whole_pairs Catalog._DEFAULT_FIELDS reverse_row).
  vm_compute. reflexivity.
Defined.

(** With such a column list the parse of a file without comments that
    has a row stops at its second turn, with KeyError, and yields
    nothing, whatever the rows are. *)
Theorem half_pair_stops_parse (fields : list string) (rows : list keyed) (extra : nat)
    (line : string) (rest : handle) :
  half_pair fields →
  rows ≠ [] →
  blast_feeds fields line rest rows →
  ∃ left,
    BlastTabIterator._parse_qresult fields (S (S extra)) line rest
    = (Run [] (Raised KeyError), left).
Proof.
  intros Hhalf Hne Hfeeds. destruct rows as [|x rows]; [done|].
  inversion Hfeeds as [|? ? ? ? Hrow Hparse [= Hq] [= Hh] Hnext]; subst.
  unfold BlastTabIterator._parse_qresult, Assembler.parse_qresult.
  rewrite loop_S.
  rewrite (iteration_first _ _ _ _ _ x line Hrow Hparse); [|by rewrite Hq|by rewrite Hh].
  destruct (readline rest) as [l h'] eqn:Er. cbn [fst snd] in Hnext.
  rewrite loop_S.
  assert (Assembler.iteration BlastTabIterator.is_row
            (BlastTabIterator._parse_result_row fields)
            (fun c => Ok (BlastTabIterator._get_id (p_qresult c)))
            (fun c => Ok (BlastTabIterator._get_id (p_hit c)))
            BlastTabIterator.make_frag
            (Assembler.mkState (Some (row x)) (qkey x) (hkey x) None VNone VNone false [] [])
            (Str.strip l) = Raise KeyError) as ->.
  { pose proof (make_frag_half_pair fields line (row x) Hparse (hkey x) (qkey x) Hhalf) as Hk.
    unfold Assembler.iteration, Assembler.advance, Assembler.shift. cbn.
    inversion Hnext as [? ? Hrow'|? ? y ? Hrow' Hparse' _ _ _]; subst.
    - rewrite Hrow'. cbn. by rewrite Hk.
    - rewrite Hrow', Hparse'. cbn. by rewrite Hk. }
  by eexists.
Qed.

(** A file of one row whose column list has qstart without qend. *)
Definition half_pair_rows : list keyed :=
  Eval vm_compute in
    blast_keyed ["qseqid"; "sseqid"; "qstart"] (Str.join tabs ["q1"; "h1"; "5"]).

Lemma half_pair_stops_parse_witness :
  ∃ left,
    BlastTabIterator._parse_qresult ["qseqid"; "sseqid"; "qstart"] 2
      (Str.join tabs ["q1"; "h1"; "5"]) []
    = (Run [] (Raised KeyError), left).
Proof.
  apply (half_pair_stops_parse ["qseqid"; "sseqid"; "qstart"] half_pair_rows 0).
  - exists "qstart", "qend". split_and!; [repeat constructor|repeat constructor|].
    apply (bool_decide_unpack _). vm_compute. reflexivity.
  - discriminate.
  - apply (read_rows_feeds _ _ _ _ _ 2). vm_compute. reflexivity.
Defined.

(** ** Lines that are not rows, in a parse without comments *)

Section NotRows.

Import Assembler.

Variable is_row : string → bool.
Variable parse_row : string → result parsed.
Variable row_qid row_hid : parsed → result pyval.
Variable make_frag : pyval → pyval → parsed → result HSPFragment.
Variable next_line : string → string.

(** While no row was seen the loop goes on over lines that are not
    rows, past the end of the file too. *)
Lemma loop_idle (fuel : nat) :
  ∀ (eof : bool) (line : string) (h : handle),
    is_row line = false →
    Forall (fun l => is_row (next_line l) = false) h →
    is_row (next_line "") = false →
    (loop is_row parse_row row_qid row_hid make_frag next_line fuel
       (mkState None VNone VNone None VNone VNone eof [] []) line h).1
    = Run [] Running.
Proof.
  induction fuel as [|fuel IH]; intros eof line h Hline Hh Hend; [done|].
  rewrite loop_S, (iteration_idle _ _ _ _ _ eof line Hline).
  destruct h as [|l h]; cbn [readline].
  - specialize (IH true (next_line "") [] Hend (Forall_nil_2 _) Hend).
    destruct (loop _ _ _ _ _ _ fuel _ _ _) as [r rest]. cbn [fst] in *. by subst r.
  - apply Forall_cons in Hh as [Hl Hh].
    specialize (IH true (next_line l) h Hl Hh Hend).
    destruct (loop _ _ _ _ _ _ fuel _ _ _) as [r rest]. cbn [fst] in *. by subst r.
Qed.




End NotRows.

(** A parse without comments of a file that holds no row, and whose
    first line is not empty, never ends and yields nothing: the loop
    that reads the rows is left only after a row was seen.  Such are a
    file of comment lines, and a file with comments whose last query
    has no hits, when it is parsed without comments up to there. *)
Theorem plain_parse_without_rows_never_ends (fuel : nat) (first : string)
    (others : list string) (fields : fields_arg) (columns : list string) :
  BlastTabIterator._prep_fields fields = Ok columns →
  Str.startswith "#" (Str.strip first) = true →
  Forall (fun l => BlastTabIterator.is_row (Str.strip l) = false) others →
  BlastTabIterator.parse fuel (first :: others) false fields = Run [] Running.
Proof.
  intros Hprep Hfirst Hothers.
  unfold BlastTabIterator.parse, BlastTabIterator.__init__. rewrite Hprep.
  cbn [mbind result_bind readline]. unfold BlastTabIterator.__iter__.
  cbn [BlastTabIterator.line BlastTabIterator.rest BlastTabIterator.has_comments
       BlastTabIterator.fields].
  assert (Str.nonempty (Str.strip first) = true) as ->.
  { by destruct (Str.strip first). }
  cbn [negb]. unfold BlastTabIterator._parse_qresult, Assembler.parse_qresult.
  apply (loop_idle _ _ _ _ _ _ fuel false); [|done|done].
  unfold BlastTabIterator.is_row. by rewrite Hfirst, andb_false_r.
Qed.

Lemma plain_parse_without_rows_never_ends_witness :
  BlastTabIterator.parse 7 ["# BLASTP 2.2.26+"; "# 0 hits found"] false
    (FieldsList Catalog._DEFAULT_FIELDS)
  = Run [] Running.
Proof.
  apply (plain_parse_without_rows_never_ends 7 _ _ _ Catalog._DEFAULT_FIELDS).
  - vm_compute. reflexivity.
  - vm_compute. reflexivity.
  - repeat constructor.
Defined.






(** ** What every yielded fragment is *)

Section Yielded.

Import Assembler.

Variable is_row : string → bool.
Variable parse_row : string → result parsed.
Variable row_qid row_hid : parsed → result pyval.
Variable make_frag : pyval → pyval → parsed → result HSPFragment.
Variable next_line : string → string.

(** A property of the fragments that holds of every fragment built
    from a decoded row. *)
Variable P : HSPFragment → Prop.
Hypothesis P_built :
  ∀ l p hid qid frag, parse_row l = Ok p → make_frag hid qid p = Ok frag → P frag.

Definition hsp_in (hsp : HSP) : Prop := Forall P (hsp_frags hsp).
Definition hit_in (hit : Hit) : Prop := Forall hsp_in (hit_hsps hit).
Definition query_in (q : QueryResult) : Prop := Forall hit_in (qr_hits q).

(** What the loop has in hand was decoded and built. *)
Definition state_in (st : state) : Prop :=
  (∀ c, cur st = Some c → ∃ l, parse_row l = Ok c)
  ∧ (∀ p, prev st = Some p → ∃ l, parse_row l = Ok p)
  ∧ Forall hit_in (hit_list st)
  ∧ Forall hsp_in (hsp_list st).

Lemma init_in : state_in init.
Proof. by split_and!. Qed.

Lemma iteration_in (st st' : state) (line : string) (out : option QueryResult)
    (stop : bool) :
  state_in st →
  iteration is_row parse_row row_qid row_hid make_frag st line = Ok (st', out, stop) →
  state_in st' ∧ ∀ q, out = Some q → query_in q.
Proof.
  intros (Hcur & Hprev & Hhits & Hhsps). unfold iteration.
  destruct (advance is_row parse_row row_qid row_hid (shift st) line) as [st1|e] eqn:Ha;
    cbn [mbind result_bind]; [|done].
  assert (state_in st1) as (Hcur1 & Hprev1 & Hhits1 & Hhsps1).
  { assert (state_in (shift st)) as (Hc & Hp & Hh & Hs).
    { unfold shift. destruct (cur st) as [c|] eqn:Ec.
      - split_and!; cbn; try done; intros ? [= <-]; by apply Hcur.
      - split_and!; try done. intros c. by rewrite Ec. }
    unfold advance in Ha. destruct (is_row line).
    - destruct (parse_row line) as [c|] eqn:Hc'; cbn [mbind result_bind] in Ha; [|done].
      destruct (row_qid c); cbn [mbind result_bind] in Ha; [|done].
      destruct (row_hid c); cbn [mbind result_bind] in Ha; [|done].
      injection Ha as <-. split_and!; cbn; try done. intros ? [= <-]. by eauto.
    - injection Ha as <-. by split_and!. }
  destruct (prev st1) as [p|] eqn:Ep.
  { destruct (make_frag (prev_hid st1) (prev_qid st1) p) as [frag|e] eqn:Hf;
      cbn [mbind result_bind]; [|done].
    destruct (Hprev1 p eq_refl) as [l Hl].
    pose proof (P_built l p _ _ frag Hl Hf) as HP.
    assert (Forall hsp_in (hsp_list st1 ++ [mkHSP [frag] (Py.setattrs (p_hsp p) ∅)]))
      as Hnew.
    { apply Forall_app. split; [done|]. by repeat constructor. }
    assert (Forall hit_in (if hit_new st1
                           then hit_list st1 ++
                                [mkHit (hsp_list st1 ++ [mkHSP [frag] (Py.setattrs (p_hsp p) ∅)])
                                   (Py.setattrs (p_hit p)
                                      (hit_attrs (Obj.new_hit (prev_hid st1) (prev_qid st1)
                                         (hsp_list st1 ++
                                          [mkHSP [frag] (Py.setattrs (p_hsp p) ∅)]))))]
                           else hit_list st1)) as Hhits2.
    { destruct (hit_new st1); [|done]. apply Forall_app. split; [done|].
      by repeat constructor. }
    assert (Forall hsp_in (if hit_new st1 then []
                           else hsp_list st1 ++ [mkHSP [frag] (Py.setattrs (p_hsp p) ∅)]))
      as Hhsps2.
    { by destruct (hit_new st1). }
    destruct (qres_new st1 || at_eof st1)%bool.
    - destruct (at_eof st1); intros [= <- <- <-];
        (split; [by split_and!; cbn|by intros q [= <-]]).
    - intros [= <- <- <-]. split; [by split_and!; cbn|done]. }
  intros [= <- <- <-]. split; [|done].
  split_and!; try done. intros p. by rewrite Ep.
Qed.

(** Every Query that the loop yields, from a state of that kind, holds
    fragments of that kind only: however many turns it is given and
    however it stops. *)
Lemma loop_in (fuel : nat) :
  ∀ (st : state) (line : string) (h : handle),
    state_in st →
    Forall query_in
      (yielded (loop is_row parse_row row_qid row_hid make_frag next_line fuel st line h).1).
Proof.
  induction fuel as [|fuel IH]; intros st line h Hst; [by constructor|].
  rewrite loop_S.
  destruct (iteration is_row parse_row row_qid row_hid make_frag st line)
    as [[[st' out] stop]|e] eqn:Hit; [|by constructor].
  destruct (iteration_in st st' line out stop Hst Hit) as [Hst' Hout].
  destruct stop.
  - cbn [fst]. destruct out as [q|]; cbn; [|by constructor].
    constructor; [by apply Hout|by constructor].
  - destruct (readline h) as [l h'].
    specialize (IH st' (next_line l) h' Hst').
    destruct (loop _ _ _ _ _ _ fuel st' (next_line l) h') as [r rest].
    cbn [fst] in *. destruct out as [q|]; cbn; [|done].
    constructor; [by apply Hout|done].
Qed.

Lemma emitted_in (qs : list QueryResult) (frag : HSPFragment) :
  Forall query_in qs → frag ∈ emitted_frags qs → P frag.
Proof.
  intros Hqs. unfold emitted_frags.
  intros (hsp & Hfrag & H1)%list_elem_of_bind.
  apply list_elem_of_bind in H1 as (hit & Hhsp & H2).
  apply list_elem_of_bind in H2 as (q & Hhit & Hq).
  rewrite Forall_forall in Hqs. specialize (Hqs q Hq).
  unfold query_in in Hqs. rewrite Forall_forall in Hqs. specialize (Hqs hit Hhit).
  unfold hit_in in Hqs. rewrite Forall_forall in Hqs. specialize (Hqs hsp Hhsp).
  unfold hsp_in in Hqs. rewrite Forall_forall in Hqs. by apply Hqs.
Qed.

End Yielded.

Section BuiltStrands.

Import BlastTabIterator Catalog.

#[local] Arguments String.append : simpl nomatch.

Variable fields : list string.
Variable line : string.
Variable p : parsed.
Hypothesis Hp : _parse_result_row fields line = Ok p.

(** A row with one coordinate of a pair and not the other has no
    fragment. *)
Lemma lone_coordinate (k other : string) (v : pyval) (hid qid : pyval) :
  partner k = Some other →
  p_frag p !! k = Some v → p_frag p !! other = None →
  make_frag hid qid p = Raise KeyError.
Proof.
  intros Ep Hv Hnone.
  destruct (coordinate_columns k other Ep) as (a & _ & _ & Ha & _).
  destruct (frag_column_of fields line p Hp k v a Ha Hv) as [_ [z ->]].
  pose proof (adjust_cases (p_frag p) k z) as Hc. rewrite Ep, Hnone in Hc.
  unfold make_frag.
  destruct (fill_frag_result (p_frag p) (Obj.new_frag hid qid)) as [_ Hbad].
  { intros k' v' Hk'. by apply (adjust_decoded fields line p Hp). }
  rewrite Hbad; [done|]. by exists k, (VInt z).
Qed.

Lemma coordinate_int (k other : string) (v : pyval) :
  partner k = Some other → p_frag p !! k = Some v → ∃ z, v = VInt z.
Proof.
  intros Ep Hv. destruct (coordinate_columns k other Ep) as (a & _ & _ & Ha & _).
  by destruct (frag_column_of fields line p Hp k v a Ha Hv) as [_ ?].
Qed.

(** The strand of a sequence in the fragment built from the row: by
    the order of the two raw coordinates when the row has both, None
    when it has neither; and it has both or neither. *)
Lemma built_strand (hid qid : pyval) (frag : HSPFragment) (query : bool) :
  make_frag hid qid p = Ok frag →
  (∃ s e, p_frag p !! (seq_name query +:+ "_start") = Some (VInt s)
          ∧ p_frag p !! (seq_name query +:+ "_end") = Some (VInt e)
          ∧ strand_of frag query = Some (VInt (if s <=? e then 1 else -1)))
  ∨ (p_frag p !! (seq_name query +:+ "_start") = None
     ∧ p_frag p !! (seq_name query +:+ "_end") = None
     ∧ strand_of frag query = Some VNone).
Proof.
  intros Hf. destruct (blast_strand _ _ _ _ _ _ query Hp Hf) as (v & Hd & Hs).
  assert (partner (seq_name query +:+ "_start") = Some (seq_name query +:+ "_end")
          ∧ partner (seq_name query +:+ "_end") = Some (seq_name query +:+ "_start"))
    as [Pse Pes] by by destruct query.
  destruct (p_frag p !! (seq_name query +:+ "_start")) as [vs|] eqn:Es;
    destruct (p_frag p !! (seq_name query +:+ "_end")) as [ve|] eqn:Ee.
  - destruct (coordinate_int _ _ vs Pse Es) as [s ->].
    destruct (coordinate_int _ _ ve Pes Ee) as [e ->].
    left. exists s, e. split_and!; [done..|].
    rewrite (derived_strand_ints _ _ _ _ Es Ee) in Hd. by injection Hd as <-.
  - by rewrite (lone_coordinate _ _ vs hid qid Pse Es Ee) in Hf.
  - by rewrite (lone_coordinate _ _ ve hid qid Pes Ee Es) in Hf.
  - right. split_and!; [done..|].
    rewrite (derived_strand_absent (p_frag p) query) in Hd by by left.
    by injection Hd as <-.
Qed.

End BuiltStrands.

(** The fragment was built from a decoded row of a BLAST table. *)
Definition blast_built (frag : HSPFragment) : Prop :=
  ∃ columns l p hid qid,
    BlastTabIterator._parse_result_row columns l = Ok p
    ∧ BlastTabIterator.make_frag hid qid p = Ok frag.

Lemma plain_yields_built (columns : list string) (fuel : nat) (line : string) (h : handle) :
  Forall (query_in blast_built)
    (yielded (BlastTabIterator._parse_qresult columns fuel line h).1).
Proof.
  unfold BlastTabIterator._parse_qresult, Assembler.parse_qresult.
  apply (loop_in BlastTabIterator.is_row (BlastTabIterator._parse_result_row columns)
           (fun c => Ok (BlastTabIterator._get_id (p_qresult c)))
           (fun c => Ok (BlastTabIterator._get_id (p_hit c)))
           BlastTabIterator.make_frag Str.strip blast_built).
  - intros l p hid qid frag Hl Hf. by exists columns, l, p, hid, qid.
  - apply init_in.
Qed.

Lemma commented_yields_built (fuel : nat) :
  ∀ (line : string) (h : handle),
    Forall (query_in blast_built)
      (yielded (BlastTabIterator._parse_qresult_with_comments fuel line h)).
Proof.
  induction fuel as [|fuel IH]; intros line h; [by constructor|].
  cbn [BlastTabIterator._parse_qresult_with_comments].
  destruct (BlastTabIterator._parse_comments line h) as [[[comments|] [line1 h1]]|e];
    [|by constructor..].
  destruct (size comments =? 0)%nat; [by constructor|].
  destruct (comments !! "fields") as [[| | | |columns]|]; try by constructor.
  - pose proof (plain_yields_built columns (S fuel) line1 h1) as Hplain.
    destruct (BlastTabIterator._parse_qresult columns (S fuel) line1 h1)
      as [r [line2 h2]]. cbn [fst] in Hplain.
    assert (Forall (query_in blast_built) (BlastTabIterator.annotate comments <$> yielded r))
      as Hout.
    { apply Forall_fmap. eapply Forall_impl; [exact Hplain|]. by intros q. }
    destruct (stopped r); try done.
    unfold yield_all. cbn [yielded]. apply Forall_app. by split.
  - unfold yield_first. cbn [yielded]. constructor; [by constructor|apply IH].
Qed.

Lemma parse_yields_built (fuel : nat) (h : handle) (comments : bool) (fields : fields_arg) :
  Forall (query_in blast_built) (yielded (BlastTabIterator.parse fuel h comments fields)).
Proof.
  unfold BlastTabIterator.parse, BlastTabIterator.__init__.
  destruct (BlastTabIterator._prep_fields fields) as [columns|e];
    cbn [mbind result_bind]; [|by constructor].
  destruct (readline h) as [l h']. unfold BlastTabIterator.__iter__.
  cbn [BlastTabIterator.line BlastTabIterator.rest BlastTabIterator.has_comments
       BlastTabIterator.fields].
  destruct (negb _); [by constructor|]. destruct comments.
  - apply commented_yields_built.
  - apply plain_yields_built.
Qed.

Lemma hmmer_yields_zero (hmm_as_hit : bool) (fuel : nat) (line : string) (h : handle) :
  Forall (query_in (fun frag => ∀ query, strand_of frag query = Some (VInt 0)))
    (yielded (HmmerDomtabIterator.parse_qresult hmm_as_hit fuel line h).1).
Proof.
  unfold HmmerDomtabIterator.parse_qresult, Assembler.parse_qresult.
  apply (loop_in Str.nonempty (HmmerDomtabIterator.parse_result_row hmm_as_hit)
           (fun c => Py.getitem (p_qresult c) "id") (fun c => Py.getitem (p_hit c) "id")
           HmmerDomtabIterator.make_frag (fun l => l)
           (fun frag => ∀ query, strand_of frag query = Some (VInt 0))).
  - intros l p hid qid frag Hl Hf query. by eapply hmmer_frag_strands.
  - apply init_in.
Qed.

(** C4, amended.  Every fragment that the BLAST parser yields, with or
    without comments, on any input and however the parse goes on or
    ends, was built from a decoded row, and each of its two strands is
    +1, -1 or None: +1 when the raw start of that sequence is at most
    the raw end, -1 when it is greater, and None when a raw coordinate
    of that sequence is missing.  The row of a yielded fragment has both
    raw coordinates of a sequence or neither: a row with one of the two
    gives no fragment.  (The BLAST columns have no strand column.)
    Every fragment that the HMMER assembler yields has both strands 0. *)
Theorem strands_of_emitted_fragments (fuel : nat) (h : handle) (comments : bool)
    (fields : fields_arg) (columns : list string) (hmm_as_hit : bool) (line : string) :
  (∀ frag,
     frag ∈ emitted_frags (yielded (BlastTabIterator.parse fuel h comments fields))
     ∨ frag ∈ emitted_frags
                (yielded (BlastTabIterator._parse_qresult columns fuel line h).1) →
     ∃ cols l p hid qid,
       BlastTabIterator._parse_result_row cols l = Ok p
       ∧ BlastTabIterator.make_frag hid qid p = Ok frag
       ∧ ∀ query : bool,
           (strand_of frag query = Some (VInt 1)
            ∨ strand_of frag query = Some (VInt (-1))
            ∨ strand_of frag query = Some VNone)
           ∧ (∀ s e,
                p_frag p !! (seq_name query +:+ "_start") = Some (VInt s) →
                p_frag p !! (seq_name query +:+ "_end") = Some (VInt e) →
                strand_of frag query = Some (VInt (if s <=? e then 1 else -1)))
           ∧ (p_frag p !! (seq_name query +:+ "_start") = None
              ∨ p_frag p !! (seq_name query +:+ "_end") = None →
              strand_of frag query = Some VNone)
           ∧ (is_Some (p_frag p !! (seq_name query +:+ "_start"))
              ↔ is_Some (p_frag p !! (seq_name query +:+ "_end"))))
  ∧ (∀ frag (query : bool),
       frag ∈ emitted_frags
                (yielded (HmmerDomtabIterator.parse_qresult hmm_as_hit fuel line h).1) →
       strand_of frag query = Some (VInt 0)).
Proof.
  split.
  - intros frag Hfrag.
    assert (blast_built frag) as (cols & l & p & hid & qid & Hl & Hf).
    { destruct Hfrag as [Hfrag|Hfrag].
      - eapply emitted_in; [apply parse_yields_built|exact Hfrag].
      - eapply emitted_in; [apply plain_yields_built|exact Hfrag]. }
    exists cols, l, p, hid, qid. split; [done|]. split; [done|]. intros query.
    destruct (built_strand cols l p Hl hid qid frag query Hf)
      as [(s & e & Hs & He & Hst)|(Hs & He & Hst)].
    + rewrite Hs, He, Hst. split_and!.
      * destruct (s <=? e); [by left|by right; left].
      * by intros ? ? [= <-] [= <-].
      * by intros [?|?].
      * split; by eauto.
    + rewrite Hs, He, Hst. split_and!.
      * by right; right.
      * done.
      * done.
      * split; by intros [? ?].
  - intros frag query Hfrag.
    by apply (emitted_in _ _ frag (hmmer_yields_zero hmm_as_hit fuel line h) Hfrag).
Qed.

(** The fragments that the parse of the sample file of four rows
    yields. *)
Definition plain_emitted : list HSPFragment :=
  Eval vm_compute in
    emitted_frags
      (yielded (BlastTabIterator.parse 5 (lines_of plain_sample) false
                  (FieldsList Catalog._DEFAULT_FIELDS))).

Lemma plain_emitted_spec :
  emitted_frags
    (yielded (BlastTabIterator.parse 5 (lines_of plain_sample) false
                (FieldsList Catalog._DEFAULT_FIELDS)))
  = plain_emitted.
Proof. vm_compute. reflexivity. Qed.

Lemma strands_of_emitted_fragments_witness :
  ∃ frag,
    frag ∈ emitted_frags
             (yielded (BlastTabIterator.parse 5 (lines_of plain_sample) false
                         (FieldsList Catalog._DEFAULT_FIELDS)))
    ∧ ∀ query : bool,
        strand_of frag query = Some (VInt 1)
        ∨ strand_of frag query = Some (VInt (-1))
        ∨ strand_of frag query = Some VNone.
Proof.
  assert (hd (mkFrag ∅) plain_emitted
          ∈ emitted_frags
              (yielded (BlastTabIterator.parse 5 (lines_of plain_sample) false
                          (FieldsList Catalog._DEFAULT_FIELDS)))) as Hin.
  { rewrite plain_emitted_spec. apply list_elem_of_here. }
  exists (hd (mkFrag ∅) plain_emitted). split; [exact Hin|].
  destruct (strands_of_emitted_fragments 5 (lines_of plain_sample) false
              (FieldsList Catalog._DEFAULT_FIELDS) [] true "") as [Hblast _].
  destruct (Hblast _ (or_introl Hin)) as (cols & l & p & hid & qid & _ & _ & Hall).
  intros query. destruct (Hall query) as [H _]. exact H.
Defined.

(** ** Field preparation, where it is called *)

Section FieldsLine.

Import BlastTabIterator Catalog.

(** A long name that the map does not have gives KeyError, nothing
    else. *)
Lemma short_names_raise (long_fields : list string) (e : exn) :
  mapM (fun long_name =>
          match _LONG_SHORT_MAP !! long_name with
          | Some short => Ok short
          | None => Raise KeyError
          end) long_fields = Raise e →
  e = KeyError.
Proof.
  induction long_fields as [|x l IH]; [done|]. cbn [mapM].
  destruct (_LONG_SHORT_MAP !! x); cbn [mbind result_bind]; [|by intros [= <-]].
  destruct (mapM _ l) as [names|e'] eqn:E; cbn [mbind result_bind]; [done|].
  intros [= <-]. by apply IH.
Qed.

Lemma fields_line_error (line : string) :
  _parse_fields_line line = Raise ValueError
  ↔ ∃ names,
      mapM (fun long_name =>
              match _LONG_SHORT_MAP !! long_name with
              | Some short => Ok short
              | None => Raise KeyError
              end) (Str.split ", " (Str.drop (Str.len "# Fields: ") line)) = Ok names
      ∧ _prep_fields (FieldsList names) = Raise ValueError.
Proof.
  unfold _parse_fields_line.
  destruct (mapM _ _) as [names|e] eqn:E; cbn [mbind result_bind].
  - split; [by eauto|]. by intros (? & [= <-] & ?).
  - split; [|by intros (? & ? & _)]. intros [= ->].
    by apply short_names_raise in E.
Qed.

End FieldsLine.

(** A file with comments of two queries: the column list of the first
    has the two keys, that of the second has neither. *)
Definition keyless_second_block : string :=
  "# BLASTP 2.2.26+
# Query: q1
# Database: db/minirefseq
# Fields: query id, subject id
# 1 hits found
q1	h1
# BLASTP 2.2.26+
# Query: q2
# Database: db/minirefseq
# Fields: evalue, bit score
# 1 hits found
1e-5	50
# BLAST processed 2 queries
".

(** C8 as stated fails in its last part and for the indexer.  The
    column list of a '# Fields:' line is prepared when the line is
    parsed: on the file above the parse yields the Query of the first
    block, whose row was read, and then stops with ValueError.  The
    constructor of the indexer takes a list that has a query key and no
    hit key, which field preparation refuses. *)
Lemma prep_error_after_rows :
  (∃ q, BlastTabIterator.parse 4 (lines_of keyless_second_block) true
          (FieldsList Catalog._DEFAULT_FIELDS)
        = Run [q] (Raised ValueError)
        ∧ length (qr_hits q) = 1%nat)
  ∧ BlastTabIndexer.key_index (FieldsList ["qseqid"; "evalue"]) = Ok 0%nat
  ∧ BlastTabIterator._prep_fields (FieldsList ["qseqid"; "evalue"]) = Raise ValueError.
Proof.
  split; [|by split].
  eexists. split; [vm_compute; reflexivity|reflexivity].
Qed.

(** C8, amended.  Field preparation takes the column list as it is
    given, a list or a string that is stripped and split at single
    spaces, puts the twelve default columns in the place of the first
    'std', as a splice, and raises ValueError exactly when the list so
    expanded has no query-key column (qseqid, qacc, qaccver) or no
    hit-key column (sseqid, sacc, saccver); otherwise it returns the
    expanded list.  For the list given to the constructor of the parser
    the error comes before anything is read: the constructor fails with
    it whatever the handle holds, and the parse stops with it having
    yielded nothing.  The names of a '# Fields:' line are prepared in
    the same way when the line is parsed, which can be after rows were
    read and Queries yielded.  The constructor of the indexer makes a
    check of its own, for a file without comments: given a list
    without 'std', it raises ValueError exactly when the list has no
    query-key column, and it does not look for a hit-key column. *)
Theorem prep_fields_error_iff (arg : fields_arg) :
  let given := BlastTabIterator.as_list arg in
  let fields := BlastTabIterator.expand_std given in
  let missing :=
    ¬ has_column ["qseqid"; "qacc"; "qaccver"] fields
    ∨ ¬ has_column ["sseqid"; "sacc"; "saccver"] fields in
  (given = match arg with
           | FieldsStr s => Str.split " " (Str.strip s)
           | FieldsList l => l
           end)
  ∧ ("std" ∉ given → fields = given)
  ∧ (∀ pre post, given = pre ++ ("std" :: post) → "std" ∉ pre →
       fields = pre ++ Catalog._DEFAULT_FIELDS ++ post)
  ∧ (BlastTabIterator._prep_fields arg = Raise ValueError ↔ missing)
  ∧ (¬ missing ↔ BlastTabIterator._prep_fields arg = Ok fields)
  ∧ (missing ↔ ∀ (h : handle) (comments : bool),
        BlastTabIterator.__init__ h comments arg = Raise ValueError)
  ∧ (missing ↔ ∀ (fuel : nat) (h : handle) (comments : bool),
        BlastTabIterator.parse fuel h comments arg = Run [] (Raised ValueError))
  ∧ (∀ line names,
       mapM (fun long_name =>
               match Catalog._LONG_SHORT_MAP !! long_name with
               | Some short => Ok short
               | None => Raise KeyError
               end) (Str.split ", " (Str.drop (Str.len "# Fields: ") line)) = Ok names →
       arg = FieldsList names →
       BlastTabIterator._parse_fields_line line = BlastTabIterator._prep_fields arg)
  ∧ (∀ line, BlastTabIterator._parse_fields_line line = Raise ValueError →
       ∃ names, BlastTabIterator._prep_fields (FieldsList names) = Raise ValueError)
  ∧ (∃ fuel h q,
       BlastTabIterator.parse fuel h true (FieldsList Catalog._DEFAULT_FIELDS)
       = Run [q] (Raised ValueError))
  ∧ (∀ l, arg = FieldsList l → "std" ∉ l →
       (BlastTabIndexer.key_index arg = Raise ValueError
        ↔ ¬ has_column ["qseqid"; "qacc"; "qaccver"] fields)).
Proof.
  intros given fields missing. subst missing.
  assert ("std" ∉ given → fields = given) as Hnostd.
  { intros Hn. unfold fields, BlastTabIterator.expand_std.
    apply index_None in Hn. by rewrite Hn. }
  assert (∀ k, BlastTabIndexer.position k (FieldsList given) = None ↔ k ∉ given) as Hpos.
  { intros k. cbn [BlastTabIndexer.position]. apply index_None. }
  split; [by destruct arg|]. split; [exact Hnostd|]. split.
  { intros pre post Hg Hn. unfold fields, BlastTabIterator.expand_std. rewrite Hg.
    rewrite (index_app _ _ _ Hn), take_app_length.
    assert (drop (S (length pre)) (pre ++ ("std" :: post)) = post) as ->; [|done].
    clear. by induction pre. }
  assert ((BlastTabIterator._prep_fields arg = Raise ValueError
           ↔ ¬ has_column ["qseqid"; "qacc"; "qaccver"] fields
             ∨ ¬ has_column ["sseqid"; "sacc"; "saccver"] fields)
          ∧ (¬ (¬ has_column ["qseqid"; "qacc"; "qaccver"] fields
                ∨ ¬ has_column ["sseqid"; "sacc"; "saccver"] fields)
             ↔ BlastTabIterator._prep_fields arg = Ok fields)
          ∧ (¬ has_column ["qseqid"; "qacc"; "qaccver"] fields
             ∨ ¬ has_column ["sseqid"; "sacc"; "saccver"] fields
             ↔ ∀ (h : handle) (comments : bool),
                 BlastTabIterator.__init__ h comments arg = Raise ValueError)
          ∧ (¬ has_column ["qseqid"; "qacc"; "qaccver"] fields
             ∨ ¬ has_column ["sseqid"; "sacc"; "saccver"] fields
             ↔ ∀ (fuel : nat) (h : handle) (comments : bool),
                 BlastTabIterator.parse fuel h comments arg = Run [] (Raised ValueError)))
    as (H1 & H2 & H3 & H4).
  { destruct (prep_fields_cases arg) as [[Hm He]|[[Hq Hh] Ho]];
      fold given in Hm || fold given in Hq, Hh; fold fields in Hm || fold fields in Hq, Hh.
    - fold given in He. fold fields in He. split_and!.
      + by rewrite He.
      + rewrite He. split; [by intros []|done].
      + split; [|done]. intros _ h c. unfold BlastTabIterator.__init__. by rewrite He.
      + split; [|done]. intros _ fuel h c.
        unfold BlastTabIterator.parse, BlastTabIterator.__init__. by rewrite He.
    - fold given in Ho. fold fields in Ho.
      assert (¬ (¬ has_column ["qseqid"; "qacc"; "qaccver"] fields
                 ∨ ¬ has_column ["sseqid"; "sacc"; "saccver"] fields)) as Hn by tauto.
      split_and!.
      + rewrite Ho. split; [done|]. by intros ?.
      + by rewrite Ho.
      + split; [by intros ?|]. intros Hall. specialize (Hall [] false).
        unfold BlastTabIterator.__init__ in Hall. rewrite Ho in Hall. done.
      + split; [by intros ?|]. intros Hall. specialize (Hall O [] false).
        unfold BlastTabIterator.parse, BlastTabIterator.__init__ in Hall.
        rewrite Ho in Hall. simpl in Hall. done. }
  split; [exact H1|]. split; [exact H2|]. split; [exact H3|]. split; [exact H4|].
  split.
  { intros line names Hnames ->. unfold BlastTabIterator._parse_fields_line.
    by rewrite Hnames. }
  split.
  { intros line [names [_ Hn]]%fields_line_error. by exists names. }
  split.
  { exists 4%nat, (lines_of keyless_second_block). eexists. vm_compute. reflexivity. }
  intros l -> Hstd. cbn [BlastTabIterator.as_list] in given. subst given.
  rewrite (Hnostd Hstd).
  unfold BlastTabIndexer.key_index.
  split.
  - intros Herr (k & Hk & Hkq).
    assert (BlastTabIndexer.position k (FieldsList l) ≠ None) as Hsome.
    { intros Hnone. by apply Hpos in Hnone. }
    apply elem_of_cons in Hkq as [->|Hkq].
    { destruct (BlastTabIndexer.position "qseqid" (FieldsList l)); done. }
    destruct (BlastTabIndexer.position "qseqid" (FieldsList l)); [done|].
    apply elem_of_cons in Hkq as [->|Hkq].
    { destruct (BlastTabIndexer.position "qacc" (FieldsList l)); done. }
    destruct (BlastTabIndexer.position "qacc" (FieldsList l)); [done|].
    apply elem_of_cons in Hkq as [->|Hkq]; [|by apply elem_of_nil in Hkq].
    destruct (BlastTabIndexer.position "qaccver" (FieldsList l)); done.
  - intros Hno.
    assert (∀ k, k ∈ ["qseqid"; "qacc"; "qaccver"] →
              BlastTabIndexer.position k (FieldsList l) = None) as Hnone.
    { intros k Hk. apply Hpos. intros Hin. apply Hno. by exists k. }
    rewrite !Hnone by repeat constructor. done.
Qed.

(** ** The text of an expectation value *)

(** The forms that the specification names for the text of a number. *)

Definition is_digit (c : ascii) : bool :=
  match Num.digit_of c with Some _ => true | None => false end.

Fixpoint all_digits (s : string) : bool :=
  match s with
  | EmptyString => true
  | String c s' => is_digit c && all_digits s'
  end.

(** The digits that [s] starts with, and what follows them. *)
Fixpoint span_digits (s : string) : string * string :=
  match s with
  | EmptyString => (EmptyString, EmptyString)
  | String c s' =>
      if is_digit c then let '(d, r) := span_digits s' in (String c d, r)
      else (EmptyString, s)
  end.

(** An exponential of [sig] significant digits: one digit, then a point
    and [sig - 1] digits when [1 < sig], then [e], a sign and two digits
    or more. *)
Definition exponential_form (sig : nat) (s : string) : bool :=
  match s with
  | String c r =>
      is_digit c &&
      match
        match sig with
        | O => None
        | S O => Some r
        | S (S k) =>
            match r with
            | String "." r' =>
                let '(d, r'') := span_digits r' in
                if Nat.eqb (Str.len d) (S k) then Some r'' else None
            | _ => None
            end
        end
      with
      | Some (String "e" (String sign x)) =>
          (Ascii.eqb sign "+" || Ascii.eqb sign "-")
          && all_digits x && Nat.leb 2 (Str.len x)
      | _ => false
      end
  | EmptyString => false
  end.

(** A fixed-point text of [decimals] decimals: one digit or more, and a
    point and [decimals] digits when [0 < decimals]. *)
Definition fixed_form (decimals : nat) (s : string) : bool :=
  let '(i, r) := span_digits s in
  Str.nonempty i &&
  match decimals, r with
  | O, EmptyString => true
  | S _, String "." d => all_digits d && Nat.eqb (Str.len d) decimals
  | _, _ => false
  end.

Section FloatOrder.

(** The order of [<] on binary64 values: what is not below [b] is not
    below anything below [b]. *)
Lemma SFltb_below (x a b : spec_float) :
  SFltb a b = true → SFltb x b = false → SFltb x a = false.
Proof.
  unfold SFltb, SFcompare.
  destruct x as [[]|[]| |[] mx ex], a as [[]|[]| |[] ma ea], b as [[]|[]| |[] mb eb];
    try done;
    rewrite <- ?Pos.compare_cont_spec; fold (Pos.compare mx ma) (Pos.compare ma mb) (Pos.compare mx mb).
  all: destruct (Z.compare_spec ea eb); try done;
       destruct (Z.compare_spec ex eb); try done;
       destruct (Z.compare_spec ex ea); try done; try lia;
       repeat match goal with
         | |- context [Pos.compare ?p ?q] => destruct (Pos.compare_spec p q)
         end; simpl; try done; try lia.
Qed.

Lemma ltb_below (f a b : float) :
  (a <? b)%float = true → (f <? b)%float = false → (f <? a)%float = false.
Proof. rewrite !FloatAxioms.ltb_spec. apply SFltb_below. Qed.

(** A value that is not below 1e-180 and is below something is finite
    and positive. *)
Lemma finite_positive (f hi : float) :
  (f <? 1.0e-180)%float = false → (f <? hi)%float = true →
  ∃ m e, Prim2SF f = S754_finite false m e.
Proof.
  rewrite !FloatAxioms.ltb_spec.
  assert (∃ m' e', Prim2SF 1.0e-180 = S754_finite false m' e') as (m' & e' & ->)
    by (eexists _, _; vm_compute; reflexivity).
  unfold SFltb, SFcompare.
  destruct (Prim2SF f) as [[]|[]| |[] m e]; try done; [by destruct (Prim2SF hi) as [[]|[]| |[]]|].
  by eauto.
Qed.

(** What is not below 10 is not a number, infinite, or finite and
    positive. *)
Lemma not_below_ten (f : float) (s : bool) (m : positive) (e : Z) :
  (f <? 10.0)%float = false → Prim2SF f = S754_finite s m e → s = false.
Proof.
  rewrite FloatAxioms.ltb_spec. intros H E. rewrite E in H.
  assert (∃ m' e', Prim2SF 10.0 = S754_finite false m' e') as (m' & e' & E')
    by (eexists _, _; vm_compute; reflexivity).
  rewrite E' in H. by destruct s.
Qed.

End FloatOrder.

Section DigitTexts.

Import Num.

#[local] Arguments String.append : simpl nomatch.

Lemma digit_char_digit (d : Z) : 0 <= d < 10 → is_digit (digit_char d) = true.
Proof.
  intros H.
  assert (d = 0 ∨ d = 1 ∨ d = 2 ∨ d = 3 ∨ d = 4 ∨ d = 5 ∨ d = 6 ∨ d = 7 ∨ d = 8 ∨ d = 9)
    as Hd by lia.
  repeat (destruct Hd as [->|Hd]; [reflexivity|]). by subst.
Qed.

Lemma all_digits_app (a b : string) :
  all_digits (a +:+ b) = (all_digits a && all_digits b)%bool.
Proof.
  induction a as [|c a IH]; [done|].
  change (String c a +:+ b) with (String c (a +:+ b)). cbn [all_digits].
  by rewrite IH, andb_assoc.
Qed.

Lemma digits_go_digits (fuel : nat) (n : Z) (acc : string) :
  all_digits acc = true → all_digits (digits_go fuel n acc) = true.
Proof.
  revert n acc. induction fuel as [|fuel IH]; intros n acc Hacc; [done|].
  cbn [digits_go].
  assert (all_digits (String (digit_char (n mod 10)) acc) = true) as Hacc'.
  { cbn [all_digits]. rewrite Hacc, digit_char_digit; [done|].
    apply Z.mod_pos_bound. lia. }
  destruct (n <? 10); [done|]. by apply IH.
Qed.

Lemma digits_go_longer (fuel : nat) (n : Z) (acc : string) :
  (Str.len acc ≤ Str.len (digits_go fuel n acc))%nat.
Proof.
  revert n acc. induction fuel as [|fuel IH]; intros n acc; [done|].
  cbn [digits_go]. destruct (n <? 10).
  - unfold Str.len. simpl. lia.
  - etrans; [|apply IH]. unfold Str.len. simpl. lia.
Qed.

(** A number below [10 ^ k] has at most [k] digits. *)
Lemma digits_go_bound (fuel : nat) (n : Z) (acc : string) (k : nat) :
  0 <= n < 10 ^ Z.of_nat k → (1 ≤ k)%nat →
  (Str.len (digits_go fuel n acc) ≤ k + Str.len acc)%nat.
Proof.
  revert n acc k. induction fuel as [|fuel IH]; intros n acc k Hn Hk; [simpl; lia|].
  cbn [digits_go]. destruct (Z.ltb_spec n 10) as [Hlt|Hge].
  - unfold Str.len. simpl. lia.
  - destruct k as [|[|k]]; [lia| |].
    + change (10 ^ Z.of_nat 1) with 10 in Hn. lia.
    + etrans; [apply (IH _ _ (S k))|].
      * split; [by apply Z.div_pos; lia|].
        apply Z.div_lt_upper_bound; [lia|].
        replace (Z.of_nat (S (S k))) with (Z.succ (Z.of_nat (S k))) in Hn by lia.
        rewrite Z.pow_succ_r in Hn by lia. lia.
      * lia.
      * unfold Str.len. simpl. lia.
Qed.

Lemma digits_digits (n : Z) : all_digits (digits n) = true.
Proof. by apply digits_go_digits. Qed.

Lemma digits_nonempty (n : Z) : ∃ c r, digits n = String c r ∧ is_digit c = true.
Proof.
  pose proof (digits_digits n) as Hd. unfold digits in *.
  pose proof (digits_go_longer (Z.to_nat (Z.log2 n)) (n / 10)
                (String (digit_char (n mod 10)) "")) as Hl.
  cbn [digits_go] in *. destruct (n <? 10).
  - eexists _, _. split; [done|]. cbn [all_digits] in Hd. by apply andb_prop in Hd as [? _].
  - destruct (digits_go _ _ _) as [|c r]; [by unfold Str.len in Hl; simpl in Hl; lia|].
    exists c, r. split; [done|]. cbn [all_digits] in Hd. by apply andb_prop in Hd as [? _].
Qed.

Lemma digits_bound (n : Z) (k : nat) :
  0 <= n < 10 ^ Z.of_nat k → (1 ≤ k)%nat → (Str.len (digits n) ≤ k)%nat.
Proof.
  intros Hn Hk. pose proof (digits_go_bound (S (Z.to_nat (Z.log2 n))) n "" k Hn Hk) as H.
  unfold digits. simpl Str.len in H at 2. lia.
Qed.

Lemma zeros_digits (k : nat) : all_digits (zeros k) = true.
Proof. unfold zeros. induction k as [|k IH]; [done|]. simpl. exact IH. Qed.

Lemma zeros_len (k : nat) : Str.len (zeros k) = k.
Proof. unfold zeros, Str.len. induction k as [|k IH]; [done|]. simpl. by rewrite IH. Qed.

Lemma zfill_digits (k : nat) (s : string) :
  all_digits s = true → all_digits (zfill k s) = true.
Proof. intros Hs. unfold zfill. by rewrite all_digits_app, zeros_digits, Hs. Qed.

Lemma zfill_len (k : nat) (s : string) : (k ≤ Str.len (zfill k s))%nat.
Proof. unfold zfill. rewrite len_append, zeros_len. lia. Qed.

Lemma zfill_len_eq (k : nat) (s : string) :
  (Str.len s ≤ k)%nat → Str.len (zfill k s) = k.
Proof. intros H. unfold zfill. rewrite len_append, zeros_len. lia. Qed.

Lemma span_digits_point (a r : string) :
  all_digits a = true → span_digits (a +:+ String "." r) = (a, String "." r).
Proof.
  intros Ha. induction a as [|c a IH]; [done|].
  cbn [all_digits] in Ha. apply andb_prop in Ha as [Hc Ha].
  change (String c a +:+ String "." r) with (String c (a +:+ String "." r)).
  cbn [span_digits]. by rewrite Hc, (IH Ha).
Qed.

Lemma span_digits_all (a : string) : all_digits a = true → span_digits a = (a, "").
Proof.
  intros Ha. induction a as [|c a IH]; [done|].
  cbn [all_digits] in Ha. apply andb_prop in Ha as [Hc Ha].
  cbn [span_digits]. by rewrite Hc, (IH Ha).
Qed.

Lemma rjust_long (w : nat) (s : string) : (w ≤ Str.len s)%nat → Str.rjust w s = s.
Proof. intros H. unfold Str.rjust. by replace (w - Str.len s)%nat with O by lia. Qed.

(** The text of [t / 10 ^ prec] has [prec] decimals. *)
Lemma fixed_text_form (prec : nat) (t : Z) :
  fixed_form prec (fixed_text prec t) = true
  ∧ (prec + 1 ≤ Str.len (fixed_text prec t))%nat.
Proof.
  unfold fixed_form, fixed_text.
  destruct (digits_nonempty (t / 10 ^ Z.of_nat prec)) as (c & r & Ed & Hc).
  pose proof (digits_digits (t / 10 ^ Z.of_nat prec)) as Hd.
  destruct prec as [|prec].
  - rewrite append_nil_r, (span_digits_all _ Hd), Ed. split; [done|].
    unfold Str.len. simpl. lia.
  - rewrite (span_digits_point _ _ Hd), Ed. cbn [Str.nonempty andb].
    assert (Str.len (zfill (S prec) (digits (t mod 10 ^ Z.of_nat (S prec)))) = S prec)
      as Hlen.
    { apply zfill_len_eq, digits_bound; [|lia]. apply Z.mod_pos_bound. lia. }
    split.
    + rewrite zfill_digits by apply digits_digits. rewrite Hlen. by rewrite Nat.eqb_refl.
    + rewrite len_append. change (Str.len (String "." ?s)) with (S (Str.len s)).
      rewrite Hlen. unfold Str.len at 1. simpl. lia.
Qed.

(** The text of an exponent: a sign and two digits or more. *)
Lemma exponent_text_form (x : Z) :
  ∃ sign ds, exponent_text x = String "e" (String sign ds)
             ∧ (Ascii.eqb sign "+" || Ascii.eqb sign "-")%bool = true
             ∧ all_digits ds = true ∧ (2 ≤ Str.len ds)%nat.
Proof.
  unfold exponent_text.
  exists (if x <? 0 then "-"%char else "+"%char), (zfill 2 (digits (Z.abs x))).
  split; [by destruct (x <? 0)|]. split; [by destruct (x <? 0)|].
  split; [by apply zfill_digits, digits_digits|apply zfill_len].
Qed.

(** ['%.0e'] gives one digit and the exponent. *)
Lemma mantissa_one_digit (m : Z) :
  ∃ c, mantissa_text 0 m = String c "" ∧ is_digit c = true.
Proof.
  unfold mantissa_text, zfill. destruct (digits_nonempty m) as (c & r & -> & Hc).
  exists c. split; [|done]. by destruct r.
Qed.

Lemma fmt_e_form (f : float) (m : positive) (e : Z) :
  Prim2SF f = S754_finite false m e →
  exponential_form 1 (fmt_e 0 f) = true ∧ (5 ≤ Str.len (fmt_e 0 f))%nat.
Proof.
  intros E. unfold fmt_e, classify. rewrite E.
  destruct (scale 2 (Z.pos m) 1 e) as [N D]. destruct (sci_digits 0 N D) as [d x].
  cbn [sign_text]. change ("" +:+ ?s) with s.
  destruct (mantissa_one_digit d) as (c & -> & Hc).
  destruct (exponent_text_form x) as (sign & ds & -> & Hs & Hd & Hl).
  change (String c "" +:+ ?s) with (String c s). cbn [exponential_form].
  apply Nat.leb_le in Hl as Hl'. rewrite Hc, Hs, Hd, Hl'. split; [done|].
  unfold Str.len in *. simpl. lia.
Qed.

Lemma fmt_f_form (prec : nat) (f : float) (m : positive) (e : Z) :
  Prim2SF f = S754_finite false m e →
  fixed_form prec (fmt_f prec f) = true ∧ (prec + 1 ≤ Str.len (fmt_f prec f))%nat.
Proof.
  intros E. unfold fmt_f, classify. rewrite E.
  destruct (scale 2 (Z.pos m) 1 e) as [N D].
  destruct (scale 10 N D (Z.of_nat prec)) as [n d].
  cbn [sign_text]. change ("" +:+ ?s) with s. apply fixed_text_form.
Qed.

End DigitTexts.

(** C3 as stated fails in three of its bands.  Below 1e-99 and below
    9e-4 the text is an exponential of one significant digit, not of
    two or three: 5e-150 gives 5e-150 and 1.5e-150 gives 2e-150, 0.0005
    gives 5e-04 and 0.000123 gives 1e-04.  Below 0.1 the text has three
    decimals, not four: 0.05 gives 0.050 and 0.0123 gives 0.012. *)
Lemma evalue_digits_differ :
  (BlastTabWriter.adjust_output "evalue" (VFloat 5e-150) = Ok "5e-150"
   ∧ exponential_form 2 "5e-150" = false
   ∧ BlastTabWriter.adjust_output "evalue" (VFloat 1.5e-150) = Ok "2e-150"
   ∧ Num.fmt_e 1 1.5e-150 = "1.5e-150")
  ∧ (BlastTabWriter.adjust_output "evalue" (VFloat 0.0005) = Ok "5e-04"
     ∧ exponential_form 3 "5e-04" = false
     ∧ BlastTabWriter.adjust_output "evalue" (VFloat 0.000123) = Ok "1e-04"
     ∧ Num.fmt_e 2 0.000123 = "1.23e-04")
  ∧ (BlastTabWriter.adjust_output "evalue" (VFloat 0.05) = Ok "0.050"
     ∧ fixed_form 4 "0.050" = false
     ∧ BlastTabWriter.adjust_output "evalue" (VFloat 0.0123) = Ok "0.012"
     ∧ Num.fmt_f 4 0.0123 = "0.0123").
Proof. split_and!; vm_compute; reflexivity. Qed.

Section EvalueBands.

Lemma rjust_len (w : nat) (s : string) : (w ≤ Str.len (Str.rjust w s))%nat.
Proof.
  unfold Str.rjust. rewrite len_append.
  assert (∀ k, Str.len (string_of_list_ascii (repeat Str.space k)) = k) as ->; [|lia].
  unfold Str.len. induction k as [|k IH]; [done|]. simpl. by rewrite IH.
Qed.

#[local] Ltac chain H1 H2 H3 H4 :=
  try match goal with H : (_ <? 1.0)%float = false |- _ => pose proof (H4 H) end;
  try match goal with H : (_ <? 0.1)%float = false |- _ => pose proof (H3 H) end;
  try match goal with H : (_ <? 0.0009)%float = false |- _ => pose proof (H2 H) end;
  try match goal with H : (_ <? 1.0e-99)%float = false |- _ => pose proof (H1 H) end.

(** C3, amended.  The writer gives an expectation value e, a binary64
    number, the text of the first band that holds it: below 1e-180 the
    literal 0.0; below 1e-99, and below 9e-4 as well, an exponential of
    one significant digit (the formats '%2.0e' and '%3.0e', whose width
    adds nothing); below 0.1 a fixed-point text of three decimals;
    below 1.0 of two decimals; below 10.0 of one decimal; and otherwise
    the text of '%5.0f', on the right of five columns, which has no
    decimals when e is finite.  So 5e-200,
    5e-150, 5e-50, 0.0005, 0.05, 0.5, 5.0 and 50.0 give 0.0, 5e-150,
    5e-50, 5e-04, 0.050, 0.50, 5.0 and 50 after three spaces. *)
Theorem evalue_text_by_band :
  (∀ f : float,
     ∃ s, BlastTabWriter.adjust_output "evalue" (VFloat f) = Ok s
       ∧ ((f <? 1.0e-180)%float = true → s = "0.0")
       ∧ ((f <? 1.0e-180)%float = false → (f <? 1.0e-99)%float = true →
            s = Num.fmt_e 0 f ∧ exponential_form 1 s = true)
       ∧ ((f <? 1.0e-99)%float = false → (f <? 0.0009)%float = true →
            s = Num.fmt_e 0 f ∧ exponential_form 1 s = true)
       ∧ ((f <? 0.0009)%float = false → (f <? 0.1)%float = true →
            s = Num.fmt_f 3 f ∧ fixed_form 3 s = true)
       ∧ ((f <? 0.1)%float = false → (f <? 1.0)%float = true →
            s = Num.fmt_f 2 f ∧ fixed_form 2 s = true)
       ∧ ((f <? 1.0)%float = false → (f <? 10.0)%float = true →
            s = Num.fmt_f 1 f ∧ fixed_form 1 s = true)
       ∧ ((f <? 10.0)%float = false →
            s = Str.rjust 5 (Num.fmt_f 0 f)
            ∧ (5 ≤ Str.len s)%nat
            ∧ ∀ sign m e, Prim2SF f = S754_finite sign m e →
                fixed_form 0 (Num.fmt_f 0 f) = true))
  ∧ (fun f => BlastTabWriter.adjust_output "evalue" (VFloat f))
      <$> [5e-200; 5e-150; 5e-50; 0.0005; 0.05; 0.5; 5.0; 50.0]%float
    = Ok <$> ["0.0"; "5e-150"; "5e-50"; "5e-04"; "0.050"; "0.50"; "5.0"; "   50"].
Proof.
  split; [|vm_compute; reflexivity].
  intros f.
  pose proof (ltb_below f 1.0e-180 1.0e-99 eq_refl) as H1.
  pose proof (ltb_below f 1.0e-99 0.0009 eq_refl) as H2.
  pose proof (ltb_below f 0.0009 0.1 eq_refl) as H3.
  pose proof (ltb_below f 0.1 1.0 eq_refl) as H4.
  pose proof (ltb_below f 1.0 10.0 eq_refl) as H5.
  unfold BlastTabWriter.adjust_output. rewrite String.eqb_refl.
  unfold BlastTabWriter.format_evalue, Py.lt_float, Py.float_arg.
  cbn [fmap result_fmap]. unfold Num.fmt_we, Num.fmt_wf.
  destruct (f <? 1.0e-180)%float eqn:E1.
  { eexists. split; [reflexivity|].
    split_and!; intros; chain H1 H2 H3 H4; try pose proof (H5 ltac:(eassumption)); chain H1 H2 H3 H4; congruence. }
  destruct (f <? 1.0e-99)%float eqn:E2.
  { destruct (finite_positive f _ E1 E2) as (m & e & E).
    destruct (fmt_e_form f m e E) as [Hform Hlen].
    exists (Num.fmt_e 0 f). split; [by rewrite rjust_long by lia|].
    split_and!; intros; chain H1 H2 H3 H4; try pose proof (H5 ltac:(eassumption)); chain H1 H2 H3 H4; try congruence; done. }
  destruct (f <? 0.0009)%float eqn:E3.
  { destruct (finite_positive f _ E1 E3) as (m & e & E).
    destruct (fmt_e_form f m e E) as [Hform Hlen].
    exists (Num.fmt_e 0 f). split; [by rewrite rjust_long by lia|].
    split_and!; intros; chain H1 H2 H3 H4; try pose proof (H5 ltac:(eassumption)); chain H1 H2 H3 H4; try congruence; done. }
  destruct (f <? 0.1)%float eqn:E4.
  { destruct (finite_positive f _ E1 E4) as (m & e & E).
    destruct (fmt_f_form 3 f m e E) as [Hform Hlen].
    exists (Num.fmt_f 3 f). split; [by rewrite rjust_long by lia|].
    split_and!; intros; chain H1 H2 H3 H4; try pose proof (H5 ltac:(eassumption)); chain H1 H2 H3 H4; try congruence; done. }
  destruct (f <? 1.0)%float eqn:E5.
  { destruct (finite_positive f _ E1 E5) as (m & e & E).
    destruct (fmt_f_form 2 f m e E) as [Hform Hlen].
    exists (Num.fmt_f 2 f). split; [by rewrite rjust_long by lia|].
    split_and!; intros; chain H1 H2 H3 H4; try pose proof (H5 ltac:(eassumption)); chain H1 H2 H3 H4; try congruence; done. }
  destruct (f <? 10.0)%float eqn:E6.
  { destruct (finite_positive f _ E1 E6) as (m & e & E).
    destruct (fmt_f_form 1 f m e E) as [Hform Hlen].
    exists (Num.fmt_f 1 f). split; [by rewrite rjust_long by lia|].
    split_and!; intros; try congruence; done. }
  exists (Str.rjust 5 (Num.fmt_f 0 f)). split; [done|].
  split_and!; try (intros; congruence).
  intros _. split; [done|]. split; [apply rjust_len|].
  intros sign m e E. assert (sign = false) as -> by (by eapply not_below_ten).
  by destruct (fmt_f_form 0 f m e E).
Qed.

End EvalueBands.

(** ** The key of an index entry and the id of its Query *)

(** A file of one row of the columns sseqid and qseqid: the query key
    is in the last column. *)
Definition key_last_file : string :=
  "h1	q1
".

(** C5: at a file without comments whose key column is the last one,
    the entry of the index and the Query parsed from its bytes differ
    in their key.  The indexer of [key_last_file] under the columns
    sseqid, qseqid yields one entry, of the six bytes of the file, with
    the key q1 followed by the newline of the line; [get_raw] at its
    offset returns these six bytes; and the parser gives the one Query
    of these bytes the id q1.  With the key in the first column the two
    agree. *)
Lemma index_key_keeps_newline :
  BlastTabIndexer.key_index (FieldsList ["sseqid"; "qseqid"]) = Ok 1%nat
  ∧ BlastTabIndexer.__iter__ false 1 key_last_file
    = Run [("q1" +:+ String Str.nl "", 0%nat, 6%nat)] Exhausted
  ∧ BlastTabIndexer.get_raw false 1 key_last_file 0 = Returned key_last_file
  ∧ String.substring 0 6 key_last_file = key_last_file
  ∧ (∃ q, BlastTabIterator.parse 3 (lines_of key_last_file) false
            (FieldsList ["sseqid"; "qseqid"]) = Run [q] Exhausted
          ∧ qr_attrs q !! "id" = Some (VStr "q1"))
  ∧ "q1" +:+ String Str.nl "" ≠ "q1"
  ∧ BlastTabIndexer.key_index (FieldsList ["qseqid"; "sseqid"]) = Ok 0%nat
  ∧ BlastTabIndexer.__iter__ false 0 (String.concat (String Str.tab "") ["q1"; "h1"]
                                       +:+ String Str.nl "")
    = Run [("q1", 0%nat, 6%nat)] Exhausted.
Proof.
  split_and!; try (vm_compute; reflexivity); [|done].
  eexists. split; vm_compute; reflexivity.
Qed.

(** ** Comment blocks without columns *)

Section FieldlessBlocks.

Import BlastTabIterator.

(** The line of the program and its version, as [_parse_comments]
    tells it. *)
Definition program_line (l : string) : bool :=
  (Str.contains "BLAST" l && negb (Str.contains "processed" l))%bool.












End FieldlessBlocks.







